(** * Mainflux: authorization-aware coordination of users, things and groups

    A shallow embedding of the service layer of the repository:
    - [internal/groups/service.go]   (group hierarchy, membership),
    - [things/service.go]            (thing lifecycle, identity cache),
    - [users/service.go]             (user lifecycle, secret hashing),
    - [internal/groups/api/endpoints.go] (read-side tree assembly).

    The services talk to their collaborators (policy engine, repositories,
    hasher, cache, id provider, clock) only through interfaces.  Every such
    call is an event of type [Ev]; a service method is a finite tree of
    events ([Prog]); [run] executes a tree against an arbitrary, stateful
    implementation of the collaborators and records the calls that were
    made, in order, together with their answers. *)

From stdpp Require Import base option list strings gmap fin_maps.
From Stdlib Require Import ZArith.

Local Open Scope string_scope.
Local Open Scope list_scope.

#[local] Set Warnings "-register-all".

(** ** Errors *)

(** Modelled from the spec: the sentinel errors of [pkg/errors],
    [internal/apiutil] and [pkg/clients].  Their declarations are outside
    the sources at hand; they are package-level values, pairwise distinct,
    and are kept apart from the errors built with [errors.New] and
    [fmt.Errorf] in the service files. *)
Inductive sentinel : Type :=
| ErrAuthentication
| ErrAuthorization
| ErrNotFound
| ErrMalformedEntity
| ErrLogin
| ErrInvalidStatus
| ErrInvalidRole
| ErrMissingSecret
| ErrStatusAlreadyAssigned
| ErrEnableClient
| ErrDisableClient.

(** A Go [error] that is not [nil].  [ErrWrap w e] is [errors.Wrap(w, e)],
    [ErrErrorf m e] is [fmt.Errorf(m ++ "%w", e)]. *)
Inductive error : Type :=
| ErrSentinel (s : sentinel)
| ErrNew (msg : string)
| ErrWrap (wrapper err : error)
| ErrErrorf (msg : string) (err : error).

Coercion ErrSentinel : sentinel >-> error.

#[global] Instance sentinel_eq_dec : EqDecision sentinel.
Proof. solve_decision. Defined.

#[global] Instance error_eq_dec : EqDecision error.
Proof. solve_decision. Defined.

(** The pair [(value, error)] returned by a Go function, when only one of
    the two is meaningful. *)
Inductive result (A : Type) : Type :=
| Ok (a : A)
| Err (e : error).

Arguments Ok {A} a.
Arguments Err {A} e.

Definition is_ok {A} (r : result A) : bool :=
  match r with Ok _ => true | Err _ => false end.

(** ** Data model *)

Definition Time := Z.
Definition Metadata := list (string * string).

Module mfclients.

(** Modelled from the spec: status ∈ {enabled, disabled}; any other value
    of the underlying integer type is [OtherStatus].  The zero value of
    the type is [EnabledStatus]. *)
Inductive Status : Type :=
| EnabledStatus
| DisabledStatus
| OtherStatus (code : nat).

(** Modelled from the spec: the role of a user, [UserRole] being the zero
    value. *)
Inductive Role : Type :=
| UserRole
| AdminRole
| OtherRole (code : nat).

#[global] Instance Status_eq_dec : EqDecision Status.
Proof. solve_decision. Defined.

#[global] Instance Role_eq_dec : EqDecision Role.
Proof. solve_decision. Defined.

Record Credentials : Type := mkCredentials {
  Identity : string;
  Secret : string
}.

Record Client : Type := mkClient {
  ID : string;
  Name : string;
  Tags : list string;
  Owner : string;
  Credentials_ : Credentials;
  Metadata_ : Metadata;
  CreatedAt : Time;
  UpdatedAt : Time;
  UpdatedBy : string;
  Status_ : Status;
  Role_ : Role
}.

(** [mfclients.Client{}] *)
Definition zero : Client :=
  mkClient "" "" [] "" (mkCredentials "" "") [] 0%Z 0%Z "" EnabledStatus UserRole.

Definition with_ID (v : string) (c : Client) : Client :=
  mkClient v (Name c) (Tags c) (Owner c) (Credentials_ c) (Metadata_ c)
           (CreatedAt c) (UpdatedAt c) (UpdatedBy c) (Status_ c) (Role_ c).

Definition with_Owner (v : string) (c : Client) : Client :=
  mkClient (ID c) (Name c) (Tags c) v (Credentials_ c) (Metadata_ c)
           (CreatedAt c) (UpdatedAt c) (UpdatedBy c) (Status_ c) (Role_ c).

Definition with_Credentials (v : Credentials) (c : Client) : Client :=
  mkClient (ID c) (Name c) (Tags c) (Owner c) v (Metadata_ c)
           (CreatedAt c) (UpdatedAt c) (UpdatedBy c) (Status_ c) (Role_ c).

(** [c.Credentials.Secret = v] *)
Definition with_Secret (v : string) (c : Client) : Client :=
  with_Credentials (mkCredentials (Identity (Credentials_ c)) v) c.

Definition with_CreatedAt (v : Time) (c : Client) : Client :=
  mkClient (ID c) (Name c) (Tags c) (Owner c) (Credentials_ c) (Metadata_ c)
           v (UpdatedAt c) (UpdatedBy c) (Status_ c) (Role_ c).

Definition with_UpdatedAt (v : Time) (c : Client) : Client :=
  mkClient (ID c) (Name c) (Tags c) (Owner c) (Credentials_ c) (Metadata_ c)
           (CreatedAt c) v (UpdatedBy c) (Status_ c) (Role_ c).

Definition with_UpdatedBy (v : string) (c : Client) : Client :=
  mkClient (ID c) (Name c) (Tags c) (Owner c) (Credentials_ c) (Metadata_ c)
           (CreatedAt c) (UpdatedAt c) v (Status_ c) (Role_ c).

Definition with_Status (v : Status) (c : Client) : Client :=
  mkClient (ID c) (Name c) (Tags c) (Owner c) (Credentials_ c) (Metadata_ c)
           (CreatedAt c) (UpdatedAt c) (UpdatedBy c) v (Role_ c).

End mfclients.

Module groups.

(** A [*Group] into the backing array of [Page.Groups]: its index. *)
Definition ptr := nat.

Record Group : Type := mkGroup {
  ID : string;
  Owner : string;
  Parent : string;
  Name : string;
  Description : string;
  Metadata_ : Metadata;
  Level : Z;
  Path : string;
  Children : list ptr;
  CreatedAt : Time;
  UpdatedAt : Time;
  UpdatedBy : string;
  Status_ : mfclients.Status
}.

(** [groups.Group{}] *)
Definition zero : Group :=
  mkGroup "" "" "" "" "" [] 0%Z "" [] 0%Z 0%Z "" mfclients.EnabledStatus.

Definition with_ID (v : string) (g : Group) : Group :=
  mkGroup v (Owner g) (Parent g) (Name g) (Description g) (Metadata_ g)
          (Level g) (Path g) (Children g) (CreatedAt g) (UpdatedAt g)
          (UpdatedBy g) (Status_ g).

Definition with_Owner (v : string) (g : Group) : Group :=
  mkGroup (ID g) v (Parent g) (Name g) (Description g) (Metadata_ g)
          (Level g) (Path g) (Children g) (CreatedAt g) (UpdatedAt g)
          (UpdatedBy g) (Status_ g).

Definition with_Children (v : list ptr) (g : Group) : Group :=
  mkGroup (ID g) (Owner g) (Parent g) (Name g) (Description g) (Metadata_ g)
          (Level g) (Path g) v (CreatedAt g) (UpdatedAt g)
          (UpdatedBy g) (Status_ g).

Definition with_CreatedAt (v : Time) (g : Group) : Group :=
  mkGroup (ID g) (Owner g) (Parent g) (Name g) (Description g) (Metadata_ g)
          (Level g) (Path g) (Children g) v (UpdatedAt g)
          (UpdatedBy g) (Status_ g).

Definition with_UpdatedAt (v : Time) (g : Group) : Group :=
  mkGroup (ID g) (Owner g) (Parent g) (Name g) (Description g) (Metadata_ g)
          (Level g) (Path g) (Children g) (CreatedAt g) v
          (UpdatedBy g) (Status_ g).

Definition with_UpdatedBy (v : string) (g : Group) : Group :=
  mkGroup (ID g) (Owner g) (Parent g) (Name g) (Description g) (Metadata_ g)
          (Level g) (Path g) (Children g) (CreatedAt g) (UpdatedAt g)
          v (Status_ g).

Definition with_Status (v : mfclients.Status) (g : Group) : Group :=
  mkGroup (ID g) (Owner g) (Parent g) (Name g) (Description g) (Metadata_ g)
          (Level g) (Path g) (Children g) (CreatedAt g) (UpdatedAt g)
          (UpdatedBy g) v.

(** [PageMeta] is embedded in [Page]; of its fields the code at hand reads
    [Total], [Offset] and [Limit]. *)
Record Page : Type := mkPage {
  Total : N;
  Offset : N;
  Limit : N;
  PagePath : string;
  PageLevel : N;
  PageID : string;
  Direction : Z;
  Groups : list Group
}.

Record Member : Type := mkMember {
  MemberID : string;
  MemberType : string
}.

Record MembersPage : Type := mkMembersPage {
  MTotal : N;
  MOffset : N;
  MLimit : N;
  Members : list Member
}.

End groups.

(** ** Messages of the policy engine ([mainflux.AuthServiceClient]) *)

Module mainflux.

(** [AuthorizeReq], [AddPolicyReq], [DeletePolicyReq], [ListObjectsReq] and
    [ListSubjectsReq] are generated messages with the same string fields; a
    field that a literal does not set is the empty string.  One record
    serves for all of them, the call it is passed to tells them apart. *)
Record PolicyReq : Type := mkPolicyReq {
  SubjectType : string;
  SubjectKind : string;
  Subject : string;
  Relation : string;
  Permission : string;
  ObjectType : string;
  Object : string
}.

Record AuthorizeRes : Type := mkAuthorizeRes {
  Authorized : bool;
  Id : string
}.

Record IssueReq : Type := mkIssueReq {
  IssueId : string;
  IssueEmail : string;
  IssueType : N
}.

(** A field of [Token.Extra]: a string or some other JSON value. *)
Inductive ExtraValue : Type :=
| StringValue (s : string)
| OtherValue.

Record Token : Type := mkToken {
  Value : string;
  Extra : gmap string ExtraValue
}.

End mainflux.

Module jwt.

Record Token : Type := mkToken {
  AccessToken : string;
  RefreshToken : string;
  AccessType : string
}.

End jwt.

(** ** Calls to the collaborators *)

(** One constructor per interface method that the services call; the index
    is the Go return type.  A method returning only [error] answers
    [option error], [None] being [nil]. *)
Inductive Ev : Type -> Type :=
(* mainflux.AuthServiceClient *)
| AuthIdentify (token : string) : Ev (result string)
| AuthAuthorize (req : mainflux.PolicyReq) : Ev (result mainflux.AuthorizeRes)
| AuthAddPolicy (req : mainflux.PolicyReq) : Ev (result bool)
| AuthDeletePolicy (req : mainflux.PolicyReq) : Ev (result bool)
| AuthListAllObjects (req : mainflux.PolicyReq) : Ev (result (list string))
| AuthListAllSubjects (req : mainflux.PolicyReq) : Ev (result (list string))
| AuthIssue (req : mainflux.IssueReq) : Ev (result (option mainflux.Token))
(* mainflux.IDProvider, time.Now *)
| IDProviderID : Ev (result string)
| TimeNow : Ev Time
(* groups.Repository *)
| GroupsSave (g : groups.Group) : Ev (result groups.Group)
| GroupsUpdate (g : groups.Group) : Ev (result groups.Group)
| GroupsRetrieveByID (id : string) : Ev (result groups.Group)
| GroupsRetrieveByIDs (gm : groups.Page) (ids : list string) : Ev (result groups.Page)
| GroupsChangeStatus (g : groups.Group) : Ev (result groups.Group)
(* clients repositories of things and of users *)
| ThingsSave (cs : list mfclients.Client) : Ev (result (list mfclients.Client))
| UsersSave (c : mfclients.Client) : Ev (result mfclients.Client)
| ClientsRetrieveByID (id : string) : Ev (result mfclients.Client)
| ClientsRetrieveByIdentity (identity : string) : Ev (result mfclients.Client)
| ClientsRetrieveBySecret (key : string) : Ev (result mfclients.Client)
| ClientsUpdateSecret (c : mfclients.Client) : Ev (result mfclients.Client)
| ClientsChangeStatus (c : mfclients.Client) : Ev (result mfclients.Client)
| ClientsIsOwner (clientID ownerID : string) : Ev (option error)
(* users.Hasher *)
| HasherHash (plain : string) : Ev (result string)
| HasherCompare (plain hashed : string) : Ev (option error)
(* things.Cache *)
| CacheID (key : string) : Ev (result string)
| CacheSave (key id : string) : Ev (option error)
| CacheRemove (id : string) : Ev (option error).

(** A service method: a finite tree whose nodes are calls and whose leaves
    are return values. *)
Inductive Prog (A : Type) : Type :=
| Ret (a : A)
| Vis {X : Type} (e : Ev X) (k : X -> Prog A).

Arguments Ret {A} a.
Arguments Vis {A X} e k.

Fixpoint bind {A B : Type} (p : Prog A) (f : A -> Prog B) : Prog B :=
  match p with
  | Ret a => f a
  | Vis e k => Vis e (fun x => bind (k x) f)
  end.

Definition call {X : Type} (e : Ev X) : Prog X := Vis e Ret.

Declare Scope prog_scope.
Delimit Scope prog_scope with prog.
Bind Scope prog_scope with Prog.

Notation "x <- p ;; q" := (bind p (fun x => q))
  (at level 100, p at next level, right associativity) : prog_scope.

(** [x, err := p; if err != nil { return _, err }; q] *)
Notation "'try' x <- p ;; q" :=
  (bind p (fun r => match r with Ok x => q | Err e => Ret (Err e) end))
  (at level 100, x name, p at next level, right associativity) : prog_scope.

(** [if err := p; err != nil { return _, err }; q] *)
Notation "'check' p ;; q" :=
  (bind p (fun r => match r with None => q | Some e => Ret (Err e) end))
  (at level 100, p at next level, right associativity) : prog_scope.

Local Open Scope prog_scope.

(** Rewrites the error of a failed call, as [errors.Wrap] does on the way
    out of a method. *)
Definition on_err {A} (f : error -> error) (p : Prog (result A)) : Prog (result A) :=
  r <- p ;; Ret (match r with Ok a => Ok a | Err e => Err (f e) end).

(** ** Execution *)

(** The collaborators: any implementation, with any state [W] of its own
    (database, tuple store, clock, ...). *)
Definition handler (W : Type) : Type := forall X : Type, Ev X -> W -> X * W.

(** A call that was made, with its answer. *)
Inductive Entry : Type :=
| Log {X : Type} (e : Ev X) (x : X).

Fixpoint run {W A : Type} (h : handler W) (p : Prog A) (w : W) : A * list Entry * W :=
  match p with
  | Ret a => (a, [], w)
  | Vis e k =>
      let '(x, w1) := h _ e w in
      let '(a, tr, w2) := run h (k x) w1 in
      (a, Log e x :: tr, w2)
  end.

Definition result_of {W A} (o : A * list Entry * W) : A := o.1.1.
Definition trace_of {W A} (o : A * list Entry * W) : list Entry := o.1.2.
Definition world_of {W A} (o : A * list Entry * W) : W := o.2.

(** *** Observers on entries *)

(** Calls that go over the network to the policy engine. *)
Definition is_auth_call (en : Entry) : bool :=
  match en with
  | Log (AuthIdentify _) _ | Log (AuthAuthorize _) _ | Log (AuthAddPolicy _) _
  | Log (AuthDeletePolicy _) _ | Log (AuthListAllObjects _) _
  | Log (AuthListAllSubjects _) _ | Log (AuthIssue _) _ => true
  | _ => false
  end.

(** Calls to a repository (the backing store). *)
Definition is_repo_call (en : Entry) : bool :=
  match en with
  | Log (GroupsSave _) _ | Log (GroupsUpdate _) _ | Log (GroupsRetrieveByID _) _
  | Log (GroupsRetrieveByIDs _ _) _ | Log (GroupsChangeStatus _) _
  | Log (ThingsSave _) _ | Log (UsersSave _) _ | Log (ClientsRetrieveByID _) _
  | Log (ClientsRetrieveByIdentity _) _ | Log (ClientsRetrieveBySecret _) _
  | Log (ClientsUpdateSecret _) _ | Log (ClientsChangeStatus _) _
  | Log (ClientsIsOwner _ _) _ => true
  | _ => false
  end.

Definition is_network_call (en : Entry) : bool :=
  is_auth_call en || is_repo_call en.

(** Writes: the record store and the tuple graph. *)
Definition is_write (en : Entry) : bool :=
  match en with
  | Log (GroupsSave _) _ | Log (GroupsUpdate _) _ | Log (GroupsChangeStatus _) _
  | Log (ThingsSave _) _ | Log (UsersSave _) _ | Log (ClientsUpdateSecret _) _
  | Log (ClientsChangeStatus _) _
  | Log (AuthAddPolicy _) _ | Log (AuthDeletePolicy _) _ => true
  | _ => false
  end.

(** The request and the answer of an [Authorize] call. *)
Definition authorize_of (en : Entry)
  : option (mainflux.PolicyReq * result mainflux.AuthorizeRes) :=
  match en with
  | @Log X e x =>
      match e in Ev X0
            return X0 -> option (mainflux.PolicyReq * result mainflux.AuthorizeRes) with
      | AuthAuthorize req => fun r => Some (req, r)
      | _ => fun _ => None
      end x
  end.

Definition count (f : Entry -> bool) (tr : list Entry) : nat :=
  length (filter (fun en => f en = true) tr).

(** ** internal/groups/service.go *)

Module GroupsService.

Import mainflux.

Definition errParentUnAuthz : error := ErrNew "failed to authorize parent group".

Definition ownerRelation := "owner".
Definition groupRelation := "group".
Definition parentGroupRelation := "parent_group".

Definition usersKind := "users".
Definition groupsKind := "groups".
Definition thingsKind := "things".

Definition userType := "user".
Definition groupType := "group".
Definition thingType := "thing".

Definition editPermission := "edit".
Definition viewPermission := "view".

Definition tokenKind := "token".

Definition identify (token : string) : Prog (result string) :=
  r <- call (AuthIdentify token) ;;
  match r with
  | Err e => Ret (Err e)
  | Ok id => Ret (Ok id)
  end.

Definition authorizeReq (subjectType subject permission objectType object : string)
  : PolicyReq :=
  {| SubjectType := subjectType; SubjectKind := tokenKind; Subject := subject;
     Relation := ""; Permission := permission;
     ObjectType := objectType; Object := object |}.

Definition authorize (subjectType subject permission objectType object : string)
  : Prog (result string) :=
  r <- call (AuthAuthorize (authorizeReq subjectType subject permission objectType object)) ;;
  match r with
  | Err e => Ret (Err (ErrWrap ErrAuthorization e))
  | Ok res =>
      if negb (Authorized res) then Ret (Err (ErrSentinel ErrAuthorization))
      else Ret (Ok (Id res))
  end.

Definition ownerPolicy (ownerID : string) (g : groups.Group) : PolicyReq :=
  {| SubjectType := userType; SubjectKind := ""; Subject := ownerID;
     Relation := ownerRelation; Permission := "";
     ObjectType := groupType; Object := groups.ID g |}.

Definition parentPolicy (g : groups.Group) : PolicyReq :=
  {| SubjectType := groupType; SubjectKind := ""; Subject := groups.Parent g;
     Relation := parentGroupRelation; Permission := "";
     ObjectType := groupType; Object := groups.ID g |}.

Definition CreateGroup (token : string) (g : groups.Group) : Prog (result groups.Group) :=
  try ownerID <- identify token ;;
  try groupID <- call IDProviderID ;;
  if bool_decide (groups.Status_ g ≠ mfclients.EnabledStatus)
     && bool_decide (groups.Status_ g ≠ mfclients.DisabledStatus)
  then Ret (Err (ErrSentinel ErrInvalidStatus))
  else
    let g := if decide (groups.Owner g = "") then groups.with_Owner ownerID g else g in
    let g := groups.with_ID groupID g in
    now <- call TimeNow ;;
    let g := groups.with_CreatedAt now g in
    try authz <-
      (if decide (groups.Parent g ≠ "")
       then on_err (ErrWrap errParentUnAuthz)
              (authorize userType token editPermission groupType (groups.Parent g))
       else Ret (Ok "")) ;;
    try g <- call (GroupsSave g) ;;
    try added <- call (AuthAddPolicy (ownerPolicy ownerID g)) ;;
    if decide (groups.Parent g ≠ "")
    then
      try added' <- call (AuthAddPolicy (parentPolicy g)) ;;
      Ret (Ok g)
    else Ret (Ok g).

Definition ViewGroup (token id : string) : Prog (result groups.Group) :=
  try authz <- authorize userType token viewPermission groupType id ;;
  call (GroupsRetrieveByID id).

(** The nested loops of [ListGroups]: for every [cid], in order, every [id]
    of [allowed] equal to it is appended. *)
Definition intersectIDs (cids allowed : list string) : list string :=
  flat_map (fun cid => filter (fun id => id = cid) allowed) cids.

Definition ListGroups (token memberKind memberID : string) (gm : groups.Page)
  : Prog (result groups.Page) :=
  try userID <- identify token ;;
  try allowedIDs <- call (AuthListAllObjects
      {| SubjectType := userType; SubjectKind := ""; Subject := userID;
         Relation := ""; Permission := viewPermission;
         ObjectType := groupType; Object := "" |}) ;;
  if decide (memberKind = thingsKind)
  then
    try cids <- call (AuthListAllSubjects
        {| SubjectType := groupType; SubjectKind := ""; Subject := "";
           Relation := ""; Permission := viewPermission;
           ObjectType := thingType; Object := memberID |}) ;;
    call (GroupsRetrieveByIDs gm (intersectIDs cids allowedIDs))
  else
    call (GroupsRetrieveByIDs gm allowedIDs).

Definition membersPage (type : string) (ids : list string) : groups.MembersPage :=
  let members := map (fun id => groups.mkMember id type) ids in
  {| groups.MTotal := N.of_nat (length members);
     groups.MOffset := 0%N;
     groups.MLimit := N.of_nat (length members);
     groups.Members := members |}.

Definition ListMembers (token groupID permission memberKind : string)
  : Prog (result groups.MembersPage) :=
  try authz <- authorize userType token viewPermission groupType groupID ;;
  if decide (memberKind = thingsKind)
  then
    try tids <- call (AuthListAllObjects
        {| SubjectType := groupType; SubjectKind := ""; Subject := groupID;
           Relation := groupRelation; Permission := "";
           ObjectType := thingType; Object := "" |}) ;;
    Ret (Ok (membersPage thingType tids))
  else if decide (memberKind = usersKind)
  then
    try uids <- call (AuthListAllSubjects
        {| SubjectType := userType; SubjectKind := ""; Subject := "";
           Relation := ""; Permission := permission;
           ObjectType := groupType; Object := groupID |}) ;;
    Ret (Ok (membersPage userType uids))
  else Ret (Err (ErrNew "invalid member_kind")).

Definition UpdateGroup (token : string) (g : groups.Group) : Prog (result groups.Group) :=
  try id <- authorize userType token editPermission groupType (groups.ID g) ;;
  now <- call TimeNow ;;
  let g := groups.with_UpdatedAt now g in
  let g := groups.with_UpdatedBy id g in
  call (GroupsUpdate g).

Definition changeGroupStatus (token : string) (group : groups.Group)
  : Prog (result groups.Group) :=
  try id <- authorize userType token editPermission groupType (groups.ID group) ;;
  try dbGroup <- call (GroupsRetrieveByID (groups.ID group)) ;;
  if decide (groups.Status_ dbGroup = groups.Status_ group)
  then Ret (Err (ErrSentinel ErrStatusAlreadyAssigned))
  else
    let group := groups.with_UpdatedBy id group in
    call (GroupsChangeStatus group).

Definition statusGroup (id : string) (st : mfclients.Status) (now : Time) : groups.Group :=
  groups.with_UpdatedAt now (groups.with_Status st (groups.with_ID id groups.zero)).

Definition EnableGroup (token id : string) : Prog (result groups.Group) :=
  now <- call TimeNow ;;
  let group := statusGroup id mfclients.EnabledStatus now in
  try group <- changeGroupStatus token group ;;
  Ret (Ok group).

Definition DisableGroup (token id : string) : Prog (result groups.Group) :=
  now <- call TimeNow ;;
  let group := statusGroup id mfclients.DisabledStatus now in
  try group <- changeGroupStatus token group ;;
  Ret (Ok group).

(** The tuples that [Assign] adds and [Unassign] deletes; [None] is the
    [default] branch of the switch on the member kind. *)
Definition memberPolicies (groupID relation memberKind : string) (memberIDs : list string)
  : option (list PolicyReq) :=
  if decide (memberKind = thingsKind) then
    Some (map (fun memberID =>
      {| SubjectType := groupType; SubjectKind := ""; Subject := groupID;
         Relation := relation; Permission := "";
         ObjectType := thingType; Object := memberID |}) memberIDs)
  else if decide (memberKind = groupsKind) then
    Some (map (fun memberID =>
      {| SubjectType := groupType; SubjectKind := ""; Subject := memberID;
         Relation := relation; Permission := "";
         ObjectType := groupType; Object := groupID |}) memberIDs)
  else if decide (memberKind = usersKind) then
    Some (map (fun memberID =>
      {| SubjectType := userType; SubjectKind := ""; Subject := memberID;
         Relation := relation; Permission := "";
         ObjectType := groupType; Object := groupID |}) memberIDs)
  else None.

Fixpoint addPolicies (prs : list PolicyReq) : Prog (option error) :=
  match prs with
  | [] => Ret None
  | pr :: prs' =>
      r <- call (AuthAddPolicy pr) ;;
      match r with
      | Err e => Ret (Some (ErrErrorf "failed to add policies : " e))
      | Ok _ => addPolicies prs'
      end
  end.

Fixpoint deletePolicies (prs : list PolicyReq) : Prog (option error) :=
  match prs with
  | [] => Ret None
  | pr :: prs' =>
      r <- call (AuthDeletePolicy pr) ;;
      match r with
      | Err e => Ret (Some (ErrErrorf "failed to delete policies : " e))
      | Ok _ => deletePolicies prs'
      end
  end.

Definition Assign (token groupID relation memberKind : string) (memberIDs : list string)
  : Prog (option error) :=
  r <- authorize userType token editPermission groupType groupID ;;
  match r with
  | Err e => Ret (Some e)
  | Ok _ =>
      match memberPolicies groupID relation memberKind memberIDs with
      | None => Ret (Some (ErrNew "invalid member kind"))
      | Some prs => addPolicies prs
      end
  end.

Definition Unassign (token groupID relation memberKind : string) (memberIDs : list string)
  : Prog (option error) :=
  r <- authorize userType token editPermission groupType groupID ;;
  match r with
  | Err e => Ret (Some e)
  | Ok _ =>
      match memberPolicies groupID relation memberKind memberIDs with
      | None => Ret (Some (ErrNew "invalid member kind"))
      | Some prs => deletePolicies prs
      end
  end.

End GroupsService.

(** ** things/service.go *)

Module Things.

Import mainflux.

Definition userType := "user".
Definition thingType := "thing".

Definition deletePermission := "delete".
Definition editPermission := "edit".
Definition viewPermission := "view".

Definition identify (token : string) : Prog (result string) :=
  r <- call (AuthIdentify token) ;;
  match r with
  | Err e => Ret (Err e)
  | Ok id => Ret (Ok id)
  end.

Definition authorizeReq (subjectType subject permission objectType object : string)
  : PolicyReq :=
  {| SubjectType := subjectType; SubjectKind := ""; Subject := subject;
     Relation := ""; Permission := permission;
     ObjectType := objectType; Object := object |}.

Definition authorize (subjectType subject permission objectType object : string)
  : Prog (option error) :=
  r <- call (AuthAuthorize (authorizeReq subjectType subject permission objectType object)) ;;
  match r with
  | Err e => Ret (Some (ErrWrap ErrAuthorization e))
  | Ok res =>
      if negb (Authorized res) then Ret (Some (ErrSentinel ErrAuthorization))
      else Ret None
  end.

Definition invalidStatus (st : mfclients.Status) : bool :=
  bool_decide (st ≠ mfclients.DisabledStatus) && bool_decide (st ≠ mfclients.EnabledStatus).

(** The body of the loop of [CreateThings], from the client at hand on;
    [clients] is the slice built so far. *)
Fixpoint createThingsLoop (userID : string) (clis clients : list mfclients.Client)
  : Prog (result (list mfclients.Client)) :=
  match clis with
  | [] => Ret (Ok clients)
  | cli :: rest =>
      try cli <-
        (if decide (mfclients.ID cli = "")
         then try clientID <- call IDProviderID ;; Ret (Ok (mfclients.with_ID clientID cli))
         else Ret (Ok cli)) ;;
      try cli <-
        (if decide (mfclients.Secret (mfclients.Credentials_ cli) = "")
         then try key <- call IDProviderID ;; Ret (Ok (mfclients.with_Secret key cli))
         else Ret (Ok cli)) ;;
      let cli := if decide (mfclients.Owner cli = "")
                 then mfclients.with_Owner userID cli else cli in
      if invalidStatus (mfclients.Status_ cli)
      then Ret (Err (ErrSentinel ErrInvalidStatus))
      else
        now <- call TimeNow ;;
        let cli := mfclients.with_CreatedAt now cli in
        createThingsLoop userID rest (clients ++ [cli])
  end.

Definition CreateThings (token : string) (clis : list mfclients.Client)
  : Prog (result (list mfclients.Client)) :=
  try userID <- call (AuthIdentify token) ;;
  try clients <- createThingsLoop userID clis [] ;;
  call (ThingsSave clients).

Definition ViewClient (token id : string) : Prog (result mfclients.Client) :=
  try userID <- identify token ;;
  r <- authorize userType userID viewPermission thingType id ;;
  match r with
  | Some e => Ret (Err (ErrWrap ErrNotFound e))
  | None => call (ClientsRetrieveByID id)
  end.

Definition UpdateClientSecret (token id key : string) : Prog (result mfclients.Client) :=
  try userID <- identify token ;;
  check authorize userType userID editPermission thingType userID ;;
  now <- call TimeNow ;;
  let client :=
    mfclients.with_Status mfclients.EnabledStatus
      (mfclients.with_UpdatedBy userID
        (mfclients.with_UpdatedAt now
          (mfclients.with_Credentials (mfclients.mkCredentials "" key)
            (mfclients.with_ID id mfclients.zero)))) in
  call (ClientsUpdateSecret client).

Definition changeClientStatus (token : string) (client : mfclients.Client)
  : Prog (result mfclients.Client) :=
  try userID <- identify token ;;
  check authorize userType userID deletePermission thingType (mfclients.ID client) ;;
  try dbClient <- call (ClientsRetrieveByID (mfclients.ID client)) ;;
  if decide (mfclients.Status_ dbClient = mfclients.Status_ client)
  then Ret (Err (ErrSentinel ErrStatusAlreadyAssigned))
  else
    let client := mfclients.with_UpdatedBy userID client in
    call (ClientsChangeStatus client).

Definition statusClient (id : string) (st : mfclients.Status) (now : Time) : mfclients.Client :=
  mfclients.with_UpdatedAt now (mfclients.with_Status st (mfclients.with_ID id mfclients.zero)).

Definition EnableClient (token id : string) : Prog (result mfclients.Client) :=
  now <- call TimeNow ;;
  let client := statusClient id mfclients.EnabledStatus now in
  r <- changeClientStatus token client ;;
  match r with
  | Err e => Ret (Err (ErrWrap ErrEnableClient e))
  | Ok client => Ret (Ok client)
  end.

(** [DisableClient] returns the client next to the error of a failed cache
    eviction, so both components of the Go pair are kept. *)
Definition DisableClient (token id : string) : Prog (mfclients.Client * option error) :=
  now <- call TimeNow ;;
  let client := statusClient id mfclients.DisabledStatus now in
  r <- changeClientStatus token client ;;
  match r with
  | Err e => Ret (mfclients.zero, Some (ErrWrap ErrDisableClient e))
  | Ok client =>
      r <- call (CacheRemove (mfclients.ID client)) ;;
      match r with
      | Some e => Ret (client, Some e)
      | None => Ret (client, None)
      end
  end.

Definition Identify (key : string) : Prog (result string) :=
  r <- call (CacheID key) ;;
  match r with
  | Ok id => Ret (Ok id)
  | Err _ =>
      try client <- call (ClientsRetrieveBySecret key) ;;
      check call (CacheSave key (mfclients.ID client)) ;;
      Ret (Ok (mfclients.ID client))
  end.

End Things.

(** ** users/service.go *)

Module Users.

Import mainflux.

(** Of the fields of [service], the collaborators are reached through
    events; the password pattern is a pure predicate on strings. *)
Record service : Type := mkService {
  passRegex : string -> bool
}.

Definition ErrPasswordFormat : error :=
  ErrNew "password does not meet the requirements".

Definition Identify (token : string) : Prog (result string) :=
  r <- call (AuthIdentify token) ;;
  match r with
  | Err e => Ret (Err e)
  | Ok id => Ret (Ok id)
  end.

(** The first component of the pair that [Identify] returns: the id, and
    the empty string next to an error. *)
Definition idOf (r : result string) : string :=
  match r with Ok id => id | Err _ => "" end.

Definition isOwner (clientID ownerID : string) : Prog (option error) :=
  call (ClientsIsOwner clientID ownerID).

Definition RegisterClient (token : string) (cli : mfclients.Client)
  : Prog (result mfclients.Client) :=
  r <- Identify token ;;
  let ownerID := idOf r in
  try clientID <- call IDProviderID ;;
  let cli := if bool_decide (mfclients.Owner cli = "") && bool_decide (ownerID ≠ "")
             then mfclients.with_Owner ownerID cli else cli in
  if decide (mfclients.Secret (mfclients.Credentials_ cli) = "")
  then Ret (Err (ErrSentinel ErrMissingSecret))
  else
    try hash <- on_err (ErrWrap ErrMalformedEntity)
                  (call (HasherHash (mfclients.Secret (mfclients.Credentials_ cli)))) ;;
    let cli := mfclients.with_Secret hash cli in
    if bool_decide (mfclients.Status_ cli ≠ mfclients.DisabledStatus)
       && bool_decide (mfclients.Status_ cli ≠ mfclients.EnabledStatus)
    then Ret (Err (ErrSentinel ErrInvalidStatus))
    else if bool_decide (mfclients.Role_ cli ≠ mfclients.UserRole)
            && bool_decide (mfclients.Role_ cli ≠ mfclients.AdminRole)
    then Ret (Err (ErrSentinel ErrInvalidRole))
    else
      let cli := mfclients.with_ID clientID cli in
      now <- call TimeNow ;;
      let cli := mfclients.with_CreatedAt now cli in
      try client <- call (UsersSave cli) ;;
      Ret (Ok client).

Definition parseToken (tkn : option Token) : result jwt.Token :=
  match tkn with
  | None => Err (ErrNew "invalid token")
  | Some tkn =>
      match Extra tkn !! "refresh_token" with
      | Some (StringValue refresh) =>
          Ok {| jwt.AccessToken := Value tkn;
                jwt.RefreshToken := refresh;
                jwt.AccessType := "bearer" |}
      | _ => Err (ErrSentinel ErrAuthentication)
      end
  end.

Definition IssueToken (identity secret : string) : Prog (result jwt.Token) :=
  try dbUser <- call (ClientsRetrieveByIdentity identity) ;;
  r <- call (HasherCompare secret (mfclients.Secret (mfclients.Credentials_ dbUser))) ;;
  match r with
  | Some e => Ret (Err (ErrWrap ErrLogin e))
  | None =>
      try tkn <- on_err (ErrWrap ErrNotFound)
                   (call (AuthIssue {| IssueId := mfclients.ID dbUser;
                                       IssueEmail := mfclients.Identity (mfclients.Credentials_ dbUser);
                                       IssueType := 0%N |})) ;;
      Ret (parseToken tkn)
  end.

Definition ViewClient (token id : string) : Prog (result mfclients.Client) :=
  try tokenUserID <- Identify token ;;
  check (if decide (tokenUserID ≠ id) then isOwner id tokenUserID else Ret None) ;;
  try client <- call (ClientsRetrieveByID id) ;;
  let client := mfclients.with_Secret "" client in
  Ret (Ok client).

Definition ViewProfile (token : string) : Prog (result mfclients.Client) :=
  try id <- Identify token ;;
  try client <- call (ClientsRetrieveByID id) ;;
  let client := mfclients.with_Secret "" client in
  Ret (Ok client).

Definition ResetSecret (svc : service) (resetToken secret : string) : Prog (option error) :=
  r <- Identify resetToken ;;
  match r with
  | Err e => Ret (Some (ErrWrap ErrAuthentication e))
  | Ok id =>
      r <- call (ClientsRetrieveByID id) ;;
      match r with
      | Err e => Ret (Some e)
      | Ok c =>
          if decide (mfclients.Identity (mfclients.Credentials_ c) = "")
          then Ret (Some (ErrSentinel ErrNotFound))
          else if negb (passRegex svc secret)
          then Ret (Some ErrPasswordFormat)
          else
            r <- call (HasherHash secret) ;;
            match r with
            | Err e => Ret (Some e)
            | Ok secret =>
                now <- call TimeNow ;;
                let c :=
                  mfclients.with_UpdatedBy id
                    (mfclients.with_UpdatedAt now
                      (mfclients.with_Credentials
                        (mfclients.mkCredentials
                           (mfclients.Identity (mfclients.Credentials_ c)) secret)
                        mfclients.zero)) in
                r <- call (ClientsUpdateSecret c) ;;
                match r with
                | Err e => Ret (Some e)
                | Ok _ => Ret None
                end
            end
      end
  end.

Definition UpdateClientSecret (svc : service) (token oldSecret newSecret : string)
  : Prog (result mfclients.Client) :=
  try id <- Identify token ;;
  if negb (passRegex svc newSecret)
  then Ret (Err ErrPasswordFormat)
  else
    try dbClient <- call (ClientsRetrieveByID id) ;;
    try tkn <- IssueToken (mfclients.Identity (mfclients.Credentials_ dbClient)) oldSecret ;;
    try newSecret <- call (HasherHash newSecret) ;;
    let dbClient := mfclients.with_Secret newSecret dbClient in
    now <- call TimeNow ;;
    let dbClient := mfclients.with_UpdatedAt now dbClient in
    let dbClient := mfclients.with_UpdatedBy id dbClient in
    call (ClientsUpdateSecret dbClient).

Definition changeClientStatus (token : string) (client : mfclients.Client)
  : Prog (result mfclients.Client) :=
  try tokenUserID <- Identify token ;;
  check (if decide (tokenUserID ≠ mfclients.ID client)
         then isOwner (mfclients.ID client) tokenUserID else Ret None) ;;
  try dbClient <- call (ClientsRetrieveByID (mfclients.ID client)) ;;
  if decide (mfclients.Status_ dbClient = mfclients.Status_ client)
  then Ret (Err (ErrSentinel ErrStatusAlreadyAssigned))
  else
    let client := mfclients.with_UpdatedBy tokenUserID client in
    call (ClientsChangeStatus client).

Definition statusClient (id : string) (st : mfclients.Status) (now : Time) : mfclients.Client :=
  mfclients.with_Status st (mfclients.with_UpdatedAt now (mfclients.with_ID id mfclients.zero)).

Definition EnableClient (token id : string) : Prog (result mfclients.Client) :=
  now <- call TimeNow ;;
  let client := statusClient id mfclients.EnabledStatus now in
  on_err (ErrWrap ErrEnableClient) (changeClientStatus token client).

Definition DisableClient (token id : string) : Prog (result mfclients.Client) :=
  now <- call TimeNow ;;
  let client := statusClient id mfclients.DisabledStatus now in
  on_err (ErrWrap ErrDisableClient) (changeClientStatus token client).

End Users.

(** ** internal/groups/api/endpoints.go: tree assembly *)

Module GroupsAPI.

Record pageRes : Type := mkPageRes {
  Limit : N;
  Offset : N;
  Total : N;
  Level : N
}.

Record viewGroupRes : Type := mkViewGroupRes {
  Group : groups.Group
}.

(** The response holds copies of the root groups; their [Children] point
    into the backing array of [page.Groups]. *)
Record groupPageRes : Type := mkGroupPageRes {
  pageRes_ : pageRes;
  Groups : list viewGroupRes
}.

Definition toViewGroupRes (group : groups.Group) : viewGroupRes :=
  {| Group := group |}.

(** First loop: [groupsMap] sends an id to the address of the first group
    of the page that carries it, [parentsMap] gets an empty bucket per id. *)
Fixpoint indexLoop (gs : list groups.Group) (i : nat)
    (groupsMap : gmap string groups.ptr) (parentsMap : gmap string (list groups.ptr))
  : gmap string groups.ptr * gmap string (list groups.ptr) :=
  match gs with
  | [] => (groupsMap, parentsMap)
  | g :: gs' =>
      match groupsMap !! groups.ID g with
      | None => indexLoop gs' (S i) (<[groups.ID g := i]> groupsMap)
                                    (<[groups.ID g := []]> parentsMap)
      | Some _ => indexLoop gs' (S i) groupsMap parentsMap
      end
  end.

Definition indexGroups (page : groups.Page)
  : gmap string groups.ptr * gmap string (list groups.ptr) :=
  indexLoop (groups.Groups page) 0 ∅ ∅.

(** The three loops [for _, group := range groupsMap] visit the entries of
    the map in an order that Go leaves unspecified and that may differ from
    one loop to the next: each loop takes the order of its visit, [ord]. *)

(** Second loop: a group is appended to the bucket of its parent, when
    there is one. *)
Definition attachLoop (heap : list groups.Group) (ord : list (string * groups.ptr))
    (parentsMap : gmap string (list groups.ptr)) : gmap string (list groups.ptr) :=
  foldl (fun pm kp =>
           match heap !! kp.2 with
           | Some group =>
               match pm !! groups.Parent group with
               | Some children => <[groups.Parent group := children ++ [kp.2]]> pm
               | None => pm
               end
           | None => pm
           end) parentsMap ord.

(** Third loop: [group.Children = children], written through the pointer. *)
Definition childrenLoop (ord : list (string * groups.ptr))
    (parentsMap : gmap string (list groups.ptr)) (heap : list groups.Group)
  : list groups.Group :=
  foldl (fun h kp =>
           match h !! kp.2 with
           | Some group =>
               match parentsMap !! groups.ID group with
               | Some children => <[kp.2 := groups.with_Children children group]> h
               | None => h
               end
           | None => h
           end) heap ord.

(** Fourth loop: the groups that go to the top level of the response. *)
Definition rootsLoop (heap : list groups.Group) (ord : list (string * groups.ptr))
    (parentsMap : gmap string (list groups.ptr)) : list viewGroupRes :=
  foldl (fun res kp =>
           match heap !! kp.2 with
           | Some group =>
               let view := toViewGroupRes group in
               match parentsMap !! groups.Parent group with
               | Some children =>
                   if decide (length children = 0) then res ++ [view] else res
               | None => res ++ [view]
               end
           | None => res
           end) [] ord.

(** The response, and the backing array of [page.Groups] as the call leaves
    it. *)
Definition buildGroupsResponseTree (ord2 ord3 ord4 : list (string * groups.ptr))
    (page : groups.Page) : groupPageRes * list groups.Group :=
  let '(groupsMap, parentsMap) := indexGroups page in
  let parentsMap := attachLoop (groups.Groups page) ord2 parentsMap in
  let heap := childrenLoop ord3 parentsMap (groups.Groups page) in
  let res := rootsLoop heap ord4 parentsMap in
  ({| pageRes_ := {| Limit := groups.Limit page; Offset := groups.Offset page;
                     Total := groups.Total page; Level := groups.PageLevel page |};
      Groups := res |}, heap).

(** What a reader of the response sees: the ids, children followed through
    the pointers.  [None] when [fuel] does not reach the leaves or a pointer
    dangles. *)
Inductive IdTree : Type :=
| Node (id : string) (children : list IdTree).

Fixpoint sequence {A} (l : list (option A)) : option (list A) :=
  match l with
  | [] => Some []
  | None :: _ => None
  | Some a :: l' => match sequence l' with Some r => Some (a :: r) | None => None end
  end.

Fixpoint resolve (fuel : nat) (heap : list groups.Group) (g : groups.Group)
  : option IdTree :=
  match fuel with
  | 0 => None
  | S fuel' =>
      match sequence (map (fun p => match heap !! p with
                                    | Some c => resolve fuel' heap c
                                    | None => None
                                    end) (groups.Children g)) with
      | Some ts => Some (Node (groups.ID g) ts)
      | None => None
      end
  end.

Definition forest (out : groupPageRes * list groups.Group) : option (list IdTree) :=
  sequence (map (fun v => resolve (S (length out.2)) out.2 (Group v)) (Groups out.1)).

End GroupsAPI.

(** ** An in-memory implementation of the collaborators

    A policy engine holding tuples, tables of groups and clients, a cache,
    a salted-prefix hasher, a clock and a supply of fresh ids.  It is one
    [handler] among all those the theorems range over, and the one on which
    the examples are run. *)

Module Sim.

Import mainflux.

(** A tuple of the policy engine: subject, relation or permission, object
    type, object. *)
Definition tuple : Type := string * string * string * string.

Record World : Type := mkWorld {
  tokens : list (string * string);          (* bearer token ↦ user id *)
  tuples : list tuple;
  groupsTbl : list groups.Group;
  clientsTbl : list mfclients.Client;
  cache : gmap string string;                (* secret ↦ client id *)
  clock : Time;
  ids : list string                          (* ids still to be handed out *)
}.

Definition with_tuples (v : list tuple) (w : World) : World :=
  mkWorld (tokens w) v (groupsTbl w) (clientsTbl w) (cache w) (clock w) (ids w).

Definition with_groupsTbl (v : list groups.Group) (w : World) : World :=
  mkWorld (tokens w) (tuples w) v (clientsTbl w) (cache w) (clock w) (ids w).

Definition with_clientsTbl (v : list mfclients.Client) (w : World) : World :=
  mkWorld (tokens w) (tuples w) (groupsTbl w) v (cache w) (clock w) (ids w).

Definition with_cache (v : gmap string string) (w : World) : World :=
  mkWorld (tokens w) (tuples w) (groupsTbl w) (clientsTbl w) v (clock w) (ids w).

Definition with_clock (v : Time) (w : World) : World :=
  mkWorld (tokens w) (tuples w) (groupsTbl w) (clientsTbl w) (cache w) v (ids w).

Definition with_ids (v : list string) (w : World) : World :=
  mkWorld (tokens w) (tuples w) (groupsTbl w) (clientsTbl w) (cache w) (clock w) v.

Definition lookupToken (w : World) (token : string) : option string :=
  snd <$> find (fun kv => bool_decide (kv.1 = token)) (tokens w).

Definition findGroup (w : World) (id : string) : option groups.Group :=
  find (fun g => bool_decide (groups.ID g = id)) (groupsTbl w).

Definition findClient (w : World) (f : mfclients.Client -> bool) : option mfclients.Client :=
  find f (clientsTbl w).

Definition byID (id : string) (c : mfclients.Client) : bool :=
  bool_decide (mfclients.ID c = id).

Definition putGroup (g : groups.Group) (w : World) : World :=
  with_groupsTbl
    (g :: filter (fun g' => groups.ID g' ≠ groups.ID g) (groupsTbl w)) w.

Definition putClient (c : mfclients.Client) (w : World) : World :=
  with_clientsTbl
    (c :: filter (fun c' => mfclients.ID c' ≠ mfclients.ID c) (clientsTbl w)) w.

Definition subjectOf (w : World) (req : PolicyReq) : option string :=
  if decide (SubjectKind req = "token") then lookupToken w (Subject req)
  else Some (Subject req).

Definition tupleOf (req : PolicyReq) : tuple :=
  (Subject req,
   if decide (Relation req = "") then Permission req else Relation req,
   ObjectType req, Object req).

Definition hash (plain : string) : string := "#" +:+ plain.

Definition notFound {A} : result A := Err (ErrSentinel ErrNotFound).

Definition sim : handler World := fun X e w =>
  match e in Ev X0 return X0 * World with
  | AuthIdentify token =>
      (match lookupToken w token with
       | Some id => Ok id
       | None => Err (ErrSentinel ErrAuthentication)
       end, w)
  | AuthAuthorize req =>
      (match subjectOf w req with
       | Some id =>
           Ok {| Authorized :=
                   bool_decide ((id, Permission req, ObjectType req, Object req) ∈ tuples w);
                 Id := id |}
       | None => Err (ErrSentinel ErrAuthentication)
       end, w)
  | AuthAddPolicy req => (Ok true, with_tuples (tupleOf req :: tuples w) w)
  | AuthDeletePolicy req =>
      (Ok true, with_tuples (filter (fun t => t ≠ tupleOf req) (tuples w)) w)
  | AuthListAllObjects req =>
      (Ok (omap (fun t : tuple =>
                   if bool_decide (t.1.1.1 = Subject req)
                      && bool_decide (t.1.1.2 = (tupleOf req).1.1.2)
                      && bool_decide (t.1.2 = ObjectType req)
                   then Some t.2 else None) (tuples w)), w)
  | AuthListAllSubjects req =>
      (Ok (omap (fun t : tuple =>
                   if bool_decide (t.1.1.2 = (tupleOf req).1.1.2)
                      && bool_decide (t.1.2 = ObjectType req)
                      && bool_decide (t.2 = Object req)
                   then Some t.1.1.1 else None) (tuples w)), w)
  | AuthIssue req =>
      (Ok (Some {| Value := "access:" +:+ IssueId req;
                   Extra := {[ "refresh_token" := StringValue ("refresh:" +:+ IssueId req) ]} |}),
       w)
  | IDProviderID =>
      match ids w with
      | id :: rest => (Ok id, with_ids rest w)
      | [] => (Err (ErrNew "no more ids"), w)
      end
  | TimeNow => (clock w, with_clock (clock w + 1)%Z w)
  | GroupsSave g => (Ok g, putGroup g w)
  | GroupsUpdate g =>
      match findGroup w (groups.ID g) with
      | Some _ => (Ok g, putGroup g w)
      | None => (notFound, w)
      end
  | GroupsRetrieveByID id =>
      (match findGroup w id with Some g => Ok g | None => notFound end, w)
  | GroupsRetrieveByIDs gm ids =>
      let gs := filter (fun g => groups.ID g ∈ ids) (groupsTbl w) in
      (Ok (groups.mkPage (N.of_nat (length gs)) (groups.Offset gm) (groups.Limit gm)
             (groups.PagePath gm) (groups.PageLevel gm) (groups.PageID gm)
             (groups.Direction gm) gs), w)
  | GroupsChangeStatus g =>
      match findGroup w (groups.ID g) with
      | Some g' =>
          let g'' := groups.with_UpdatedBy (groups.UpdatedBy g)
                       (groups.with_Status (groups.Status_ g) g') in
          (Ok g'', putGroup g'' w)
      | None => (notFound, w)
      end
  | ThingsSave cs => (Ok cs, foldr putClient w cs)
  | UsersSave c => (Ok c, putClient c w)
  | ClientsRetrieveByID id =>
      (match findClient w (byID id) with Some c => Ok c | None => notFound end, w)
  | ClientsRetrieveByIdentity identity =>
      (match findClient w (fun c =>
               bool_decide (mfclients.Identity (mfclients.Credentials_ c) = identity)) with
       | Some c => Ok c
       | None => notFound
       end, w)
  | ClientsRetrieveBySecret key =>
      (match findClient w (fun c =>
               bool_decide (mfclients.Secret (mfclients.Credentials_ c) = key)) with
       | Some c => Ok c
       | None => notFound
       end, w)
  | ClientsUpdateSecret c =>
      match findClient w (fun c' =>
              bool_decide (mfclients.ID c' = mfclients.ID c)
              || bool_decide (mfclients.Identity (mfclients.Credentials_ c')
                              = mfclients.Identity (mfclients.Credentials_ c))) with
      | Some c' =>
          let c'' := mfclients.with_Secret (mfclients.Secret (mfclients.Credentials_ c)) c' in
          (Ok c'', putClient c'' w)
      | None => (notFound, w)
      end
  | ClientsChangeStatus c =>
      match findClient w (byID (mfclients.ID c)) with
      | Some c' =>
          let c'' := mfclients.with_UpdatedBy (mfclients.UpdatedBy c)
                       (mfclients.with_Status (mfclients.Status_ c) c') in
          (Ok c'', putClient c'' w)
      | None => (notFound, w)
      end
  | ClientsIsOwner clientID ownerID =>
      (match findClient w (fun c => byID clientID c
                                    && bool_decide (mfclients.Owner c = ownerID)) with
       | Some _ => None
       | None => Some (ErrSentinel ErrAuthorization)
       end, w)
  | HasherHash plain => (Ok (hash plain), w)
  | HasherCompare plain hashed =>
      (if decide (hash plain = hashed) then None else Some (ErrNew "wrong secret"), w)
  | CacheID key =>
      (match cache w !! key with Some id => Ok id | None => notFound end, w)
  | CacheSave key id => (None, with_cache (<[key := id]> (cache w)) w)
  | CacheRemove id =>
      (None, with_cache (filter (fun kv => kv.2 ≠ id) (cache w)) w)
  end.

End Sim.

(** ** Scenarios *)

Module Scenario.

(** Alice may view and edit group [g1]; Bob holds a valid token and no
    permission. *)
Definition w0 : Sim.World :=
  Sim.mkWorld
    [("tok-alice", "alice"); ("tok-bob", "bob")]
    [("alice", "edit", "group", "g1"); ("alice", "view", "group", "g1");
     ("alice", "delete", "thing", "t1"); ("alice", "edit", "thing", "alice")]
    [groups.mkGroup "g1" "alice" "" "root" "" [] 0%Z "" [] 10%Z 0%Z ""
       mfclients.EnabledStatus]
    [mfclients.mkClient "alice" "Alice" [] ""
       (mfclients.mkCredentials "alice@example.com" (Sim.hash "old-secret"))
       [] 5%Z 0%Z "" mfclients.EnabledStatus mfclients.UserRole;
     mfclients.mkClient "t1" "thermometer" [] "alice"
       (mfclients.mkCredentials "" "key-t1")
       [] 6%Z 0%Z "" mfclients.EnabledStatus mfclients.UserRole]
    ∅ 100%Z ["id1"; "id2"; "id3"].

End Scenario.

(** * Observations on runs, and the inputs of the examples *)

Import mainflux.
Import GroupsAPI.

(** ** Authorization *)

#[global] Instance PolicyReq_eq_dec : EqDecision PolicyReq.
Proof. solve_decision. Defined.

(** The verdict of an [Authorize] call, and the error that [authorize]
    makes of a verdict that is not a grant. *)
Definition granted (r : result AuthorizeRes) : bool :=
  match r with Ok res => Authorized res | Err _ => false end.

Definition authzError (r : result AuthorizeRes) : error :=
  match r with
  | Err e => ErrWrap ErrAuthorization e
  | Ok _ => ErrSentinel ErrAuthorization
  end.

(** ** Member kinds *)

(** The member kinds that [Assign] and [Unassign] accept; [ListMembers]
    accepts the first and the last. *)
Definition recognizedKinds : list string :=
  [GroupsService.thingsKind; GroupsService.groupsKind; GroupsService.usersKind].

(** The reading of "fails immediately": the invalid-kind error comes back
    and no call has gone to the policy engine or to a repository. *)
Definition fails_before_any_call {W A} (invalidKind : A) (o : A * list Entry * W) : Prop :=
  result_of o = invalidKind /\ count is_network_call (trace_of o) = 0.

(** ** Order of calls *)

(** Every entry of [tr] that satisfies [bad] comes after one that
    satisfies [ok]. *)
Definition preceded_by (ok bad : Entry -> bool) (tr : list Entry) : Prop :=
  forall pre en post, tr = pre ++ en :: post -> bad en = true ->
    exists en', en' ∈ pre /\ ok en' = true.

(** The same, as a test on the trace. *)
Fixpoint guarded (ok bad : Entry -> bool) (tr : list Entry) : bool :=
  match tr with
  | [] => true
  | en :: tr' => negb (bad en) && (ok en || guarded ok bad tr')
  end.

(** An [Authorize] call with request [req] that granted. *)
Definition grantedOn (req : PolicyReq) (en : Entry) : bool :=
  match authorize_of en with
  | Some (q, r) => bool_decide (q = req) && granted r
  | None => false
  end.

(** The request by which [CreateGroup] asks for edit-permission on the
    parent of [g]. *)
Definition parentReq (token : string) (g : groups.Group) : PolicyReq :=
  GroupsService.authorizeReq GroupsService.userType token GroupsService.editPermission
    GroupsService.groupType (groups.Parent g).

(** A group that Bob, who may not edit [g1], tries to create under [g1]. *)
Definition underG1 : groups.Group :=
  groups.mkGroup "" "" "g1" "child" "" [] 0%Z "" [] 0%Z 0%Z "" mfclients.EnabledStatus.

(** ** Listing of groups *)

(** The arguments of a [RetrieveByIDs] call. *)
Definition retrieveByIDs_of (en : Entry) : option (groups.Page * list string) :=
  match en with
  | Log (GroupsRetrieveByIDs gm ids) _ => Some (gm, ids)
  | _ => None
  end.

(** The two reachability queries of [ListGroups]: the groups that the
    caller may view, the groups that may view the thing. *)
Definition objectsReq (userID : string) : PolicyReq :=
  {| SubjectType := GroupsService.userType; SubjectKind := ""; Subject := userID;
     Relation := ""; Permission := GroupsService.viewPermission;
     ObjectType := GroupsService.groupType; Object := "" |}.

Definition subjectsReq (memberID : string) : PolicyReq :=
  {| SubjectType := GroupsService.groupType; SubjectKind := ""; Subject := "";
     Relation := ""; Permission := GroupsService.viewPermission;
     ObjectType := GroupsService.thingType; Object := memberID |}.

(** Alice may view the groups A, B and C; the groups B, C and D may view
    the thing T. *)
Definition wABC : Sim.World :=
  Sim.mkWorld
    [("tok-alice", "alice")]
    [("alice", "view", "group", "A"); ("alice", "view", "group", "B");
     ("alice", "view", "group", "C");
     ("B", "view", "thing", "T"); ("C", "view", "thing", "T");
     ("D", "view", "thing", "T")]
    [] [] ∅ 0%Z [].

(** The page asked for in the examples. *)
Definition page0 : groups.Page := groups.mkPage 0 0 10 "" 0 "" 1 [].

(** ** Status transitions *)

(** The status of the record that a [RetrieveByID] call brought back. *)
Definition loaded_status (en : Entry) : option mfclients.Status :=
  match en with
  | Log (GroupsRetrieveByID _) (Ok g) => Some (groups.Status_ g)
  | Log (ClientsRetrieveByID _) (Ok c) => Some (mfclients.Status_ c)
  | _ => None
  end.

(** The persistence call that changes the status of a group or client. *)
Definition is_change_status (en : Entry) : bool :=
  match en with
  | Log (GroupsChangeStatus _) _ | Log (ClientsChangeStatus _) _ => true
  | _ => false
  end.

(** A run of a status change towards [requested]: when the record that it
    loads has that status already, it ends in [conflict] and makes no
    [ChangeStatus] call; and a [ChangeStatus] call is made only when a
    record was loaded with another status. *)
Definition no_op_rejected {W A} (requested : mfclients.Status) (conflict : A)
    (o : A * list Entry * W) : Prop :=
  (forall en, en ∈ trace_of o -> loaded_status en = Some requested ->
     result_of o = conflict /\
     Forall (fun en => is_change_status en = false) (trace_of o)) /\
  (forall en, en ∈ trace_of o -> is_change_status en = true ->
     exists en' st, en' ∈ trace_of o /\ loaded_status en' = Some st /\ st ≠ requested).

(** The conflict error of a transition to the status already held. *)
Definition conflict : error := ErrSentinel ErrStatusAlreadyAssigned.

(** ** Identity cache *)

(** Modelled from the spec: the identity cache, "save(key, id); id(key) ->
    id or miss; remove(id)", a map from secret to client id.  Its
    implementation is outside the sources at hand.  [withCache h] answers
    the three cache calls from the map and leaves every other call to [h]. *)
Definition withCache {W} (h : handler W) : handler (gmap string string * W) :=
  fun X e cw =>
    match e in Ev X0 return X0 * (gmap string string * W) with
    | CacheID key =>
        (match cw.1 !! key with
         | Some id => Ok id
         | None => Err (ErrSentinel ErrNotFound)
         end, cw)
    | CacheSave key id => (None, (<[key := id]> cw.1, cw.2))
    | CacheRemove id => (None, (filter (fun kv => kv.2 ≠ id) cw.1, cw.2))
    | e' => let '(x, w') := h _ e' cw.2 in (x, (cw.1, w'))
    end.

(** The thing [t1] identifies itself twice, the cache being empty before. *)
Definition firstIdentify : result string * list Entry * (gmap string string * Sim.World) :=
  run (withCache Sim.sim) (Things.Identify "key-t1") (∅, Scenario.w0).

Definition secondIdentify : result string * list Entry * (gmap string string * Sim.World) :=
  run (withCache Sim.sim) (Things.Identify "key-t1") (world_of firstIdentify).

(** A lookup in storage: any call to a repository. *)
Definition is_storage_lookup (en : Entry) : bool := is_repo_call en.

(** A write to the cache. *)
Definition is_cache_write (en : Entry) : bool :=
  match en with
  | Log (CacheSave _ _) _ => true
  | _ => false
  end.

(** ** Clients and their secrets *)

(** The client handed to an [UpdateSecret] call. *)
Definition updateSecret_of (en : Entry) : option mfclients.Client :=
  match en with
  | Log (ClientsUpdateSecret c) _ => Some c
  | _ => None
  end.

(** Mallory holds the edit-permission on an id of her own name and nothing
    on the thing [t1], which is Alice's. *)
Definition wMallory : Sim.World :=
  Sim.with_tuples [("mallory", "edit", "thing", "mallory")]
    (Sim.mkWorld (("tok-mallory", "mallory") :: Sim.tokens Scenario.w0)
       [] (Sim.groupsTbl Scenario.w0) (Sim.clientsTbl Scenario.w0) ∅ 100%Z []).

(** The client handed to the [Save] call of the users repository, and the
    answer. *)
Definition usersSave_of (en : Entry) : option (mfclients.Client * result mfclients.Client) :=
  match en with
  | @Log X e x =>
      match e in Ev X0 return X0 -> option (mfclients.Client * result mfclients.Client) with
      | UsersSave c => fun r => Some (c, r)
      | _ => fun _ => None
      end x
  end.

(** The owner that [RegisterClient] gives to [cli] when the token resolved
    to [ownerID] ([""] when it did not resolve). *)
Definition defaultOwner (ownerID : string) (cli : mfclients.Client) : string :=
  if bool_decide (mfclients.Owner cli = "") && bool_decide (ownerID ≠ "")
  then ownerID else mfclients.Owner cli.

(** A registration with a token that resolves to nobody. *)
Definition carol : mfclients.Client :=
  mfclients.mkClient "" "Carol" [] ""
    (mfclients.mkCredentials "carol@example.com" "pw")
    [] 0%Z 0%Z "" mfclients.EnabledStatus mfclients.UserRole.

(** What the in-memory repository stores for her. *)
Definition carolSaved : mfclients.Client :=
  mfclients.mkClient "id1" "Carol" [] ""
    (mfclients.mkCredentials "carol@example.com" "#pw")
    [] 100%Z 0%Z "" mfclients.EnabledStatus mfclients.UserRole.

(** [c.Credentials.Secret] *)
Definition secretOf (c : mfclients.Client) : string :=
  mfclients.Secret (mfclients.Credentials_ c).

(** The secrets of the clients that a call hands to a repository for
    saving or for the update of the secret. *)
Definition persisted_secrets_of (en : Entry) : list string :=
  match en with
  | Log (ThingsSave cs) _ => map secretOf cs
  | Log (UsersSave c) _ | Log (ClientsUpdateSecret c) _ => [secretOf c]
  | _ => []
  end.

(** All of them along a run, in order. *)
Definition persisted_secrets (tr : list Entry) : list string :=
  flat_map persisted_secrets_of tr.

(** A call to the hasher. *)
Definition is_hasher_call (en : Entry) : bool :=
  match en with
  | Log (HasherHash _) _ | Log (HasherCompare _ _) _ => true
  | _ => false
  end.

(** The clients handed to the [Save] call of the things repository. *)
Definition thingsSave_of (en : Entry) : option (list mfclients.Client) :=
  match en with
  | Log (ThingsSave cs) _ => Some cs
  | _ => None
  end.

(** Every persisted secret is an answer of the hasher to [supplied]. *)
Definition only_hashes_persisted (supplied : string) (tr : list Entry) : Prop :=
  forall s, s ∈ persisted_secrets tr -> Log (HasherHash supplied) (Ok s) ∈ tr.

(** The calls of an update of the key of the thing [t1] by its owner. *)
Definition thingKeyUpdate : list Entry :=
  trace_of (run Sim.sim (Things.UpdateClientSecret "tok-alice" "t1" "new-key") Scenario.w0).

(** A call that hashes or writes. *)
Definition touches_secret (en : Entry) : bool :=
  is_hasher_call en || is_write en.

(** A supplied secret that is not empty is kept as it is. *)
Definition keeps_secret (cli c : mfclients.Client) : Prop :=
  secretOf cli ≠ "" -> secretOf c = secretOf cli.

(** ** Tree assembly *)

(** The ids at the top level of the response, in order. *)
Definition roots (out : groupPageRes * list groups.Group) : list string :=
  map (fun v => groups.ID (Group v)) (Groups out.1).

(** The groups and pages of the two examples of tree assembly. *)
Definition group1 : groups.Group :=
  groups.mkGroup "1" "alice" "" "one" "" [] 1%Z "1" [] 1%Z 0%Z "" mfclients.EnabledStatus.

Definition group2 : groups.Group :=
  groups.mkGroup "2" "alice" "1" "two" "" [] 2%Z "1.2" [] 2%Z 0%Z "" mfclients.EnabledStatus.

Definition group3 : groups.Group :=
  groups.mkGroup "3" "alice" "2" "three" "" [] 3%Z "1.2.3" [] 3%Z 0%Z ""
    mfclients.EnabledStatus.

Definition page123 : groups.Page := groups.mkPage 3 0 10 "" 0 "" 1 [group1; group2; group3].

Definition page2 : groups.Page := groups.mkPage 1 0 10 "" 0 "" 1 [group2].

(** One order of visit of the entries of each of the two maps. *)
Definition ord123 : list (string * groups.ptr) := map_to_list (indexGroups page123).1.

Definition ordAlone : list (string * groups.ptr) := map_to_list (indexGroups page2).1.

(** * Further models and observations *)

(** ** Further observations: the groups service *)

(** The request by which a method of the groups service asks for
    [permission] on the group [id]. *)
Definition groupReq (token permission id : string) : PolicyReq :=
  GroupsService.authorizeReq GroupsService.userType token permission
    GroupsService.groupType id.

(** A run in which the authorization on [req] did not grant: the result is
    the authorization error and the authorization is the only call that
    went to the policy engine or to a repository. *)
Definition denied_stops {W A} (req : PolicyReq) (fail : error -> A)
    (o : A * list Entry * W) : Prop :=
  forall r, Log (AuthAuthorize req) r ∈ trace_of o -> granted r = false ->
    result_of o = fail (authzError r) /\ count is_network_call (trace_of o) = 1.

(** The tuple of an [AddPolicy] or [DeletePolicy] call, and the answer. *)
Definition policyWrite_of (en : Entry) : option (PolicyReq * result bool) :=
  match en with
  | @Log X e x =>
      match e in Ev X0 return X0 -> option (PolicyReq * result bool) with
      | AuthAddPolicy req => fun r => Some (req, r)
      | AuthDeletePolicy req => fun r => Some (req, r)
      | _ => fun _ => None
      end x
  end.

Definition is_addPolicy (en : Entry) : bool :=
  match en with Log (AuthAddPolicy _) _ => true | _ => false end.

Definition is_deletePolicy (en : Entry) : bool :=
  match en with Log (AuthDeletePolicy _) _ => true | _ => false end.

(** The tuple writes [sent] of a loop over the tuples [prs] that stops at
    the first failure, and its result [res]: either every tuple was written,
    in order, and there is no error; or the writes are a prefix of [prs],
    all but the last succeeded, and the error is the last answer under the
    message [msg]. *)
Definition fail_fast (msg : string) (prs : list PolicyReq)
    (sent : list (PolicyReq * result bool)) (res : option error) : Prop :=
  match res with
  | None => map fst sent = prs /\ Forall (fun s => is_ok s.2 = true) sent
  | Some err =>
      exists before pr e,
        sent = before ++ [(pr, Err e)] /\
        Forall (fun s => is_ok s.2 = true) before /\
        (map fst before ++ [pr]) `prefix_of` prs /\
        err = ErrErrorf msg e
  end.

(** The two listings of [ListMembers]: the things attached to a group by
    the relation "group", the users that hold [permission] on it. *)
Definition thingsOfReq (groupID : string) : PolicyReq :=
  {| SubjectType := GroupsService.groupType; SubjectKind := ""; Subject := groupID;
     Relation := GroupsService.groupRelation; Permission := "";
     ObjectType := GroupsService.thingType; Object := "" |}.

Definition usersOfReq (groupID permission : string) : PolicyReq :=
  {| SubjectType := GroupsService.userType; SubjectKind := ""; Subject := "";
     Relation := ""; Permission := permission;
     ObjectType := GroupsService.groupType; Object := groupID |}.

(** A page of members that holds exactly the ids [ids], in order, all of
    type [type], as one window that starts at 0. *)
Definition page_of_all (type : string) (ids : list string) (p : groups.MembersPage) : Prop :=
  map groups.MemberID (groups.Members p) = ids /\
  Forall (fun m => groups.MemberType m = type) (groups.Members p) /\
  groups.MTotal p = N.of_nat (length ids) /\
  groups.MLimit p = N.of_nat (length ids) /\
  groups.MOffset p = 0%N.

(** [g] as [CreateGroup] and [UpdateGroup] hand it to the repository. *)
Definition groupToSave (ownerID groupID : string) (now : Time) (g : groups.Group)
  : groups.Group :=
  groups.with_CreatedAt now
    (groups.with_ID groupID
       (if decide (groups.Owner g = "") then groups.with_Owner ownerID g else g)).

Definition groupToUpdate (id : string) (now : Time) (g : groups.Group) : groups.Group :=
  groups.with_UpdatedBy id (groups.with_UpdatedAt now g).

(** The group handed to a [Save] or [Update] call of the groups repository,
    and the answer. *)
Definition groupWrite_of (en : Entry) : option (groups.Group * result groups.Group) :=
  match en with
  | @Log X e x =>
      match e in Ev X0 return X0 -> option (groups.Group * result groups.Group) with
      | GroupsSave g => fun r => Some (g, r)
      | GroupsUpdate g => fun r => Some (g, r)
      | _ => fun _ => None
      end x
  end.

(** A status that [CreateGroup] rejects. *)
Definition invalidGroupStatus (st : mfclients.Status) : Prop :=
  st ≠ mfclients.EnabledStatus /\ st ≠ mfclients.DisabledStatus.

(** A group with a status out of range, for the examples. *)
Definition oddGroup : groups.Group :=
  groups.with_Status (mfclients.OtherStatus 7) groups.zero.

(** A root group that names another owner than its creator. *)
Definition rootForCarol : groups.Group :=
  groups.mkGroup "" "carol" "" "root of carol" "" [] 0%Z "" [] 0%Z 0%Z ""
    mfclients.EnabledStatus.

(** The in-memory collaborators with a policy engine that refuses every
    tuple write. *)
Definition failingTuples : handler Sim.World := fun X e w =>
  match e in Ev X0 return X0 * Sim.World with
  | AuthAddPolicy _ => (Err (ErrNew "policy engine down"), w)
  | AuthDeletePolicy _ => (Err (ErrNew "policy engine down"), w)
  | e' => Sim.sim _ e' w
  end.

(** ** Further observations: the things service *)

(** The id of a [Remove] call to the cache. *)
Definition cacheRemove_of (en : Entry) : option string :=
  match en with
  | Log (CacheRemove id) _ => Some id
  | _ => None
  end.

(** The client that a successful [ChangeStatus] call of the clients
    repository answered. *)
Definition statusChanged_of (en : Entry) : option mfclients.Client :=
  match en with
  | Log (ClientsChangeStatus _) (Ok c) => Some c
  | _ => None
  end.

Definition is_cache_call (en : Entry) : bool :=
  match en with
  | Log (CacheID _) _ | Log (CacheSave _ _) _ | Log (CacheRemove _) _ => true
  | _ => false
  end.

(** The cache calls of a run, with their answers. *)
Definition cache_of (en : Entry) : option (string * string * option error) :=
  match en with
  | @Log X e x =>
      match e in Ev X0 return X0 -> option (string * string * option error) with
      | CacheSave key id => fun r => Some (key, id, r)
      | _ => fun _ => None
      end x
  end.

Definition cacheID_of (en : Entry) : option (string * result string) :=
  match en with
  | @Log X e x =>
      match e in Ev X0 return X0 -> option (string * result string) with
      | CacheID key => fun r => Some (key, r)
      | _ => fun _ => None
      end x
  end.

(** [cli] as the loop of [CreateThings] leaves it: a drawn id where it had
    none, a drawn key where it had no secret, the caller for owner where it
    had none, and the time of creation. *)
Definition prepared (userID : string) (cli c : mfclients.Client) : Prop :=
  exists id key now,
    c = mfclients.with_CreatedAt now
          (let c1 := if decide (mfclients.ID cli = "")
                     then mfclients.with_ID id cli else cli in
           let c2 := if decide (mfclients.Secret (mfclients.Credentials_ c1) = "")
                     then mfclients.with_Secret key c1 else c1 in
           if decide (mfclients.Owner c2 = "")
           then mfclients.with_Owner userID c2 else c2).

(** The in-memory collaborators with a cache that is out of order. *)
Definition failingCache : handler Sim.World := fun X e w =>
  match e in Ev X0 return X0 * Sim.World with
  | CacheID _ => (Err (ErrNew "cache down"), w)
  | CacheSave _ _ => (Some (ErrNew "cache down"), w)
  | CacheRemove _ => (Some (ErrNew "cache down"), w)
  | e' => Sim.sim _ e' w
  end.

(** A thing with a status out of range. *)
Definition oddThing : mfclients.Client :=
  mfclients.with_Status (mfclients.OtherStatus 9) mfclients.zero.

(** ** Further observations: the users service *)

(** The request of an [Issue] call, and the answer. *)
Definition issue_of (en : Entry) : option (IssueReq * result (option Token)) :=
  match en with
  | @Log X e x =>
      match e in Ev X0 return X0 -> option (IssueReq * result (option Token)) with
      | AuthIssue req => fun r => Some (req, r)
      | _ => fun _ => None
      end x
  end.

(** The arguments of a [Compare] call of the hasher, and the answer. *)
Definition compare_of (en : Entry) : option (string * string * option error) :=
  match en with
  | @Log X e x =>
      match e in Ev X0 return X0 -> option (string * string * option error) with
      | HasherCompare plain hashed => fun r => Some (plain, hashed, r)
      | _ => fun _ => None
      end x
  end.

(** The client handed to an [UpdateSecret] call, and the answer. *)
Definition secretUpdate_of (en : Entry)
  : option (mfclients.Client * result mfclients.Client) :=
  match en with
  | @Log X e x =>
      match e in Ev X0 return X0 -> option (mfclients.Client * result mfclients.Client) with
      | ClientsUpdateSecret c => fun r => Some (c, r)
      | _ => fun _ => None
      end x
  end.

(** The arguments of an [IsOwner] call, and the answer. *)
Definition isOwner_of (en : Entry) : option (string * string * option error) :=
  match en with
  | @Log X e x =>
      match e in Ev X0 return X0 -> option (string * string * option error) with
      | ClientsIsOwner clientID ownerID => fun r => Some (clientID, ownerID, r)
      | _ => fun _ => None
      end x
  end.

(** The request by which [IssueToken] asks for the token of [dbUser]. *)
Definition issueReqOf (dbUser : mfclients.Client) : IssueReq :=
  {| IssueId := mfclients.ID dbUser;
     IssueEmail := mfclients.Identity (mfclients.Credentials_ dbUser);
     IssueType := 0%N |}.

(** The record that [ResetSecret] hands to the repository: nothing but the
    identity, the hashed secret and the two stamps. *)
Definition resetRecord (identity hash id : string) (now : Time) : mfclients.Client :=
  mfclients.with_UpdatedBy id
    (mfclients.with_UpdatedAt now
       (mfclients.with_Credentials (mfclients.mkCredentials identity hash)
          mfclients.zero)).

(** A users service that asks for secrets of eight characters or more. *)
Definition svc8 : Users.service :=
  Users.mkService (fun s => bool_decide (8 <= String.length s)).

(** The id that a granted [Identify] call answered, of an entry. *)
Definition identified_of (en : Entry) : option string :=
  match en with
  | @Log X e x =>
      match e in Ev X0 return X0 -> option string with
      | AuthIdentify _ => fun r => match r with Ok u => Some u | Err _ => None end
      | _ => fun _ => None
      end x
  end.

(** The error that a refused [Identify] call answered. *)
Definition identifyError_of (en : Entry) : option error :=
  match en with
  | @Log X e x =>
      match e in Ev X0 return X0 -> option error with
      | AuthIdentify _ => fun r => match r with Ok _ => None | Err e => Some e end
      | _ => fun _ => None
      end x
  end.

(** The client that a [RetrieveByID] call found. *)
Definition loaded_of (en : Entry) : option mfclients.Client :=
  match en with
  | @Log X e x =>
      match e in Ev X0 return X0 -> option mfclients.Client with
      | ClientsRetrieveByID _ => fun r => match r with Ok c => Some c | Err _ => None end
      | _ => fun _ => None
      end x
  end.

(** The hash that a [Hash] call of the hasher answered. *)
Definition hashed_of (en : Entry) : option string :=
  match en with
  | @Log X e x =>
      match e in Ev X0 return X0 -> option string with
      | HasherHash _ => fun r => match r with Ok c => Some c | Err _ => None end
      | _ => fun _ => None
      end x
  end.


(** The client handed to a [ChangeStatus] call, and the answer. *)
Definition changeStatus_of (en : Entry)
  : option (mfclients.Client * result mfclients.Client) :=
  match en with
  | @Log X e x =>
      match e in Ev X0 return X0 -> option (mfclients.Client * result mfclients.Client) with
      | ClientsChangeStatus c => fun r => Some (c, r)
      | _ => fun _ => None
      end x
  end.

(** What the in-memory repository answers when alice disables herself. *)
Definition aliceDisabled : mfclients.Client :=
  mfclients.mkClient "alice" "Alice" [] ""
    (mfclients.mkCredentials "alice@example.com" "#old-secret")
    [] 5%Z 0%Z "alice" mfclients.DisabledStatus mfclients.UserRole.

(** ** Further observations: tree assembly *)

(** The address of the first group of [gs] that carries the id [k]. *)
Fixpoint firstIdx (k : string) (gs : list groups.Group) : option groups.ptr :=
  match gs with
  | [] => None
  | g :: gs' => if decide (groups.ID g = k) then Some 0 else S <$> firstIdx k gs'
  end.

(** Of the addresses [ps], those of the groups of [gs] whose parent is
    [k]. *)
Definition childrenOf (gs : list groups.Group) (ps : list groups.ptr) (k : string)
  : list groups.ptr :=
  filter (fun p => groups.Parent <$> gs !! p = Some k) ps.

(** What the third loop does to the group at an address it visits. *)
Definition withBucket (parentsMap : gmap string (list groups.ptr)) (g : groups.Group)
  : groups.Group :=
  match parentsMap !! groups.ID g with
  | Some children => groups.with_Children children g
  | None => g
  end.

(** What the fourth loop does with the group at an address it visits. *)
Definition rootView (heap : list groups.Group) (parentsMap : gmap string (list groups.ptr))
    (kp : string * groups.ptr) : option viewGroupRes :=
  match heap !! kp.2 with
  | Some group =>
      match parentsMap !! groups.Parent group with
      | Some children =>
          if decide (length children = 0) then Some (toViewGroupRes group) else None
      | None => Some (toViewGroupRes group)
      end
  | None => None
  end.

(** The ids of a page. *)
Definition pageIDs (gs : list groups.Group) : list string := map groups.ID gs.

(** A page where a group is its own parent, and one with the same id
    twice. *)
Definition selfParent : groups.Group :=
  groups.mkGroup "g" "alice" "g" "loop" "" [] 1%Z "" [] 1%Z 0%Z "" mfclients.EnabledStatus.

Definition pageLoop : groups.Page := groups.mkPage 1 0 10 "" 0 "" 1 [selfParent].

Definition group1' : groups.Group :=
  groups.mkGroup "1" "bob" "" "one again" "" [] 1%Z "1" [] 7%Z 0%Z "" mfclients.EnabledStatus.

Definition pageTwice : groups.Page :=
  groups.mkPage 3 0 10 "" 0 "" 1 [group1; group2; group1'].

Definition ordTwice : list (string * groups.ptr) := map_to_list (indexGroups pageTwice).1.

(** ** package main of the users service: the admin account *)

Module UsersMain.

Local Open Scope prog_scope.

(** Of [config], [createAdmin] reads the two fields below. *)
Record config : Type := mkConfig {
  AdminEmail : string;
  AdminPassword : string
}.

(** [svc] is the users service as [newService] wrapped it; [createAdmin]
    reaches it through [IssueToken] only, which is passed in.  The
    repository and the hasher are the collaborators of the service. *)
Definition createAdmin (c : config)
    (IssueToken : string -> string -> Prog (result jwt.Token)) : Prog (option error) :=
  r <- call IDProviderID ;;
  match r with
  | Err e => Ret (Some e)
  | Ok id =>
      r <- call (HasherHash (AdminPassword c)) ;;
      match r with
      | Err e => Ret (Some e)
      | Ok hash =>
          created <- call TimeNow ;;
          updated <- call TimeNow ;;
          let client :=
            mfclients.mkClient id "admin" [] ""
              (mfclients.mkCredentials (AdminEmail c) hash)
              [("role", "admin")] created updated ""
              mfclients.EnabledStatus mfclients.AdminRole in
          r <- call (ClientsRetrieveByIdentity
                       (mfclients.Identity (mfclients.Credentials_ client))) ;;
          match r with
          | Ok _ => Ret None
          | Err _ =>
              r <- call (UsersSave client) ;;
              match r with
              | Err e => Ret (Some e)
              | Ok _ =>
                  r <- IssueToken (AdminEmail c) (AdminPassword c) ;;
                  match r with
                  | Err e => Ret (Some e)
                  | Ok _ => Ret None
                  end
              end
          end
      end
  end.

End UsersMain.

(** The lookup of a client by identity, and its answer. *)
Definition byIdentity_of (en : Entry) : option (string * result mfclients.Client) :=
  match en with
  | @Log X e x =>
      match e in Ev X0 return X0 -> option (string * result mfclients.Client) with
      | ClientsRetrieveByIdentity email => fun r => Some (email, r)
      | _ => fun _ => None
      end x
  end.

(** The record of the admin that [createAdmin] saves. *)
Definition adminRecord (id email hash : string) (created updated : Time) : mfclients.Client :=
  mfclients.mkClient id "admin" [] "" (mfclients.mkCredentials email hash)
    [("role", "admin")] created updated "" mfclients.EnabledStatus mfclients.AdminRole.

(** A configuration whose admin is alice, and one with a new admin. *)
Definition configAlice : UsersMain.config :=
  UsersMain.mkConfig "alice@example.com" "whatever".

Definition configRoot : UsersMain.config :=
  UsersMain.mkConfig "root@example.com" "12345678".

(** ** Listing and updating clients: further collaborator methods *)

(** The methods below reach repository and auth methods that the ones
    above do not.  [EvX] adds them to [Ev]; a program over [Ev] is a
    program over [EvX] through [lift]. *)

(** *** Programs over any family of calls *)

(** [Prog], for a family of calls [E] that is not [Ev]. *)
Inductive Free (E : Type -> Type) (A : Type) : Type :=
| Pure (a : A)
| Impure {X : Type} (e : E X) (k : X -> Free E A).

Arguments Pure {E A} a.
Arguments Impure {E A X} e k.

Fixpoint fbind {E : Type -> Type} {A B : Type} (p : Free E A) (f : A -> Free E B)
  : Free E B :=
  match p with
  | Pure a => f a
  | Impure e k => Impure e (fun x => fbind (k x) f)
  end.

Definition fcall {E : Type -> Type} {X : Type} (e : E X) : Free E X := Impure e Pure.

Declare Scope free_scope.
Delimit Scope free_scope with free.
Bind Scope free_scope with Free.

Notation "x <- p ;; q" := (fbind p (fun x => q))
  (at level 100, p at next level, right associativity) : free_scope.

Notation "'try' x <- p ;; q" :=
  (fbind p (fun r => match r with Ok x => q | Err e => Pure (Err e) end))
  (at level 100, x name, p at next level, right associativity) : free_scope.

Notation "'check' p ;; q" :=
  (fbind p (fun r => match r with None => q | Some e => Pure (Err e) end))
  (at level 100, p at next level, right associativity) : free_scope.

Definition fhandler (E : Type -> Type) (W : Type) : Type :=
  forall X : Type, E X -> W -> X * W.

(** A call that was made, with its answer. *)
Inductive FEntry (E : Type -> Type) : Type :=
| FLog {X : Type} (e : E X) (x : X).

Arguments FLog {E X} e x.

Fixpoint frun {E : Type -> Type} {W A : Type} (h : fhandler E W) (p : Free E A) (w : W)
  : A * list (FEntry E) * W :=
  match p with
  | Pure a => (a, [], w)
  | Impure e k =>
      let '(x, w1) := h _ e w in
      let '(a, tr, w2) := frun h (k x) w1 in
      (a, FLog e x :: tr, w2)
  end.

Definition fresult {E W A} (o : A * list (FEntry E) * W) : A := o.1.1.
Definition ftrace {E W A} (o : A * list (FEntry E) * W) : list (FEntry E) := o.1.2.

(** *** The calls of the clients services *)

Module clientpages.

(** Modelled from the spec: the pagination window of a page; of the
    filters that a page carries, the ones that the code at hand reads or
    writes. *)
Record Page : Type := mkPage {
  Total : N;
  Offset : N;
  Limit : N;
  Owner : string;
  SharedBy : string;
  Action : string;
  Permission : string;
  IDs : list string
}.

Definition with_Owner (v : string) (pm : Page) : Page :=
  mkPage (Total pm) (Offset pm) (Limit pm) v (SharedBy pm) (Action pm)
         (Permission pm) (IDs pm).

Definition with_SharedBy (v : string) (pm : Page) : Page :=
  mkPage (Total pm) (Offset pm) (Limit pm) (Owner pm) v (Action pm)
         (Permission pm) (IDs pm).

Definition with_Action (v : string) (pm : Page) : Page :=
  mkPage (Total pm) (Offset pm) (Limit pm) (Owner pm) (SharedBy pm) v
         (Permission pm) (IDs pm).

Definition with_IDs (v : list string) (pm : Page) : Page :=
  mkPage (Total pm) (Offset pm) (Limit pm) (Owner pm) (SharedBy pm) (Action pm)
         (Permission pm) v.

(** [ClientsPage] embeds its [Page]. *)
Record ClientsPage : Type := mkClientsPage {
  CPage : Page;
  Clients : list mfclients.Client
}.

Record MembersPage : Type := mkMembersPage {
  MPage : Page;
  Members : list mfclients.Client
}.

End clientpages.

Inductive EvX : Type -> Type :=
| Base {X : Type} (e : Ev X) : EvX X
(* clients repositories of things and of users *)
| ClientsRetrieveAll (pm : clientpages.Page) : EvX (result clientpages.ClientsPage)
| ClientsMembers (groupID : string) (pm : clientpages.Page)
  : EvX (result clientpages.MembersPage)
| ClientsUpdate (c : mfclients.Client) : EvX (result mfclients.Client)
| ClientsUpdateTags (c : mfclients.Client) : EvX (result mfclients.Client)
| ClientsUpdateIdentity (c : mfclients.Client) : EvX (result mfclients.Client)
| ClientsUpdateOwner (c : mfclients.Client) : EvX (result mfclients.Client)
(* mainflux.AuthServiceClient *)
| AuthRefresh (value : string) : EvX (result (option mainflux.Token)).

Definition ProgX : Type -> Type := Free EvX.

Fixpoint lift {A : Type} (p : Prog A) : ProgX A :=
  match p with
  | Ret a => Pure a
  | Vis e k => Impure (Base e) (fun x => lift (k x))
  end.

(** ** things/service.go: listing and updating *)

Module ThingsX.

Import clientpages.
Local Open Scope free_scope.

Definition myKey := "mine".
Definition listRelationKey := "c_list".

(** [err] as it stands after a call that answered [r]. *)
Definition errOf {A} (r : result A) : option error :=
  match r with Ok _ => None | Err e => Some e end.

(** The [switch err] of [ListClients], with both of its arms. *)
Definition visibility (err : option error) (userID : string) (pm : Page) : Page :=
  match err with
  | None =>
      if bool_decide (SharedBy pm = myKey) && bool_decide (Owner pm = myKey)
      then with_Owner "" (with_SharedBy "" pm)
      else if bool_decide (SharedBy pm = myKey) && bool_decide (Owner pm ≠ myKey)
      then with_Owner "" (with_SharedBy userID pm)
      else if bool_decide (Owner pm = myKey) && bool_decide (SharedBy pm ≠ myKey)
      then with_SharedBy "" (with_Owner userID pm)
      else pm
  | Some _ =>
      let pm :=
        if bool_decide (SharedBy pm = myKey) && bool_decide (Owner pm = myKey)
        then with_Owner userID (with_SharedBy userID pm)
        else if bool_decide (SharedBy pm = myKey) && bool_decide (Owner pm ≠ myKey)
        then with_Owner "" (with_SharedBy userID pm)
        else if bool_decide (Owner pm = myKey) && bool_decide (SharedBy pm ≠ myKey)
        then with_SharedBy "" (with_Owner userID pm)
        else with_Owner userID pm in
      with_Action listRelationKey pm
  end.

Definition ListClients (token : string) (pm : Page) : ProgX (result ClientsPage) :=
  r <- lift (Things.identify token) ;;
  match r with
  | Err e => Pure (Err e)
  | Ok userID => fcall (ClientsRetrieveAll (visibility (errOf r) userID pm))
  end.

Definition UpdateClient (token : string) (cli : mfclients.Client)
  : ProgX (result mfclients.Client) :=
  try userID <- lift (Things.identify token) ;;
  check lift (Things.authorize Things.userType userID Things.editPermission
                Things.thingType (mfclients.ID cli)) ;;
  now <- fcall (Base TimeNow) ;;
  let client :=
    mfclients.mkClient (mfclients.ID cli) (mfclients.Name cli) [] ""
      (mfclients.mkCredentials "" "") (mfclients.Metadata_ cli)
      0%Z now userID mfclients.EnabledStatus mfclients.UserRole in
  fcall (ClientsUpdate client).

Definition UpdateClientTags (token : string) (cli : mfclients.Client)
  : ProgX (result mfclients.Client) :=
  try userID <- lift (Things.identify token) ;;
  check lift (Things.authorize Things.userType userID Things.editPermission
                Things.thingType (mfclients.ID cli)) ;;
  now <- fcall (Base TimeNow) ;;
  let client :=
    mfclients.mkClient (mfclients.ID cli) "" (mfclients.Tags cli) ""
      (mfclients.mkCredentials "" "") []
      0%Z now userID mfclients.EnabledStatus mfclients.UserRole in
  fcall (ClientsUpdateTags client).

Definition UpdateClientOwner (token : string) (cli : mfclients.Client)
  : ProgX (result mfclients.Client) :=
  try userID <- lift (Things.identify token) ;;
  check lift (Things.authorize Things.userType userID Things.editPermission
                Things.thingType (mfclients.ID cli)) ;;
  now <- fcall (Base TimeNow) ;;
  let client :=
    mfclients.mkClient (mfclients.ID cli) "" [] (mfclients.Owner cli)
      (mfclients.mkCredentials "" "") []
      0%Z now userID mfclients.EnabledStatus mfclients.UserRole in
  fcall (ClientsUpdateOwner client).

Definition ListClientsByGroup (token groupID : string) (pm : Page)
  : ProgX (result MembersPage) :=
  try userID <- lift (Things.identify token) ;;
  let pm := with_Owner userID pm in
  fcall (ClientsMembers groupID pm).

End ThingsX.

(** ** users/service.go: listing and updating *)

Module UsersX.

Import clientpages.
Import mainflux.
Local Open Scope free_scope.

Definition tokenKind := "token".
Definition userType := "user".
Definition groupType := "group".

Definition RefreshToken (refreshToken : string) : ProgX (result jwt.Token) :=
  try tkn <- fcall (AuthRefresh refreshToken) ;;
  Pure (Users.parseToken tkn).

Definition ListClients (token : string) (pm : Page) : ProgX (result ClientsPage) :=
  try id <- lift (Users.Identify token) ;;
  let pm := with_Owner id pm in
  try clients <- fcall (ClientsRetrieveAll pm) ;;
  Pure (Ok clients).

(** [if tokenUserID != id { if err := svc.isOwner(...); err != nil {...} }] *)
Definition ownerCheck (tokenUserID id : string) : ProgX (option error) :=
  if decide (tokenUserID ≠ id) then lift (Users.isOwner id tokenUserID) else Pure None.

Definition UpdateClient (token : string) (cli : mfclients.Client)
  : ProgX (result mfclients.Client) :=
  try tokenUserID <- lift (Users.Identify token) ;;
  check ownerCheck tokenUserID (mfclients.ID cli) ;;
  now <- fcall (Base TimeNow) ;;
  let client :=
    mfclients.mkClient (mfclients.ID cli) (mfclients.Name cli) [] ""
      (mfclients.mkCredentials "" "") (mfclients.Metadata_ cli)
      0%Z now tokenUserID mfclients.EnabledStatus mfclients.UserRole in
  fcall (ClientsUpdate client).

Definition UpdateClientTags (token : string) (cli : mfclients.Client)
  : ProgX (result mfclients.Client) :=
  try tokenUserID <- lift (Users.Identify token) ;;
  check ownerCheck tokenUserID (mfclients.ID cli) ;;
  now <- fcall (Base TimeNow) ;;
  let client :=
    mfclients.mkClient (mfclients.ID cli) "" (mfclients.Tags cli) ""
      (mfclients.mkCredentials "" "") []
      0%Z now tokenUserID mfclients.EnabledStatus mfclients.UserRole in
  fcall (ClientsUpdateTags client).

Definition UpdateClientIdentity (token clientID identity : string)
  : ProgX (result mfclients.Client) :=
  try tokenUserID <- lift (Users.Identify token) ;;
  check ownerCheck tokenUserID clientID ;;
  now <- fcall (Base TimeNow) ;;
  let cli :=
    mfclients.mkClient clientID "" [] ""
      (mfclients.mkCredentials identity "") []
      0%Z now tokenUserID mfclients.EnabledStatus mfclients.UserRole in
  fcall (ClientsUpdateIdentity cli).

Definition UpdateClientOwner (token : string) (cli : mfclients.Client)
  : ProgX (result mfclients.Client) :=
  try tokenUserID <- lift (Users.Identify token) ;;
  check ownerCheck tokenUserID (mfclients.ID cli) ;;
  now <- fcall (Base TimeNow) ;;
  let client :=
    mfclients.mkClient (mfclients.ID cli) "" [] (mfclients.Owner cli)
      (mfclients.mkCredentials "" "") []
      0%Z now tokenUserID mfclients.EnabledStatus mfclients.UserRole in
  fcall (ClientsUpdateOwner client).

Definition authorize (subjType subjKind subj perm objType obj : string)
  : ProgX (result string) :=
  r <- fcall (Base (AuthAuthorize
                      {| SubjectType := subjType; SubjectKind := subjKind;
                         Subject := subj; Relation := ""; Permission := perm;
                         ObjectType := objType; Object := obj |})) ;;
  match r with
  | Err e => Pure (Err (ErrWrap ErrAuthorization e))
  | Ok res =>
      if negb (Authorized res) then Pure (Err (ErrSentinel ErrAuthorization))
      else Pure (Ok (Id res))
  end.

Definition ListMembers (token groupID : string) (pm : Page) : ProgX (result MembersPage) :=
  try _id <- authorize userType tokenKind token (clientpages.Permission pm)
               groupType groupID ;;
  try uids <- fcall (Base (AuthListAllSubjects
                             {| SubjectType := userType; SubjectKind := "";
                                Subject := ""; Relation := "";
                                Permission := clientpages.Permission pm;
                                ObjectType := groupType; Object := groupID |})) ;;
  let pm := with_IDs uids pm in
  try cp <- fcall (ClientsRetrieveAll pm) ;;
  Pure (Ok {| MPage := CPage cp; Members := Clients cp |}).

End UsersX.

(** ** In-memory collaborators for the further methods *)

Module SimX.

Import clientpages.
Import mainflux.

(** The clients of a page: those of the owner that the page names, if it
    names one. *)
Definition listed (pm : Page) (w : Sim.World) : list mfclients.Client :=
  filter (fun c => Owner pm = "" \/ mfclients.Owner c = Owner pm) (Sim.clientsTbl w).

Definition update (f : mfclients.Client -> mfclients.Client) (c : mfclients.Client)
    (w : Sim.World) : result mfclients.Client * Sim.World :=
  match Sim.findClient w (Sim.byID (mfclients.ID c)) with
  | Some c' =>
      let c'' := mfclients.with_UpdatedBy (mfclients.UpdatedBy c)
                   (mfclients.with_UpdatedAt (mfclients.UpdatedAt c) (f c')) in
      (Ok c'', Sim.putClient c'' w)
  | None => (Sim.notFound, w)
  end.

Definition sim : fhandler EvX Sim.World := fun X e w =>
  match e in EvX X0 return X0 * Sim.World with
  | Base e => Sim.sim _ e w
  | ClientsRetrieveAll pm =>
      (Ok {| CPage := pm; Clients := listed pm w |}, w)
  | ClientsMembers groupID pm =>
      (Ok {| MPage := pm; Members := listed pm w |}, w)
  | ClientsUpdate c =>
      update (fun c' =>
                mfclients.mkClient (mfclients.ID c') (mfclients.Name c) (mfclients.Tags c')
                  (mfclients.Owner c') (mfclients.Credentials_ c') (mfclients.Metadata_ c)
                  (mfclients.CreatedAt c') (mfclients.UpdatedAt c') (mfclients.UpdatedBy c')
                  (mfclients.Status_ c') (mfclients.Role_ c')) c w
  | ClientsUpdateTags c =>
      update (fun c' =>
                mfclients.mkClient (mfclients.ID c') (mfclients.Name c') (mfclients.Tags c)
                  (mfclients.Owner c') (mfclients.Credentials_ c') (mfclients.Metadata_ c')
                  (mfclients.CreatedAt c') (mfclients.UpdatedAt c') (mfclients.UpdatedBy c')
                  (mfclients.Status_ c') (mfclients.Role_ c')) c w
  | ClientsUpdateIdentity c =>
      update (fun c' =>
                mfclients.with_Credentials
                  (mfclients.mkCredentials (mfclients.Identity (mfclients.Credentials_ c))
                     (mfclients.Secret (mfclients.Credentials_ c'))) c') c w
  | ClientsUpdateOwner c => update (mfclients.with_Owner (mfclients.Owner c)) c w
  | AuthRefresh value =>
      (Ok (Some {| Value := "access:" +:+ value;
                   Extra := {[ "refresh_token" := StringValue value ]} |}), w)
  end.

End SimX.

(** ** Further observations: listing and updating *)

(** The page handed to a [RetrieveAll] call, and the answer. *)
Definition retrieveAll_of (en : FEntry EvX)
  : option (clientpages.Page * result clientpages.ClientsPage) :=
  match en with
  | @FLog _ X e x =>
      match e in EvX X0
            return X0 -> option (clientpages.Page * result clientpages.ClientsPage) with
      | ClientsRetrieveAll pm => fun r => Some (pm, r)
      | _ => fun _ => None
      end x
  end.

(** The group and the page handed to a [Members] call, and the answer. *)
Definition members_of (en : FEntry EvX)
  : option (string * clientpages.Page * result clientpages.MembersPage) :=
  match en with
  | @FLog _ X e x =>
      match e in EvX X0
            return X0 -> option (string * clientpages.Page * result clientpages.MembersPage)
      with
      | ClientsMembers groupID pm => fun r => Some (groupID, pm, r)
      | _ => fun _ => None
      end x
  end.

(** The id that an [Identify] call answered. *)
Definition identifiedX_of (en : FEntry EvX) : option string :=
  match en with
  | @FLog _ X e x =>
      match e in EvX X0 return X0 -> option string with
      | Base e0 =>
          match e0 in Ev X1 return X1 -> option string with
          | AuthIdentify _ => fun r => match r with Ok u => Some u | Err _ => None end
          | _ => fun _ => None
          end
      | _ => fun _ => None
      end x
  end.

(** The request of an [Authorize] call, and the answer. *)
Definition authorizeX_of (en : FEntry EvX)
  : option (mainflux.PolicyReq * result mainflux.AuthorizeRes) :=
  match en with
  | @FLog _ X e x =>
      match e in EvX X0
            return X0 -> option (mainflux.PolicyReq * result mainflux.AuthorizeRes) with
      | Base e0 =>
          match e0 in Ev X1
                return X1 -> option (mainflux.PolicyReq * result mainflux.AuthorizeRes) with
          | AuthAuthorize req => fun r => Some (req, r)
          | _ => fun _ => None
          end
      | _ => fun _ => None
      end x
  end.

(** The kind of an update of a client. *)
Inductive updateKind : Type := OfRecord | OfTags | OfIdentity | OfOwner.

(** The client handed to an update call of the repository, and the
    answer. *)
Definition update_of (en : FEntry EvX)
  : option (updateKind * mfclients.Client * result mfclients.Client) :=
  match en with
  | @FLog _ X e x =>
      match e in EvX X0
            return X0 -> option (updateKind * mfclients.Client * result mfclients.Client)
      with
      | ClientsUpdate c => fun r => Some (OfRecord, c, r)
      | ClientsUpdateTags c => fun r => Some (OfTags, c, r)
      | ClientsUpdateIdentity c => fun r => Some (OfIdentity, c, r)
      | ClientsUpdateOwner c => fun r => Some (OfOwner, c, r)
      | _ => fun _ => None
      end x
  end.

(** The arguments of an [IsOwner] call, and the answer. *)
Definition isOwnerX_of (en : FEntry EvX) : option (string * string * option error) :=
  match en with
  | @FLog _ X e x =>
      match e in EvX X0 return X0 -> option (string * string * option error) with
      | Base e0 =>
          match e0 in Ev X1 return X1 -> option (string * string * option error) with
          | ClientsIsOwner clientID ownerID => fun r => Some (clientID, ownerID, r)
          | _ => fun _ => None
          end
      | _ => fun _ => None
      end x
  end.

(** A page that names no owner and asks for nothing of the caller's. *)
Definition plainPage : clientpages.Page :=
  clientpages.mkPage 0 0 10 "" "" "" "view" [].

(** Alice may also edit the thing [t1]. *)
Definition w1 : Sim.World :=
  Sim.with_tuples (("alice", "edit", "thing", "t1") :: Sim.tuples Scenario.w0) Scenario.w0.

(** The update methods of the things service, each with its kind. *)
Definition thingsUpdates (token : string) (cli : mfclients.Client)
  : list (updateKind * ProgX (result mfclients.Client)) :=
  [(OfRecord, ThingsX.UpdateClient token cli);
   (OfTags, ThingsX.UpdateClientTags token cli);
   (OfOwner, ThingsX.UpdateClientOwner token cli)].

(** The update methods of the users service, each with its kind. *)
Definition usersUpdates (token : string) (cli : mfclients.Client)
  : list (updateKind * ProgX (result mfclients.Client)) :=
  [(OfRecord, UsersX.UpdateClient token cli);
   (OfTags, UsersX.UpdateClientTags token cli);
   (OfIdentity, UsersX.UpdateClientIdentity token (mfclients.ID cli)
                  (mfclients.Identity (mfclients.Credentials_ cli)));
   (OfOwner, UsersX.UpdateClientOwner token cli)].

(** What an update of kind [k] hands to the repository for [cli]: the id,
    the fields of its kind and the two stamps. *)
Definition updateRecord (k : updateKind) (cli : mfclients.Client) (userID : string)
    (now : Time) : mfclients.Client :=
  mfclients.mkClient (mfclients.ID cli)
    (match k with OfRecord => mfclients.Name cli | _ => "" end)
    (match k with OfTags => mfclients.Tags cli | _ => [] end)
    (match k with OfOwner => mfclients.Owner cli | _ => "" end)
    (mfclients.mkCredentials
       (match k with
        | OfIdentity => mfclients.Identity (mfclients.Credentials_ cli)
        | _ => ""
        end) "")
    (match k with OfRecord => mfclients.Metadata_ cli | _ => [] end)
    0%Z now userID mfclients.EnabledStatus mfclients.UserRole.

(** The thermometer with a new name, and with a secret and a status that
    an update of the record does not look at. *)
Definition renamed : mfclients.Client :=
  mfclients.mkClient "t1" "barometer" ["x"] "bob"
    (mfclients.mkCredentials "" "stolen") [("unit", "hPa")] 0%Z 0%Z ""
    mfclients.DisabledStatus mfclients.AdminRole.

(** ** package events: the event store of a role manager *)

Module RoleEvents.

Local Open Scope free_scope.

Section Store.

(** [authn.Session], [roles.Role], [roles.RolePage] and
    [roles.MembersPage] belong to other packages; the store passes their
    values on and never looks inside. *)
Context {Session Role RolePage MembersPage : Type}.

(** The events, each with the fields that the literal of its method
    sets. *)
Inductive event : Type :=
| addRoleEvent (operationPrefix : string) (role : Role)
| removeRoleEvent (operationPrefix roleName entityID : string)
| updateRoleEvent (operationPrefix : string) (role : Role)
| retrieveRoleEvent (operationPrefix : string) (role : Role)
| retrieveAllRolesEvent (operationPrefix entityID : string) (limit offset : N)
| listAvailableActionsEvent (operationPrefix : string)
| roleAddActionsEvent (operationPrefix entityID roleName : string) (actions : list string)
| roleListActionsEvent (operationPrefix entityID roleName : string)
| roleCheckActionsExistsEvent (operationPrefix entityID roleName : string)
    (actions : list string) (isAllExists : bool)
| roleRemoveActionsEvent (operationPrefix entityID roleName : string)
    (actions : list string)
| roleRemoveAllActionsEvent (operationPrefix entityID roleName : string)
| roleAddMembersEvent (operationPrefix entityID roleName : string) (members : list string)
| roleListMembersEvent (operationPrefix entityID roleName : string) (limit offset : N)
| roleCheckMembersExistsEvent (operationPrefix entityID roleName : string)
    (members : list string)
| roleRemoveMembersEvent (operationPrefix entityID roleName : string)
    (members : list string)
| roleRemoveAllMembersEvent (operationPrefix entityID roleName : string)
| removeMemberFromAllRolesEvent (operationPrefix memberID : string).

(** The methods of [roles.RoleManager], and [Publish] of
    [events.Publisher].  A Go pair [(value, error)] is kept as a pair: the
    store returns the value next to the error. *)
Inductive Op : Type -> Type :=
| AddRole_ (session : Session) (entityID roleName : string)
    (optionalActions optionalMembers : list string) : Op (Role * option error)
| RemoveRole_ (session : Session) (entityID roleName : string) : Op (option error)
| UpdateRoleName_ (session : Session) (entityID oldRoleName newRoleName : string)
  : Op (Role * option error)
| RetrieveRole_ (session : Session) (entityID roleName : string)
  : Op (Role * option error)
| RetrieveAllRoles_ (session : Session) (entityID : string) (limit offset : N)
  : Op (RolePage * option error)
| ListAvailableActions_ (session : Session) : Op (list string * option error)
| RoleAddActions_ (session : Session) (entityID roleName : string)
    (actions : list string) : Op (list string * option error)
| RoleListActions_ (session : Session) (entityID roleName : string)
  : Op (list string * option error)
| RoleCheckActionsExists_ (session : Session) (entityID roleName : string)
    (actions : list string) : Op (bool * option error)
| RoleRemoveActions_ (session : Session) (entityID roleName : string)
    (actions : list string) : Op (option error)
| RoleRemoveAllActions_ (session : Session) (entityID roleName : string)
  : Op (option error)
| RoleAddMembers_ (session : Session) (entityID roleName : string)
    (members : list string) : Op (list string * option error)
| RoleListMembers_ (session : Session) (entityID roleName : string) (limit offset : N)
  : Op (MembersPage * option error)
| RoleCheckMembersExists_ (session : Session) (entityID roleName : string)
    (members : list string) : Op (bool * option error)
| RoleRemoveMembers_ (session : Session) (entityID roleName : string)
    (members : list string) : Op (option error)
| RoleRemoveAllMembers_ (session : Session) (entityID roleName : string)
  : Op (option error)
| RemoveMemberFromAllRoles_ (session : Session) (memberID : string) : Op (option error)
| Publish (e : event) : Op (option error).

(** Of the fields of the store, [svc] and the embedded [Publisher] are
    reached through calls. *)
Record RoleManagerEventStore : Type := mkRoleManagerEventStore {
  operationPrefix : string;
  svcName : string
}.

(** The literal sets [svcName], [svc] and [Publisher]; [operationPrefix]
    keeps its zero value. *)
Definition NewRoleManagerEventStore (svcName operationPrefix : string)
  : RoleManagerEventStore :=
  {| svcName := svcName; operationPrefix := "" |}.

(** [v, err := call; if err != nil { return v, err }; publish e;
    return v, err'] *)
Definition AddRole (rmes : RoleManagerEventStore) (session : Session)
    (entityID roleName : string) (optionalActions optionalMembers : list string)
  : Free Op (Role * option error) :=
  r <- fcall (AddRole_ session entityID roleName optionalActions optionalMembers) ;;
  let '(ro, err) := r in
  match err with
  | Some err => Pure (ro, Some err)
  | None =>
      let e := addRoleEvent (operationPrefix rmes) ro in
      err <- fcall (Publish e) ;;
      match err with
      | Some err => Pure (ro, Some err)
      | None => Pure (ro, None)
      end
  end.

Definition RemoveRole (rmes : RoleManagerEventStore) (session : Session)
    (entityID roleName : string) : Free Op (option error) :=
  err <- fcall (RemoveRole_ session entityID roleName) ;;
  match err with
  | Some err => Pure (Some err)
  | None =>
      let e := removeRoleEvent (operationPrefix rmes) roleName entityID in
      err <- fcall (Publish e) ;;
      match err with
      | Some err => Pure (Some err)
      | None => Pure None
      end
  end.

Definition UpdateRoleName (rmes : RoleManagerEventStore) (session : Session)
    (entityID oldRoleName newRoleName : string) : Free Op (Role * option error) :=
  r <- fcall (UpdateRoleName_ session entityID oldRoleName newRoleName) ;;
  let '(ro, err) := r in
  match err with
  | Some err => Pure (ro, Some err)
  | None =>
      let e := updateRoleEvent (operationPrefix rmes) ro in
      err <- fcall (Publish e) ;;
      match err with
      | Some err => Pure (ro, Some err)
      | None => Pure (ro, None)
      end
  end.

Definition RetrieveRole (rmes : RoleManagerEventStore) (session : Session)
    (entityID roleName : string) : Free Op (Role * option error) :=
  r <- fcall (RetrieveRole_ session entityID roleName) ;;
  let '(ro, err) := r in
  match err with
  | Some err => Pure (ro, Some err)
  | None =>
      let e := retrieveRoleEvent (operationPrefix rmes) ro in
      err <- fcall (Publish e) ;;
      match err with
      | Some err => Pure (ro, Some err)
      | None => Pure (ro, None)
      end
  end.

Definition RetrieveAllRoles (rmes : RoleManagerEventStore) (session : Session)
    (entityID : string) (limit offset : N) : Free Op (RolePage * option error) :=
  r <- fcall (RetrieveAllRoles_ session entityID limit offset) ;;
  let '(rp, err) := r in
  match err with
  | Some err => Pure (rp, Some err)
  | None =>
      let e := retrieveAllRolesEvent (operationPrefix rmes) entityID limit offset in
      err <- fcall (Publish e) ;;
      match err with
      | Some err => Pure (rp, Some err)
      | None => Pure (rp, None)
      end
  end.

Definition ListAvailableActions (rmes : RoleManagerEventStore) (session : Session)
  : Free Op (list string * option error) :=
  r <- fcall (ListAvailableActions_ session) ;;
  let '(actions, err) := r in
  match err with
  | Some err => Pure (actions, Some err)
  | None =>
      let e := listAvailableActionsEvent (operationPrefix rmes) in
      err <- fcall (Publish e) ;;
      match err with
      | Some err => Pure (actions, Some err)
      | None => Pure (actions, None)
      end
  end.

(** [actions, err := rmes.svc.RoleAddActions(..., actions)]: the event
    carries the actions that the service returned. *)
Definition RoleAddActions (rmes : RoleManagerEventStore) (session : Session)
    (entityID roleName : string) (actions : list string)
  : Free Op (list string * option error) :=
  r <- fcall (RoleAddActions_ session entityID roleName actions) ;;
  let '(actions, err) := r in
  match err with
  | Some err => Pure (actions, Some err)
  | None =>
      let e := roleAddActionsEvent (operationPrefix rmes) entityID roleName actions in
      err <- fcall (Publish e) ;;
      match err with
      | Some err => Pure (actions, Some err)
      | None => Pure (actions, None)
      end
  end.

Definition RoleListActions (rmes : RoleManagerEventStore) (session : Session)
    (entityID roleName : string) : Free Op (list string * option error) :=
  r <- fcall (RoleListActions_ session entityID roleName) ;;
  let '(actions, err) := r in
  match err with
  | Some err => Pure (actions, Some err)
  | None =>
      let e := roleListActionsEvent (operationPrefix rmes) entityID roleName in
      err <- fcall (Publish e) ;;
      match err with
      | Some err => Pure (actions, Some err)
      | None => Pure (actions, None)
      end
  end.

Definition RoleCheckActionsExists (rmes : RoleManagerEventStore) (session : Session)
    (entityID roleName : string) (actions : list string) : Free Op (bool * option error) :=
  r <- fcall (RoleCheckActionsExists_ session entityID roleName actions) ;;
  let '(isAllExists, err) := r in
  match err with
  | Some err => Pure (isAllExists, Some err)
  | None =>
      let e := roleCheckActionsExistsEvent (operationPrefix rmes) entityID roleName
                 actions isAllExists in
      err <- fcall (Publish e) ;;
      match err with
      | Some err => Pure (isAllExists, Some err)
      | None => Pure (isAllExists, None)
      end
  end.

Definition RoleRemoveActions (rmes : RoleManagerEventStore) (session : Session)
    (entityID roleName : string) (actions : list string) : Free Op (option error) :=
  err <- fcall (RoleRemoveActions_ session entityID roleName actions) ;;
  match err with
  | Some err => Pure (Some err)
  | None =>
      let e := roleRemoveActionsEvent (operationPrefix rmes) entityID roleName actions in
      err <- fcall (Publish e) ;;
      match err with
      | Some err => Pure (Some err)
      | None => Pure None
      end
  end.

Definition RoleRemoveAllActions (rmes : RoleManagerEventStore) (session : Session)
    (entityID roleName : string) : Free Op (option error) :=
  err <- fcall (RoleRemoveAllActions_ session entityID roleName) ;;
  match err with
  | Some err => Pure (Some err)
  | None =>
      let e := roleRemoveAllActionsEvent (operationPrefix rmes) entityID roleName in
      err <- fcall (Publish e) ;;
      match err with
      | Some err => Pure (Some err)
      | None => Pure None
      end
  end.

(** [mems, err := rmes.svc.RoleAddMembers(..., members)]: the event carries
    the members of the request. *)
Definition RoleAddMembers (rmes : RoleManagerEventStore) (session : Session)
    (entityID roleName : string) (members : list string)
  : Free Op (list string * option error) :=
  r <- fcall (RoleAddMembers_ session entityID roleName members) ;;
  let '(mems, err) := r in
  match err with
  | Some err => Pure (mems, Some err)
  | None =>
      let e := roleAddMembersEvent (operationPrefix rmes) entityID roleName members in
      err <- fcall (Publish e) ;;
      match err with
      | Some err => Pure (mems, Some err)
      | None => Pure (mems, None)
      end
  end.

Definition RoleListMembers (rmes : RoleManagerEventStore) (session : Session)
    (entityID roleName : string) (limit offset : N)
  : Free Op (MembersPage * option error) :=
  r <- fcall (RoleListMembers_ session entityID roleName limit offset) ;;
  let '(mp, err) := r in
  match err with
  | Some err => Pure (mp, Some err)
  | None =>
      let e := roleListMembersEvent (operationPrefix rmes) entityID roleName
                 limit offset in
      err <- fcall (Publish e) ;;
      match err with
      | Some err => Pure (mp, Some err)
      | None => Pure (mp, None)
      end
  end.

Definition RoleCheckMembersExists (rmes : RoleManagerEventStore) (session : Session)
    (entityID roleName : string) (members : list string) : Free Op (bool * option error) :=
  r <- fcall (RoleCheckMembersExists_ session entityID roleName members) ;;
  let '(isAllExists, err) := r in
  match err with
  | Some err => Pure (isAllExists, Some err)
  | None =>
      let e := roleCheckMembersExistsEvent (operationPrefix rmes) entityID roleName
                 members in
      err <- fcall (Publish e) ;;
      match err with
      | Some err => Pure (isAllExists, Some err)
      | None => Pure (isAllExists, None)
      end
  end.

Definition RoleRemoveMembers (rmes : RoleManagerEventStore) (session : Session)
    (entityID roleName : string) (members : list string) : Free Op (option error) :=
  err <- fcall (RoleRemoveMembers_ session entityID roleName members) ;;
  match err with
  | Some err => Pure (Some err)
  | None =>
      let e := roleRemoveMembersEvent (operationPrefix rmes) entityID roleName members in
      err <- fcall (Publish e) ;;
      match err with
      | Some err => Pure (Some err)
      | None => Pure None
      end
  end.

Definition RoleRemoveAllMembers (rmes : RoleManagerEventStore) (session : Session)
    (entityID roleName : string) : Free Op (option error) :=
  err <- fcall (RoleRemoveAllMembers_ session entityID roleName) ;;
  match err with
  | Some err => Pure (Some err)
  | None =>
      let e := roleRemoveAllMembersEvent (operationPrefix rmes) entityID roleName in
      err <- fcall (Publish e) ;;
      match err with
      | Some err => Pure (Some err)
      | None => Pure None
      end
  end.

Definition RemoveMemberFromAllRoles (rmes : RoleManagerEventStore) (session : Session)
    (memberID : string) : Free Op (option error) :=
  err <- fcall (RemoveMemberFromAllRoles_ session memberID) ;;
  match err with
  | Some err => Pure (Some err)
  | None =>
      let e := removeMemberFromAllRolesEvent (operationPrefix rmes) memberID in
      err <- fcall (Publish e) ;;
      match err with
      | Some err => Pure (Some err)
      | None => Pure None
      end
  end.

(** The store as an implementation of the interfaces it stands for: the
    method that answers each call.  [Publish] is the method of the embedded
    publisher. *)
Definition method (rmes : RoleManagerEventStore) {A : Type} (op : Op A) : Free Op A :=
  match op in Op A0 return Free Op A0 with
  | AddRole_ session entityID roleName optionalActions optionalMembers =>
      AddRole rmes session entityID roleName optionalActions optionalMembers
  | RemoveRole_ session entityID roleName => RemoveRole rmes session entityID roleName
  | UpdateRoleName_ session entityID oldRoleName newRoleName =>
      UpdateRoleName rmes session entityID oldRoleName newRoleName
  | RetrieveRole_ session entityID roleName => RetrieveRole rmes session entityID roleName
  | RetrieveAllRoles_ session entityID limit offset =>
      RetrieveAllRoles rmes session entityID limit offset
  | ListAvailableActions_ session => ListAvailableActions rmes session
  | RoleAddActions_ session entityID roleName actions =>
      RoleAddActions rmes session entityID roleName actions
  | RoleListActions_ session entityID roleName =>
      RoleListActions rmes session entityID roleName
  | RoleCheckActionsExists_ session entityID roleName actions =>
      RoleCheckActionsExists rmes session entityID roleName actions
  | RoleRemoveActions_ session entityID roleName actions =>
      RoleRemoveActions rmes session entityID roleName actions
  | RoleRemoveAllActions_ session entityID roleName =>
      RoleRemoveAllActions rmes session entityID roleName
  | RoleAddMembers_ session entityID roleName members =>
      RoleAddMembers rmes session entityID roleName members
  | RoleListMembers_ session entityID roleName limit offset =>
      RoleListMembers rmes session entityID roleName limit offset
  | RoleCheckMembersExists_ session entityID roleName members =>
      RoleCheckMembersExists rmes session entityID roleName members
  | RoleRemoveMembers_ session entityID roleName members =>
      RoleRemoveMembers rmes session entityID roleName members
  | RoleRemoveAllMembers_ session entityID roleName =>
      RoleRemoveAllMembers rmes session entityID roleName
  | RemoveMemberFromAllRoles_ session memberID =>
      RemoveMemberFromAllRoles rmes session memberID
  | Publish e => fcall (Publish e)
  end.

(** *** Observations *)

Definition prefixOf (e : event) : string :=
  match e with
  | addRoleEvent p _ | removeRoleEvent p _ _ | updateRoleEvent p _
  | retrieveRoleEvent p _ | retrieveAllRolesEvent p _ _ _
  | listAvailableActionsEvent p | roleAddActionsEvent p _ _ _
  | roleListActionsEvent p _ _ | roleCheckActionsExistsEvent p _ _ _ _
  | roleRemoveActionsEvent p _ _ _ | roleRemoveAllActionsEvent p _ _
  | roleAddMembersEvent p _ _ _ | roleListMembersEvent p _ _ _ _
  | roleCheckMembersExistsEvent p _ _ _ | roleRemoveMembersEvent p _ _ _
  | roleRemoveAllMembersEvent p _ _ | removeMemberFromAllRolesEvent p _ => p
  end.

(** A call of the role manager, as opposed to one of the publisher. *)
Definition isManagerCall {A : Type} (op : Op A) : bool :=
  match op with Publish _ => false | _ => true end.

(** The error of an answer. *)
Definition errorOf {A : Type} (op : Op A) : A -> option error :=
  match op in Op A0 return A0 -> option error with
  | AddRole_ _ _ _ _ _ | UpdateRoleName_ _ _ _ _ | RetrieveRole_ _ _ _ => snd
  | RetrieveAllRoles_ _ _ _ _ => snd
  | ListAvailableActions_ _ | RoleAddActions_ _ _ _ _ | RoleListActions_ _ _ _ => snd
  | RoleCheckActionsExists_ _ _ _ _ | RoleCheckMembersExists_ _ _ _ _ => snd
  | RoleAddMembers_ _ _ _ _ => snd
  | RoleListMembers_ _ _ _ _ _ => snd
  | RemoveRole_ _ _ _ | RoleRemoveActions_ _ _ _ _ | RoleRemoveAllActions_ _ _ _
  | RoleRemoveMembers_ _ _ _ _ | RoleRemoveAllMembers_ _ _ _
  | RemoveMemberFromAllRoles_ _ _ | Publish _ => fun err => err
  end.

(** An answer with its error replaced. *)
Definition withError {A : Type} (op : Op A) : A -> option error -> A :=
  match op in Op A0 return A0 -> option error -> A0 with
  | AddRole_ _ _ _ _ _ | UpdateRoleName_ _ _ _ _ | RetrieveRole_ _ _ _ =>
      fun a err => (a.1, err)
  | RetrieveAllRoles_ _ _ _ _ => fun a err => (a.1, err)
  | ListAvailableActions_ _ | RoleAddActions_ _ _ _ _ | RoleListActions_ _ _ _ =>
      fun a err => (a.1, err)
  | RoleCheckActionsExists_ _ _ _ _ | RoleCheckMembersExists_ _ _ _ _ =>
      fun a err => (a.1, err)
  | RoleAddMembers_ _ _ _ _ => fun a err => (a.1, err)
  | RoleListMembers_ _ _ _ _ _ => fun a err => (a.1, err)
  | RemoveRole_ _ _ _ | RoleRemoveActions_ _ _ _ _ | RoleRemoveAllActions_ _ _ _
  | RoleRemoveMembers_ _ _ _ _ | RoleRemoveAllMembers_ _ _ _
  | RemoveMemberFromAllRoles_ _ _ | Publish _ => fun _ err => err
  end.

(** The events that a run published, with the answers of the publisher. *)
Definition published (tr : list (FEntry Op)) : list (event * option error) :=
  omap (fun en =>
          match en with
          | @FLog _ X op x =>
              match op in Op X0 return X0 -> option (event * option error) with
              | Publish e => fun err => Some (e, err)
              | _ => fun _ => None
              end x
          end) tr.

End Store.

Arguments event : clear implicits.
Arguments Op : clear implicits.

End RoleEvents.

(** A role manager over strings that grants every request, and a publisher
    that answers [bus] to every event. *)
Definition rolesDemo (bus : option error)
  : fhandler (RoleEvents.Op string string (list string) (list string)) unit :=
  fun X op w =>
    match op in RoleEvents.Op _ _ _ _ X0 return X0 * unit with
    | RoleEvents.AddRole_ _ _ roleName _ _ => ((roleName, None), w)
    | RoleEvents.RemoveRole_ _ _ _ => (None, w)
    | RoleEvents.UpdateRoleName_ _ _ _ newRoleName => ((newRoleName, None), w)
    | RoleEvents.RetrieveRole_ _ _ roleName => ((roleName, None), w)
    | RoleEvents.RetrieveAllRoles_ _ _ _ _ => ((["admin"], None), w)
    | RoleEvents.ListAvailableActions_ _ => ((["read"; "write"], None), w)
    | RoleEvents.RoleAddActions_ _ _ _ actions => ((actions, None), w)
    | RoleEvents.RoleListActions_ _ _ _ => ((["read"], None), w)
    | RoleEvents.RoleCheckActionsExists_ _ _ _ _ => ((true, None), w)
    | RoleEvents.RoleRemoveActions_ _ _ _ _ => (None, w)
    | RoleEvents.RoleRemoveAllActions_ _ _ _ => (None, w)
    | RoleEvents.RoleAddMembers_ _ _ _ members => ((members, None), w)
    | RoleEvents.RoleListMembers_ _ _ _ _ _ => ((["alice"], None), w)
    | RoleEvents.RoleCheckMembersExists_ _ _ _ _ => ((true, None), w)
    | RoleEvents.RoleRemoveMembers_ _ _ _ _ => (None, w)
    | RoleEvents.RoleRemoveAllMembers_ _ _ _ => (None, w)
    | RoleEvents.RemoveMemberFromAllRoles_ _ _ => (None, w)
    | RoleEvents.Publish _ => (bus, w)
    end.

Definition busDown : error := ErrNew "event bus down".

(** * Properties *)

(** Destructs the answer of the next call that the goal waits for. *)
Ltac step h :=
  match goal with
  | |- context [h ?X ?e ?w] =>
      let r := fresh "r" in
      let w' := fresh "w" in
      destruct (h X e w) as [r w'] eqn:?; simpl
  end.

(** Runs a method to its leaves: destructs the answers of the calls and
    the tests that the method makes on them. *)
Ltac run_all h :=
  repeat (first
    [ step h
    | match goal with
      | |- context [match ?r with _ => _ end] => is_var r; destruct r; simpl
      | |- context [Authorized ?res] => is_var res; destruct res as [[] ?]; simpl
      | |- context [decide ?P] => destruct (decide P); simpl
      end ]).

(** Closes a decidable goal without variables by evaluation. *)
Ltac by_evaluation := apply (bool_decide_unpack _); vm_compute; exact I.

(** ** Member kinds *)

(** With a member kind that is not recognized, [ListMembers] still puts its
    authorization call first: one call goes out before the kind is looked
    at. *)
Lemma unsupported_kind_is_not_checked_first :
  ("devices" ∉ recognizedKinds) /\
  ~ fails_before_any_call (Err (ErrNew "invalid member_kind"))
      (run Sim.sim (GroupsService.ListMembers "tok-alice" "g1" "view" "devices") Scenario.w0).
Proof.
  split; [by_evaluation|].
  intros [_ Hcalls]. vm_compute in Hcalls. discriminate.
Qed.

(** And for a caller without the permission the error is the denial, not
    the invalid kind. *)
Example unsupported_kind_denied_caller :
  result_of (run Sim.sim (GroupsService.Assign "tok-bob" "g1" "group" "devices" ["t1"])
               Scenario.w0)
  = Some (ErrSentinel ErrAuthorization).
Proof. reflexivity. Qed.

Lemma ListMembers_unsupported W (h : handler W) w token groupID permission memberKind :
  memberKind ≠ GroupsService.thingsKind -> memberKind ≠ GroupsService.usersKind ->
  let o := run h (GroupsService.ListMembers token groupID permission memberKind) w in
  exists r,
    trace_of o = [Log (AuthAuthorize (GroupsService.authorizeReq GroupsService.userType token
                         GroupsService.viewPermission GroupsService.groupType groupID)) r]
    /\ result_of o = if granted r then Err (ErrNew "invalid member_kind")
                     else Err (authzError r).
Proof.
  intros Hthings Husers.
  unfold GroupsService.ListMembers, GroupsService.authorize. simpl.
  step h. exists r. destruct r as [[[] id]|e]; simpl; [|done..].
  by rewrite !decide_False by done.
Qed.

Lemma memberPolicies_unsupported groupID relation memberKind memberIDs :
  memberKind ∉ recognizedKinds ->
  GroupsService.memberPolicies groupID relation memberKind memberIDs = None.
Proof.
  unfold recognizedKinds. intros Hkind.
  unfold GroupsService.memberPolicies.
  rewrite !decide_False; [done|set_solver..].
Qed.

(** C1 (as the code has it): with a member kind outside things, groups and
    users, each of [ListMembers], [Assign] and [Unassign] makes exactly one
    call, the authorization of the caller on the group (view for
    [ListMembers], edit for the other two), and nothing else: no policy,
    listing or repository call.  When the call grants, the result is the
    invalid-kind error; when it does not, the result is the authorization
    error. *)
Theorem unsupported_kind_fails_after_authorize
    W (h : handler W) w token groupID permission relation memberKind memberIDs :
  memberKind ∉ recognizedKinds ->
  (let o := run h (GroupsService.ListMembers token groupID permission memberKind) w in
   exists r,
     trace_of o = [Log (AuthAuthorize (GroupsService.authorizeReq GroupsService.userType token
                          GroupsService.viewPermission GroupsService.groupType groupID)) r]
     /\ result_of o = if granted r then Err (ErrNew "invalid member_kind")
                      else Err (authzError r)) /\
  (let o := run h (GroupsService.Assign token groupID relation memberKind memberIDs) w in
   exists r,
     trace_of o = [Log (AuthAuthorize (GroupsService.authorizeReq GroupsService.userType token
                          GroupsService.editPermission GroupsService.groupType groupID)) r]
     /\ result_of o = if granted r then Some (ErrNew "invalid member kind")
                      else Some (authzError r)) /\
  (let o := run h (GroupsService.Unassign token groupID relation memberKind memberIDs) w in
   exists r,
     trace_of o = [Log (AuthAuthorize (GroupsService.authorizeReq GroupsService.userType token
                          GroupsService.editPermission GroupsService.groupType groupID)) r]
     /\ result_of o = if granted r then Some (ErrNew "invalid member kind")
                      else Some (authzError r)).
Proof.
  intros Hkind. split; [|split].
  - apply ListMembers_unsupported; unfold recognizedKinds in Hkind; set_solver.
  - unfold GroupsService.Assign, GroupsService.authorize. simpl.
    rewrite memberPolicies_unsupported by done.
    step h. exists r. by destruct r as [[[] id]|e].
  - unfold GroupsService.Unassign, GroupsService.authorize. simpl.
    rewrite memberPolicies_unsupported by done.
    step h. exists r. by destruct r as [[[] id]|e].
Qed.

Lemma unsupported_kind_fails_after_authorize_witness :
  ("devices" ∉ recognizedKinds) /\
  exists r,
    trace_of (run Sim.sim (GroupsService.Assign "tok-alice" "g1" "group" "devices" ["t1"])
                Scenario.w0)
    = [Log (AuthAuthorize (GroupsService.authorizeReq GroupsService.userType "tok-alice"
                             GroupsService.editPermission GroupsService.groupType "g1")) r].
Proof.
  assert (Hkind : "devices" ∉ recognizedKinds) by by_evaluation.
  split; [exact Hkind|].
  destruct (unsupported_kind_fails_after_authorize Sim.World Sim.sim Scenario.w0
              "tok-alice" "g1" "view" "group" "devices" ["t1"] Hkind)
    as (_ & (r & Htr & _) & _).
  exists r. exact Htr.
Defined.

(** ** Order of calls *)

Lemma guarded_preceded_by ok bad tr :
  guarded ok bad tr = true -> preceded_by ok bad tr.
Proof.
  induction tr as [|a tr IH]; intros Hg pre en post Heq Hbad.
  - by destruct pre.
  - simpl in Hg. apply andb_true_iff in Hg as [Hnb Hg].
    destruct pre as [|p pre]; simpl in Heq; simplify_eq.
    + by rewrite Hbad in Hnb.
    + apply orb_true_iff in Hg as [Hok|Hg].
      * exists p. split; [left|done].
      * destruct (IH Hg pre en post eq_refl Hbad) as (en' & Hin & Hok).
        exists en'. split; [by right|done].
Qed.

(** Goes through the entries of an explicit trace in search of the call
    that the observer [obs] recognizes. *)
Ltac entry_cases obs H :=
  repeat (apply elem_of_cons in H as [H|H];
          [apply (f_equal obs) in H; simpl in H; simplify_eq;
           try (simpl; intros; discriminate)|]);
  try (by apply elem_of_nil in H).

Ltac authorize_cases H := entry_cases authorize_of H.

(** Finds an entry in an explicit trace. *)
Ltac trace_mem := by repeat first [left | right].

Ltac solve_guarded :=
  apply guarded_preceded_by; unfold grantedOn; simpl;
  rewrite ?bool_decide_true by done; done.

(** ** Group creation under a parent *)

(** C2: in every [CreateGroup] of a group with a parent, each write (the
    saving of the record, the adding of a tuple) comes after a granted
    authorization of edit-permission on the parent; and when that
    authorization is not granted, the run has no write at all and returns
    [errParentUnAuthz] wrapped around the denial, which differs from the
    denial itself. *)
Theorem CreateGroup_parent_authorized_before_writes W (h : handler W) w token g :
  groups.Parent g ≠ "" ->
  let o := run h (GroupsService.CreateGroup token g) w in
  preceded_by (grantedOn (parentReq token g)) is_write (trace_of o) /\
  (forall r, Log (AuthAuthorize (parentReq token g)) r ∈ trace_of o -> granted r = false ->
     Forall (fun en => is_write en = false) (trace_of o) /\
     result_of o = Err (ErrWrap GroupsService.errParentUnAuthz (authzError r)) /\
     result_of o ≠ Err (authzError r)).
Proof.
  intros Hparent.
  unfold GroupsService.CreateGroup, GroupsService.identify, GroupsService.authorize,
    on_err, call. simpl.
  step h. destruct r as [ownerID|e]; simpl.
  2:{ split; [solve_guarded|]. intros r Hin. authorize_cases Hin. }
  step h. destruct r as [groupID|e]; simpl.
  2:{ split; [solve_guarded|]. intros r Hin. authorize_cases Hin. }
  destruct (_ && _); simpl.
  { split; [solve_guarded|]. intros r Hin. authorize_cases Hin. }
  step h.
  assert (Hp : forall (b : {groups.Owner g = ""} + {groups.Owner g ≠ ""}) o,
            groups.Parent (if b then groups.with_Owner o g else g) = groups.Parent g).
  { intros. by destruct b. }
  rewrite !Hp. rewrite decide_True by done. simpl.
  step h. fold (parentReq token g) in *.
  destruct r0 as [[[] id]|e]; simpl.
  - step h. destruct r0 as [g'|e]; simpl.
    2:{ split; [solve_guarded|]. intros r' Hin. authorize_cases Hin. }
    step h. destruct r0 as [?|e]; simpl.
    2:{ split; [solve_guarded|]. intros r' Hin. authorize_cases Hin. }
    destruct (decide (groups.Parent g' ≠ "")); simpl.
    2:{ split; [solve_guarded|]. intros r' Hin. authorize_cases Hin. }
    step h. destruct r0; simpl.
    all: split; [solve_guarded|]; intros r' Hin; authorize_cases Hin.
  - split; [solve_guarded|]. intros r' Hin. authorize_cases Hin.
    intros _. repeat split; try done. repeat constructor.
  - split; [solve_guarded|]. intros r' Hin. authorize_cases Hin.
    intros _. repeat split; try done. repeat constructor.
Qed.

Lemma CreateGroup_parent_authorized_before_writes_witness :
  groups.Parent underG1 ≠ "" /\
  result_of (run Sim.sim (GroupsService.CreateGroup "tok-bob" underG1) Scenario.w0)
  = Err (ErrWrap GroupsService.errParentUnAuthz (ErrSentinel ErrAuthorization)).
Proof.
  assert (Hparent : groups.Parent underG1 ≠ "") by by_evaluation.
  split; [exact Hparent|].
  destruct (CreateGroup_parent_authorized_before_writes Sim.World Sim.sim Scenario.w0
              "tok-bob" underG1 Hparent) as [_ Hdenied].
  destruct (Hdenied (Ok {| Authorized := false; Id := "bob" |})) as (_ & Hres & _).
  - vm_compute. do 3 right. left.
  - reflexivity.
  - exact Hres.
Defined.

(** The same request by Alice, who may edit [g1]: the record is saved and
    both tuples are written, after the authorization. *)
Example CreateGroup_under_parent_by_editor :
  let o := run Sim.sim (GroupsService.CreateGroup "tok-alice" underG1) Scenario.w0 in
  is_ok (result_of o) = true /\
  map is_write (trace_of o) = [false; false; false; false; true; true; true] /\
  map (grantedOn (parentReq "tok-alice" underG1)) (trace_of o)
  = [false; false; false; true; false; false; false].
Proof. vm_compute. done. Qed.

(** ** Candidate groups of [ListGroups] *)

Lemma intersectIDs_spec cids allowed x :
  x ∈ GroupsService.intersectIDs cids allowed <-> x ∈ allowed /\ x ∈ cids.
Proof.
  unfold GroupsService.intersectIDs.
  rewrite list_elem_of_In, in_flat_map. split.
  - intros (cid & Hcid & Hx).
    apply list_elem_of_In, list_elem_of_filter in Hx as [-> Hx].
    split; [done|by apply list_elem_of_In].
  - intros [Ha Hc]. exists x. split; [by apply list_elem_of_In|].
    by apply list_elem_of_In, list_elem_of_filter.
Qed.


Example ListGroups_things_ABC_BCD :
  omap retrieveByIDs_of
    (trace_of (run Sim.sim (GroupsService.ListGroups "tok-alice" "things" "T" page0) wABC))
  = [(page0, ["B"; "C"])].
Proof. reflexivity. Qed.

Example ListGroups_users_ABC :
  omap retrieveByIDs_of
    (trace_of (run Sim.sim (GroupsService.ListGroups "tok-alice" "users" "T" page0) wABC))
  = [(page0, ["A"; "B"; "C"])].
Proof. reflexivity. Qed.


(** ** Status transitions *)

Ltac loaded_cases Hin Hl :=
  repeat (apply elem_of_cons in Hin as [->|Hin]; [simpl in Hl; simplify_eq|]);
  try (by apply elem_of_nil in Hin).

(** C5: in every status change of a group, a thing or a user, when the
    stored record, as loaded, already has the requested status, the
    operation returns [ErrStatusAlreadyAssigned] and the run has no
    [ChangeStatus] call.  The shared helpers and the group operations
    return the error itself, the client operations return it wrapped in
    [ErrEnableClient] or [ErrDisableClient]. *)
Theorem no_op_status_change_rejected W (h : handler W) w token id group client :
  no_op_rejected (groups.Status_ group) (Err conflict)
    (run h (GroupsService.changeGroupStatus token group) w) /\
  no_op_rejected mfclients.EnabledStatus (Err conflict)
    (run h (GroupsService.EnableGroup token id) w) /\
  no_op_rejected mfclients.DisabledStatus (Err conflict)
    (run h (GroupsService.DisableGroup token id) w) /\
  no_op_rejected (mfclients.Status_ client) (Err conflict)
    (run h (Things.changeClientStatus token client) w) /\
  no_op_rejected mfclients.EnabledStatus (Err (ErrWrap ErrEnableClient conflict))
    (run h (Things.EnableClient token id) w) /\
  no_op_rejected mfclients.DisabledStatus
    (mfclients.zero, Some (ErrWrap ErrDisableClient conflict))
    (run h (Things.DisableClient token id) w) /\
  no_op_rejected (mfclients.Status_ client) (Err conflict)
    (run h (Users.changeClientStatus token client) w) /\
  no_op_rejected mfclients.EnabledStatus (Err (ErrWrap ErrEnableClient conflict))
    (run h (Users.EnableClient token id) w) /\
  no_op_rejected mfclients.DisabledStatus (Err (ErrWrap ErrDisableClient conflict))
    (run h (Users.DisableClient token id) w).
Proof.
  unfold no_op_rejected, conflict.
  unfold GroupsService.EnableGroup, GroupsService.DisableGroup,
    GroupsService.changeGroupStatus, GroupsService.authorize.
  unfold Things.EnableClient, Things.DisableClient, Things.changeClientStatus,
    Things.identify, Things.authorize.
  unfold Users.EnableClient, Users.DisableClient, Users.changeClientStatus,
    Users.Identify, Users.isOwner, on_err, call.
  simpl.
  repeat apply conj; try (intros en; run_all h; intros Hin Hl; loaded_cases Hin Hl).
  all: first
    [ solve [split; [done|repeat constructor]]
    | solve [match goal with
             | |- context [Log (GroupsRetrieveByID ?i) (Ok ?a)] =>
                 exists (Log (GroupsRetrieveByID i) (Ok a)), (groups.Status_ a)
             | |- context [Log (ClientsRetrieveByID ?i) (Ok ?a)] =>
                 exists (Log (ClientsRetrieveByID i) (Ok a)), (mfclients.Status_ a)
             end; split; [trace_mem|split; [reflexivity|done]]] ].
Qed.

Lemma no_op_status_change_rejected_witness :
  result_of (run Sim.sim (GroupsService.EnableGroup "tok-alice" "g1") Scenario.w0)
  = Err conflict /\
  Forall (fun en => is_change_status en = false)
    (trace_of (run Sim.sim (GroupsService.EnableGroup "tok-alice" "g1") Scenario.w0)).
Proof.
  destruct (no_op_status_change_rejected Sim.World Sim.sim Scenario.w0
              "tok-alice" "g1" groups.zero mfclients.zero)
    as (_ & [Hsame _] & _).
  apply (Hsame (Log (GroupsRetrieveByID "g1")
                  (Ok (groups.mkGroup "g1" "alice" "" "root" "" [] 0%Z "" [] 10%Z 0%Z ""
                         mfclients.EnabledStatus)))).
  - vm_compute. trace_mem.
  - reflexivity.
Defined.

(** Disabling, on the same stores, goes through; enabling a thing or a
    user that is enabled is the wrapped conflict. *)
Example DisableGroup_then_changes :
  map is_change_status
    (trace_of (run Sim.sim (GroupsService.DisableGroup "tok-alice" "g1") Scenario.w0))
  = [false; false; false; true].
Proof. reflexivity. Qed.

Example EnableClient_thing_enabled :
  result_of (run Sim.sim (Things.EnableClient "tok-alice" "t1") Scenario.w0)
  = Err (ErrWrap ErrEnableClient conflict).
Proof. reflexivity. Qed.

Example EnableClient_user_enabled :
  result_of (run Sim.sim (Users.EnableClient "tok-alice" "alice") Scenario.w0)
  = Err (ErrWrap ErrEnableClient conflict).
Proof. reflexivity. Qed.

(** ** The identity cache *)

(** C7: for a key that the cache does not hold and that storage resolves
    to [client], the first [Identify] looks the key up in the cache, asks
    storage once, writes the pair to the cache once and returns the id of
    the client; the second [Identify] of the same key asks the cache only
    and returns the same id. *)
Theorem Identify_fills_cache_once W (h : handler W) c w key client w' :
  c !! key = None ->
  h _ (ClientsRetrieveBySecret key) w = (Ok client, w') ->
  let o1 := run (withCache h) (Things.Identify key) (c, w) in
  let o2 := run (withCache h) (Things.Identify key) (world_of o1) in
  result_of o1 = Ok (mfclients.ID client) /\
  trace_of o1 = [Log (CacheID key) (Err (ErrSentinel ErrNotFound));
                 Log (ClientsRetrieveBySecret key) (Ok client);
                 Log (CacheSave key (mfclients.ID client)) None] /\
  count is_storage_lookup (trace_of o1) = 1 /\
  count is_cache_write (trace_of o1) = 1 /\
  result_of o2 = Ok (mfclients.ID client) /\
  trace_of o2 = [Log (CacheID key) (Ok (mfclients.ID client))] /\
  count is_storage_lookup (trace_of o2) = 0.
Proof.
  intros Hmiss Hstore. unfold Things.Identify, call. simpl.
  rewrite Hmiss. simpl. rewrite Hstore. simpl.
  rewrite lookup_insert_eq. simpl. done.
Qed.

(** When storage does not know the key, the first call still makes one
    lookup, writes nothing to the cache and returns the error. *)
Lemma Identify_unknown_key W (h : handler W) c w key e w' :
  c !! key = None ->
  h _ (ClientsRetrieveBySecret key) w = (Err e, w') ->
  let o := run (withCache h) (Things.Identify key) (c, w) in
  result_of o = Err e /\
  count is_storage_lookup (trace_of o) = 1 /\
  count is_cache_write (trace_of o) = 0.
Proof.
  intros Hmiss Hstore. unfold Things.Identify, call. simpl.
  rewrite Hmiss. simpl. rewrite Hstore. simpl. done.
Qed.

Lemma Identify_fills_cache_once_witness :
  result_of firstIdentify = Ok "t1" /\
  count is_storage_lookup (trace_of firstIdentify) = 1 /\
  count is_cache_write (trace_of firstIdentify) = 1 /\
  result_of secondIdentify = Ok "t1" /\
  count is_storage_lookup (trace_of secondIdentify) = 0.
Proof.
  unfold secondIdentify, firstIdentify.
  destruct (Identify_fills_cache_once Sim.World Sim.sim ∅ Scenario.w0 "key-t1"
              (mfclients.mkClient "t1" "thermometer" [] "alice"
                 (mfclients.mkCredentials "" "key-t1")
                 [] 6%Z 0%Z "" mfclients.EnabledStatus mfclients.UserRole)
              Scenario.w0)
    as (H1 & _ & H2 & H3 & H4 & _ & H5).
  - reflexivity.
  - reflexivity.
  - repeat split; assumption.
Defined.

(** The same two calls against the cache of the in-memory collaborators. *)
Example Identify_twice :
  let o1 := run Sim.sim (Things.Identify "key-t1") Scenario.w0 in
  let o2 := run Sim.sim (Things.Identify "key-t1") (world_of o1) in
  map is_storage_lookup (trace_of o1) = [false; true; false] /\
  map is_cache_write (trace_of o1) = [false; false; true] /\
  map is_storage_lookup (trace_of o2) = [false] /\
  result_of o1 = Ok "t1" /\ result_of o2 = Ok "t1".
Proof. vm_compute. done. Qed.

(** ** Secret update of a thing: the target of the authorization *)



(** With that, her call goes through and the key of [t1] is replaced. *)
Example UpdateClientSecret_of_another_owner :
  let o := run Sim.sim (Things.UpdateClientSecret "tok-mallory" "t1" "stolen") wMallory in
  is_ok (result_of o) = true /\
  omap (fun en => mfclients.ID <$> updateSecret_of en) (trace_of o) = ["t1"] /\
  omap (fun en => (fun p => Object p.1) <$> authorize_of en) (trace_of o) = ["mallory"].
Proof. vm_compute. done. Qed.

(** ** Views of a user *)

(** C10: a client that [ViewClient] or [ViewProfile] of the users service
    returns has the empty string for secret; it is the record that the
    repository brought back, with that one field blanked. *)
Theorem views_blank_the_secret W (h : handler W) w token id client :
  (result_of (run h (Users.ViewClient token id) w) = Ok client ->
   mfclients.Secret (mfclients.Credentials_ client) = "" /\
   exists stored,
     Log (ClientsRetrieveByID id) (Ok stored)
       ∈ trace_of (run h (Users.ViewClient token id) w) /\
     client = mfclients.with_Secret "" stored) /\
  (result_of (run h (Users.ViewProfile token) w) = Ok client ->
   mfclients.Secret (mfclients.Credentials_ client) = "" /\
   exists caller stored,
     Log (ClientsRetrieveByID caller) (Ok stored)
       ∈ trace_of (run h (Users.ViewProfile token) w) /\
     client = mfclients.with_Secret "" stored).
Proof.
  unfold Users.ViewClient, Users.ViewProfile, Users.Identify, Users.isOwner, call. simpl.
  split; run_all h; intros Hres; cbv [result_of] in Hres; simpl in Hres; simplify_eq.
  all: split; [done|]; repeat eexists; trace_mem.
Qed.

Lemma views_blank_the_secret_witness :
  mfclients.Secret (mfclients.Credentials_
    (mfclients.mkClient "alice" "Alice" [] ""
       (mfclients.mkCredentials "alice@example.com" "")
       [] 5%Z 0%Z "" mfclients.EnabledStatus mfclients.UserRole)) = "" /\
  Sim.findClient Scenario.w0 (Sim.byID "alice")
  = Some (mfclients.mkClient "alice" "Alice" [] ""
            (mfclients.mkCredentials "alice@example.com" "#old-secret")
            [] 5%Z 0%Z "" mfclients.EnabledStatus mfclients.UserRole).
Proof.
  split; [|reflexivity].
  destruct (views_blank_the_secret Sim.World Sim.sim Scenario.w0 "tok-alice" "alice"
              (mfclients.mkClient "alice" "Alice" [] ""
                 (mfclients.mkCredentials "alice@example.com" "")
                 [] 5%Z 0%Z "" mfclients.EnabledStatus mfclients.UserRole))
    as [_ Hprofile].
  destruct Hprofile as [Hsecret _]; [reflexivity|exact Hsecret].
Defined.

(** ** Registration of a user *)

Lemma defaultOwner_unresolved e cli :
  defaultOwner (Users.idOf (Err e)) cli = mfclients.Owner cli.
Proof. unfold defaultOwner. simpl. by destruct (bool_decide _). Qed.

(** C9: whatever the identification of the token answers, [RegisterClient]
    goes on to the id provider.  The client that reaches the repository is
    [cli] with a fresh id, the hashed secret, the creation time and, for
    owner, [defaultOwner]: the resolved identity when [cli] has no owner
    and an identity was resolved, the owner of [cli] otherwise.  Every
    error that the method returns comes from a later step (id provider,
    missing secret, hasher, status, role, repository); the error of the
    identification is dropped. *)
Theorem RegisterClient_proceeds_without_identity W (h : handler W) w token cli :
  let o := run h (Users.RegisterClient token cli) w in
  exists r1 r2 tr,
    trace_of o = Log (AuthIdentify token) r1 :: Log IDProviderID r2 :: tr /\
    (forall c r, Log (UsersSave c) r ∈ trace_of o ->
       result_of o = r /\
       mfclients.Owner c = defaultOwner (Users.idOf r1) cli /\
       exists clientID hash now,
         c = mfclients.with_CreatedAt now
               (mfclients.with_ID clientID
                  (mfclients.with_Secret hash
                     (mfclients.with_Owner (defaultOwner (Users.idOf r1) cli) cli)))) /\
    (forall e, result_of o = Err e ->
       r2 = Err e \/
       e = ErrSentinel ErrMissingSecret \/
       (exists eh,
          Log (HasherHash (mfclients.Secret (mfclients.Credentials_ cli))) (Err eh)
            ∈ trace_of o /\ e = ErrWrap ErrMalformedEntity eh) \/
       e = ErrSentinel ErrInvalidStatus \/
       e = ErrSentinel ErrInvalidRole \/
       (exists c, Log (UsersSave c) (Err e) ∈ trace_of o)).
Proof.
  unfold Users.RegisterClient, Users.Identify, on_err, call. simpl.
  step h.
  assert (Hs : forall (b : bool) o, mfclients.Secret (mfclients.Credentials_
             (if b then mfclients.with_Owner o cli else cli))
           = mfclients.Secret (mfclients.Credentials_ cli)) by (by intros []).
  assert (Hst : forall (b : bool) o, mfclients.Status_
             (if b then mfclients.with_Owner o cli else cli)
           = mfclients.Status_ cli) by (by intros []).
  assert (Hr : forall (b : bool) o, mfclients.Role_
             (if b then mfclients.with_Owner o cli else cli)
           = mfclients.Role_ cli) by (by intros []).
  destruct r as [ownerID|e1]; simpl; step h; destruct r as [clientID|e2]; simpl.
  all: rewrite ?Hs, ?Hst, ?Hr.
  all: try (eexists _, _, _; split; [reflexivity|]; split;
         [intros c r' Hin; entry_cases usersSave_of Hin
         |intros e' He; cbv [result_of] in He; simpl in He; simplify_eq; by left]).
  all: destruct (decide (mfclients.Secret (mfclients.Credentials_ cli) = "")); simpl.
  all: try (eexists _, _, _; split; [reflexivity|]; split;
         [intros c r' Hin; entry_cases usersSave_of Hin
         |intros e' He; cbv [result_of] in He; simpl in He; simplify_eq; by (right; left)]).
  all: step h; destruct r as [hash|eh]; simpl.
  all: try (eexists _, _, _; split; [reflexivity|]; split;
         [intros c r' Hin; entry_cases usersSave_of Hin
         |intros e' He; cbv [result_of] in He; simpl in He; simplify_eq;
          right; right; left; eexists; split; [trace_mem|done]]).
  all: destruct (bool_decide (mfclients.Status_ cli ≠ mfclients.DisabledStatus)
                 && bool_decide (mfclients.Status_ cli ≠ mfclients.EnabledStatus)); simpl.
  all: try (eexists _, _, _; split; [reflexivity|]; split;
         [intros c r' Hin; entry_cases usersSave_of Hin
         |intros e' He; cbv [result_of] in He; simpl in He; simplify_eq;
          by (do 3 right; left)]).
  all: destruct (bool_decide (mfclients.Role_ cli ≠ mfclients.UserRole)
                 && bool_decide (mfclients.Role_ cli ≠ mfclients.AdminRole)); simpl.
  all: try (eexists _, _, _; split; [reflexivity|]; split;
         [intros c r' Hin; entry_cases usersSave_of Hin
         |intros e' He; cbv [result_of] in He; simpl in He; simplify_eq;
          by (do 4 right; left)]).
  all: step h; step h; destruct r0 as [saved|es]; simpl.
  all: eexists _, _, _; (split; [reflexivity|]); split;
         [intros c r' Hin; entry_cases usersSave_of Hin; (split; [done|]);
          unfold defaultOwner; simpl;
          (split; [|eexists _, _, _]);
          repeat match goal with
                 | |- context [bool_decide ?P] => destruct (bool_decide P)
                 end; simpl; try done; by destruct cli
         |intros e' He; cbv [result_of] in He; simpl in He; simplify_eq;
          do 5 right; eexists; trace_mem].
Qed.

Lemma RegisterClient_proceeds_without_identity_witness :
  result_of (run Sim.sim (Users.Identify "no-such-token") Scenario.w0)
  = Err (ErrSentinel ErrAuthentication) /\
  result_of (run Sim.sim (Users.RegisterClient "no-such-token" carol) Scenario.w0)
  = Ok carolSaved.
Proof.
  split; [reflexivity|].
  destruct (RegisterClient_proceeds_without_identity Sim.World Sim.sim Scenario.w0
              "no-such-token" carol) as (r1 & r2 & tr & _ & Hsave & _).
  destruct (Hsave carolSaved (Ok carolSaved)) as [Hres _].
  - vm_compute. trace_mem.
  - exact Hres.
Defined.

(** With a token that resolves, the owner is defaulted to the caller. *)
Example RegisterClient_defaults_owner :
  mfclients.Owner <$> omap (fun en => fst <$> usersSave_of en)
    (trace_of (run Sim.sim (Users.RegisterClient "tok-alice" carol) Scenario.w0))
  = ["alice"].
Proof. reflexivity. Qed.

(** ** Secrets that reach the repositories *)

(** The things service has no hasher: the key given to [UpdateClientSecret]
    goes to the repository as it is. *)
Lemma thing_key_persisted_unhashed :
  persisted_secrets thingKeyUpdate = ["new-key"] /\
  ~ only_hashes_persisted "new-key" thingKeyUpdate.
Proof.
  unfold thingKeyUpdate. split; [reflexivity|].
  intros Hall. specialize (Hall "new-key").
  vm_compute in Hall.
  assert (Hin : "new-key" ∈ ["new-key"]) by left.
  apply Hall in Hin.
  entry_cases (fun en => match en with
                         | Log (HasherHash p) _ => Some p
                         | _ => None
                         end) Hin.
Qed.

Ltac secret_cases Hs :=
  unfold persisted_secrets in Hs; cbv [trace_of] in Hs; simpl in Hs;
  repeat (apply elem_of_cons in Hs as [->|Hs]);
  try (by apply elem_of_nil in Hs).

Lemma RegisterClient_persists_hash W (h : handler W) w token cli :
  only_hashes_persisted (secretOf cli)
    (trace_of (run h (Users.RegisterClient token cli) w)).
Proof.
  unfold only_hashes_persisted, secretOf, Users.RegisterClient, Users.Identify,
    on_err, call. simpl.
  intros s.
  assert (Hs : forall (b : bool) o, mfclients.Secret (mfclients.Credentials_
             (if b then mfclients.with_Owner o cli else cli))
           = mfclients.Secret (mfclients.Credentials_ cli)) by (by intros []).
  assert (Hst : forall (b : bool) o, mfclients.Status_
             (if b then mfclients.with_Owner o cli else cli)
           = mfclients.Status_ cli) by (by intros []).
  assert (Hr : forall (b : bool) o, mfclients.Role_
             (if b then mfclients.with_Owner o cli else cli)
           = mfclients.Role_ cli) by (by intros []).
  step h. destruct r; simpl; step h; rewrite ?Hs, ?Hst, ?Hr.
  all: destruct r; simpl; [|intros Hin; secret_cases Hin].
  all: destruct (decide _); simpl; [intros Hin; secret_cases Hin|].
  all: step h; destruct r; simpl; [|intros Hin; secret_cases Hin].
  all: destruct (bool_decide (mfclients.Status_ cli ≠ mfclients.DisabledStatus)
                 && bool_decide (mfclients.Status_ cli ≠ mfclients.EnabledStatus));
       simpl; [intros Hin; secret_cases Hin|].
  all: destruct (bool_decide (mfclients.Role_ cli ≠ mfclients.UserRole)
                 && bool_decide (mfclients.Role_ cli ≠ mfclients.AdminRole));
       simpl; [intros Hin; secret_cases Hin|].
  all: step h; step h; destruct r0; simpl; intros Hin; secret_cases Hin; trace_mem.
Qed.

Lemma ResetSecret_persists_hash W (h : handler W) w svc token secret :
  only_hashes_persisted secret (trace_of (run h (Users.ResetSecret svc token secret) w)).
Proof.
  unfold only_hashes_persisted, Users.ResetSecret, Users.Identify, call. simpl.
  intros s. run_all h; try destruct (Users.passRegex svc secret); simpl; run_all h;
    intros Hin; secret_cases Hin; trace_mem.
Qed.

Lemma UpdateClientSecret_persists_hash W (h : handler W) w svc token old new :
  only_hashes_persisted new
    (trace_of (run h (Users.UpdateClientSecret svc token old new) w)).
Proof.
  unfold only_hashes_persisted, Users.UpdateClientSecret, Users.IssueToken, Users.Identify,
    on_err, call. simpl.
  intros s. run_all h; try destruct (Users.passRegex svc new); simpl; run_all h;
    try destruct (Users.parseToken _); simpl; run_all h;
    intros Hin; secret_cases Hin; trace_mem.
Qed.

Lemma run_bind {W A B} (h : handler W) (p : Prog A) (f : A -> Prog B) w :
  run h (bind p f) w =
  let '(a, tr1, w1) := run h p w in
  let '(b, tr2, w2) := run h (f a) w1 in
  (b, tr1 ++ tr2, w2).
Proof.
  revert w. induction p as [a|X e k IH]; intros w; simpl.
  - by destruct (run h (f a) w) as [[b tr] w'].
  - destruct (h X e w) as [x w1]. rewrite IH.
    destruct (run h (k x) w1) as [[a tr1] w2].
    by destruct (run h (f a) w2) as [[b tr2] w3].
Qed.

Lemma createThingsLoop_keeps_secrets W (h : handler W) userID clis :
  forall acc w,
    let o := run h (Things.createThingsLoop userID clis acc) w in
    Forall (fun en => touches_secret en = false) (trace_of o) /\
    forall clients, result_of o = Ok clients ->
      exists new, clients = acc ++ new /\ Forall2 keeps_secret clis new.
Proof.
  induction clis as [|cli rest IH]; intros acc w; simpl.
  - split; [constructor|]. intros clients [= <-]. exists []. by rewrite app_nil_r.
  - unfold call. simpl.
    run_all h;
      try (split; [repeat constructor|]; intros clients Hres; discriminate);
      (destruct (Things.invalidStatus _); simpl;
       [split; [repeat constructor|]; intros clients Hres; discriminate|]);
      step h;
      match goal with
      | |- context [run h (Things.createThingsLoop _ _ ?acc') ?w'] =>
          specialize (IH acc' w');
          destruct (run h (Things.createThingsLoop userID rest acc') w')
            as [[res tr] w''];
          cbv [trace_of result_of] in IH |- *; simpl in IH |- *;
          destruct IH as [IHtr IHres]
      end;
      (split; [repeat constructor; done|]);
      intros clients ->; destruct (IHres clients eq_refl) as (new & -> & Hnew);
      eexists (_ :: new); (split; [by rewrite <- app_assoc|]);
      (constructor; [|done]);
      unfold keeps_secret, secretOf; simpl; intros Hne; done.
Qed.

Lemma CreateThings_keeps_secrets W (h : handler W) w token clis :
  let tr := trace_of (run h (Things.CreateThings token clis) w) in
  Forall (fun en => is_hasher_call en = false) tr /\
  forall cs r, Log (ThingsSave cs) r ∈ tr -> Forall2 keeps_secret clis cs.
Proof.
  unfold Things.CreateThings, call. simpl.
  step h. destruct r as [userID|e]; simpl.
  2:{ split; [repeat constructor|]. intros cs r Hin. entry_cases thingsSave_of Hin. }
  rewrite run_bind.
  pose proof (createThingsLoop_keeps_secrets W h userID clis [] w0) as [Hloop Hres].
  destruct (run h (Things.createThingsLoop userID clis []) w0) as [[res tr] w1].
  cbv [trace_of result_of] in Hloop, Hres |- *. simpl in Hloop, Hres |- *.
  assert (Hquiet : forall en, en ∈ tr -> is_hasher_call en = false /\ is_write en = false).
  { intros en Hen. rewrite Forall_forall in Hloop. specialize (Hloop en Hen).
    unfold touches_secret in Hloop. by apply orb_false_iff in Hloop. }
  destruct res as [clients|e]; simpl.
  - step h. split.
    + constructor; [done|]. apply Forall_app. split; [|repeat constructor].
      apply Forall_forall. intros en Hen. by apply Hquiet.
    + intros cs r' Hin.
      apply elem_of_cons in Hin as [Hin|Hin];
        [apply (f_equal thingsSave_of) in Hin; discriminate|].
      apply elem_of_app in Hin as [Hin|Hin].
      * apply Hquiet in Hin as [_ Hw]. discriminate.
      * entry_cases thingsSave_of Hin.
        destruct (Hres _ eq_refl) as (new & Heq & Hnew). simpl in Heq. by subst.
  - split.
    + constructor; [done|]. rewrite app_nil_r.
      apply Forall_forall. intros en Hen. by apply Hquiet.
    + intros cs r' Hin. rewrite app_nil_r in Hin.
      apply elem_of_cons in Hin as [Hin|Hin];
        [apply (f_equal thingsSave_of) in Hin; discriminate|].
      apply Hquiet in Hin as [_ Hw]. discriminate.
Qed.

(** C3 (as the code has it): in the users service, every secret that
    registration, secret reset and secret update hand to the repository is
    an answer of the hasher to the supplied secret.  The things service
    calls no hasher: [UpdateClientSecret] hands the supplied key to the
    repository as it is, and so does [CreateThings] with every supplied
    secret that is not empty. *)
Theorem secrets_hashed_for_users_kept_for_things
    W (h : handler W) w svc token cli secret old new id key clis :
  only_hashes_persisted (secretOf cli)
    (trace_of (run h (Users.RegisterClient token cli) w)) /\
  only_hashes_persisted secret
    (trace_of (run h (Users.ResetSecret svc token secret) w)) /\
  only_hashes_persisted new
    (trace_of (run h (Users.UpdateClientSecret svc token old new) w)) /\
  (let tr := trace_of (run h (Things.UpdateClientSecret token id key) w) in
   Forall (fun en => is_hasher_call en = false) tr /\
   forall s, s ∈ persisted_secrets tr -> s = key) /\
  (let tr := trace_of (run h (Things.CreateThings token clis) w) in
   Forall (fun en => is_hasher_call en = false) tr /\
   forall cs r, Log (ThingsSave cs) r ∈ tr -> Forall2 keeps_secret clis cs).
Proof.
  split; [apply RegisterClient_persists_hash|].
  split; [apply ResetSecret_persists_hash|].
  split; [apply UpdateClientSecret_persists_hash|].
  split; [|apply CreateThings_keeps_secrets].
  unfold Things.UpdateClientSecret, Things.identify, Things.authorize, call. simpl.
  split.
  - run_all h; repeat constructor.
  - intros s. run_all h; intros Hin; secret_cases Hin. done.
Qed.

Lemma secrets_hashed_for_users_kept_for_things_witness :
  Log (HasherHash "pw") (Ok "#pw")
    ∈ trace_of (run Sim.sim (Users.RegisterClient "tok-alice" carol) Scenario.w0).
Proof.
  destruct (secrets_hashed_for_users_kept_for_things Sim.World Sim.sim Scenario.w0
              (Users.mkService (fun _ => true)) "tok-alice" carol "" "" "" "" "" [])
    as [Hregister _].
  apply (Hregister "#pw"). vm_compute. left.
Defined.

(** A thing created with a secret of its own, and one without. *)
Example CreateThings_secrets :
  persisted_secrets
    (trace_of (run Sim.sim
       (Things.CreateThings "tok-alice"
          [mfclients.with_Secret "my-key" mfclients.zero; mfclients.zero])
       Scenario.w0))
  = ["my-key"; "id3"].
Proof. reflexivity. Qed.

(** ** Tree assembly *)

(** An order of visit of a map with at most three entries is one of the
    permutations of its entries. *)
Ltac order_cases H :=
  symmetry in H; apply permutations_Permutation in H; vm_compute in H;
  repeat (apply elem_of_cons in H as [->|H]); try (by apply elem_of_nil in H).

(** C6: on the page [1 (no parent); 2 (parent 1); 3 (parent 2)] the
    response has one root, group 1, whose only child is group 2, whose only
    child is group 3; on the page [2 (parent 1)] the response has group 2
    as its only root, without children.  Both hold for every order in which
    the three loops over the map visit its entries, and whatever the other
    fields of the groups are. *)
Theorem tree_assembly_examples page page' g1 g2 g3 ord2 ord3 ord4 ord2' ord3' ord4' :
  groups.ID g1 = "1" -> groups.Parent g1 = "" ->
  groups.ID g2 = "2" -> groups.Parent g2 = "1" ->
  groups.ID g3 = "3" -> groups.Parent g3 = "2" ->
  groups.Groups page = [g1; g2; g3] ->
  ord2 ≡ₚ map_to_list (indexGroups page).1 ->
  ord3 ≡ₚ map_to_list (indexGroups page).1 ->
  ord4 ≡ₚ map_to_list (indexGroups page).1 ->
  groups.Groups page' = [g2] ->
  ord2' ≡ₚ map_to_list (indexGroups page').1 ->
  ord3' ≡ₚ map_to_list (indexGroups page').1 ->
  ord4' ≡ₚ map_to_list (indexGroups page').1 ->
  (roots (buildGroupsResponseTree ord2 ord3 ord4 page) = ["1"] /\
   forest (buildGroupsResponseTree ord2 ord3 ord4 page)
   = Some [Node "1" [Node "2" [Node "3" []]]]) /\
  (roots (buildGroupsResponseTree ord2' ord3' ord4' page') = ["2"] /\
   forest (buildGroupsResponseTree ord2' ord3' ord4' page') = Some [Node "2" []]).
Proof.
  destruct page as [? ? ? ? ? ? ? gs], page' as [? ? ? ? ? ? ? gs'], g1, g2, g3; simpl.
  intros -> -> -> -> -> -> -> H2 H3 H4 -> H2' H3' H4'.
  split.
  - clear H2' H3' H4'.
    order_cases H2; order_cases H3; order_cases H4; vm_compute; done.
  - clear H2 H3 H4.
    order_cases H2'; order_cases H3'; order_cases H4'; vm_compute; done.
Qed.

Lemma tree_assembly_examples_witness :
  forest (buildGroupsResponseTree ord123 (reverse ord123) ord123 page123)
  = Some [Node "1" [Node "2" [Node "3" []]]] /\
  forest (buildGroupsResponseTree ordAlone ordAlone ordAlone page2) = Some [Node "2" []].
Proof.
  destruct (tree_assembly_examples page123 page2 group1 group2 group3
              ord123 (reverse ord123) ord123 ordAlone ordAlone ordAlone)
    as [[_ Htree] [_ Horphan]]; try reflexivity.
  - apply reverse_Permutation.
  - split; [exact Htree|exact Horphan].
Defined.

(** The backing array after the call: the children are in place. *)
Example tree_assembly_children :
  let ord := map_to_list (indexGroups page123).1 in
  map groups.Children (buildGroupsResponseTree ord ord ord page123).2 = [[1]; [2]; []].
Proof. vm_compute. reflexivity. Qed.

(** Two children of one parent come in the order of the second loop's
    visit. *)
Example tree_assembly_sibling_order :
  let a := groups.with_ID "a" groups.zero in
  let b := groups.with_ID "b" (groups.mkGroup "" "" "a" "" "" [] 0%Z "" [] 0%Z 0%Z ""
                                 mfclients.EnabledStatus) in
  let c := groups.with_ID "c" b in
  let page := groups.mkPage 3 0 10 "" 0 "" 1 [a; b; c] in
  let ord := [("a", 0); ("b", 1); ("c", 2)] in
  forest (buildGroupsResponseTree ord ord ord page)
  = Some [Node "a" [Node "b" []; Node "c" []]] /\
  forest (buildGroupsResponseTree (reverse ord) ord ord page)
  = Some [Node "a" [Node "c" []; Node "b" []]].
Proof. vm_compute. done. Qed.

(** * Further properties *)

Lemma addPolicies_fail_fast W (h : handler W) prs :
  forall w,
    let o := run h (GroupsService.addPolicies prs) w in
    Forall (fun en => is_addPolicy en = true) (trace_of o) /\
    fail_fast "failed to add policies : " prs (omap policyWrite_of (trace_of o))
      (result_of o).
Proof.
  induction prs as [|pr prs IH]; intros w; simpl.
  - split; [constructor|]. split; [done|constructor].
  - unfold call. simpl. step h. destruct r as [b|e]; simpl.
    + specialize (IH w0).
      destruct (run h (GroupsService.addPolicies prs) w0) as [[res tr] w1].
      cbv [trace_of result_of] in IH |- *. cbn [fst snd] in IH |- *.
      destruct IH as [IHtr IH]. split; [by constructor|].
      change (omap policyWrite_of (Log (AuthAddPolicy pr) (Ok b) :: tr))
        with ((pr, Ok b) :: omap policyWrite_of tr).
      destruct res as [err|]; cbn [fail_fast] in IH |- *.
      * destruct IH as (before & pr' & e & Hsent & Hok & Hpre & ->).
        exists ((pr, Ok b) :: before), pr', e. rewrite Hsent. split; [done|].
        split; [by constructor|]. split; [|done].
        simpl. by apply prefix_cons.
      * destruct IH as [<- Hok]. split; [done|]. by constructor.
    + split; [by repeat constructor|].
      exists [], pr, e. split; [done|]. split; [constructor|]. split; [|done].
      by exists prs.
Qed.

Lemma deletePolicies_fail_fast W (h : handler W) prs :
  forall w,
    let o := run h (GroupsService.deletePolicies prs) w in
    Forall (fun en => is_deletePolicy en = true) (trace_of o) /\
    fail_fast "failed to delete policies : " prs (omap policyWrite_of (trace_of o))
      (result_of o).
Proof.
  induction prs as [|pr prs IH]; intros w; simpl.
  - split; [constructor|]. split; [done|constructor].
  - unfold call. simpl. step h. destruct r as [b|e]; simpl.
    + specialize (IH w0).
      destruct (run h (GroupsService.deletePolicies prs) w0) as [[res tr] w1].
      cbv [trace_of result_of] in IH |- *. cbn [fst snd] in IH |- *.
      destruct IH as [IHtr IH]. split; [by constructor|].
      change (omap policyWrite_of (Log (AuthDeletePolicy pr) (Ok b) :: tr))
        with ((pr, Ok b) :: omap policyWrite_of tr).
      destruct res as [err|]; cbn [fail_fast] in IH |- *.
      * destruct IH as (before & pr' & e & Hsent & Hok & Hpre & ->).
        exists ((pr, Ok b) :: before), pr', e. rewrite Hsent. split; [done|].
        split; [by constructor|]. split; [|done].
        simpl. by apply prefix_cons.
      * destruct IH as [<- Hok]. split; [done|]. by constructor.
    + split; [by repeat constructor|].
      exists [], pr, e. split; [done|]. split; [constructor|]. split; [|done].
      by exists prs.
Qed.

Lemma policy_write_is_no_authorize en :
  is_addPolicy en = true \/ is_deletePolicy en = true -> authorize_of en = None.
Proof. destruct en as [X e x]. destruct e; simpl; intros [?|?]; done. Qed.

(** X2: once the caller is authorized, [Assign] and [Unassign] write the
    tuples of the members in the order of the member ids and stop at the
    first failure: either all were written and there is no error, or the
    writes are a prefix of the tuples, all but the last succeeded, and the
    error is the last answer under "failed to add policies" or "failed to
    delete policies".  The tuples written before the failure stay. *)
Theorem Assign_Unassign_fail_fast
    W (h : handler W) w token groupID relation memberKind memberIDs prs :
  GroupsService.memberPolicies groupID relation memberKind memberIDs = Some prs ->
  (forall r, Log (AuthAuthorize (groupReq token GroupsService.editPermission groupID)) r
               ∈ trace_of (run h (GroupsService.Assign token groupID relation memberKind
                                    memberIDs) w) ->
     granted r = true ->
     let o := run h (GroupsService.Assign token groupID relation memberKind memberIDs) w in
     fail_fast "failed to add policies : " prs (omap policyWrite_of (trace_of o))
       (result_of o)) /\
  (forall r, Log (AuthAuthorize (groupReq token GroupsService.editPermission groupID)) r
               ∈ trace_of (run h (GroupsService.Unassign token groupID relation memberKind
                                    memberIDs) w) ->
     granted r = true ->
     let o := run h (GroupsService.Unassign token groupID relation memberKind memberIDs) w in
     fail_fast "failed to delete policies : " prs (omap policyWrite_of (trace_of o))
       (result_of o)).
Proof.
  intros Hprs. unfold groupReq, GroupsService.Assign, GroupsService.Unassign,
    GroupsService.authorize, call. simpl. rewrite Hprs.
  split; intros r'; step h; destruct r as [[[] ?]|?]; simpl.
  2,3,5,6: intros Hin; authorize_cases Hin.
  - pose proof (addPolicies_fail_fast W h prs w0) as [Htr Hff].
    destruct (run h (GroupsService.addPolicies prs) w0) as [[res tr] w1].
    cbv [trace_of result_of] in Htr, Hff |- *. cbn [fst snd] in Htr, Hff |- *.
    intros _ _. exact Hff.
  - pose proof (deletePolicies_fail_fast W h prs w0) as [Htr Hff].
    destruct (run h (GroupsService.deletePolicies prs) w0) as [[res tr] w1].
    cbv [trace_of result_of] in Htr, Hff |- *. cbn [fst snd] in Htr, Hff |- *.
    intros _ _. exact Hff.
Qed.

(** X1: when the policy engine does not grant the permission on the
    group, [ViewGroup], [UpdateGroup], [ListMembers], [Assign], [Unassign],
    [EnableGroup] and [DisableGroup] return the authorization error, and the
    authorization is the only call that went to the engine or to the
    repository: nothing is read, nothing is written. *)
Theorem denied_caller_reaches_nothing
    W (h : handler W) w token id g permission relation memberKind memberIDs :
  denied_stops (groupReq token GroupsService.viewPermission id) Err
    (run h (GroupsService.ViewGroup token id) w) /\
  denied_stops (groupReq token GroupsService.editPermission (groups.ID g)) Err
    (run h (GroupsService.UpdateGroup token g) w) /\
  denied_stops (groupReq token GroupsService.viewPermission id) Err
    (run h (GroupsService.ListMembers token id permission memberKind) w) /\
  denied_stops (groupReq token GroupsService.editPermission id) Some
    (run h (GroupsService.Assign token id relation memberKind memberIDs) w) /\
  denied_stops (groupReq token GroupsService.editPermission id) Some
    (run h (GroupsService.Unassign token id relation memberKind memberIDs) w) /\
  denied_stops (groupReq token GroupsService.editPermission id) Err
    (run h (GroupsService.EnableGroup token id) w) /\
  denied_stops (groupReq token GroupsService.editPermission id) Err
    (run h (GroupsService.DisableGroup token id) w).
Proof.
  unfold denied_stops, groupReq.
  unfold GroupsService.ViewGroup, GroupsService.UpdateGroup, GroupsService.ListMembers,
    GroupsService.Assign, GroupsService.Unassign, GroupsService.EnableGroup,
    GroupsService.DisableGroup, GroupsService.changeGroupStatus,
    GroupsService.authorize, call.
  simpl.
  repeat apply conj; intros r'.
  1-3,6-7: run_all h; intros Hin; authorize_cases Hin; intros _; split; reflexivity.
  - step h. destruct r as [[[] ?]|?]; simpl.
    2,3: intros Hin; authorize_cases Hin; intros _; split; reflexivity.
    destruct (GroupsService.memberPolicies _ _ _ _) as [prs|]; simpl.
    2: intros Hin; authorize_cases Hin.
    pose proof (addPolicies_fail_fast W h prs w0) as [Htr _].
    destruct (run h (GroupsService.addPolicies prs) w0) as [[a tr] w1].
    cbv [trace_of] in Htr |- *. cbn [fst snd] in Htr |- *.
    intros Hin. apply elem_of_cons in Hin as [Hin|Hin].
    + apply (f_equal authorize_of) in Hin. simpl in Hin. by simplify_eq.
    + rewrite Forall_forall in Htr. apply Htr in Hin. discriminate.
  - step h. destruct r as [[[] ?]|?]; simpl.
    2,3: intros Hin; authorize_cases Hin; intros _; split; reflexivity.
    destruct (GroupsService.memberPolicies _ _ _ _) as [prs|]; simpl.
    2: intros Hin; authorize_cases Hin.
    pose proof (deletePolicies_fail_fast W h prs w0) as [Htr _].
    destruct (run h (GroupsService.deletePolicies prs) w0) as [[a tr] w1].
    cbv [trace_of] in Htr |- *. cbn [fst snd] in Htr |- *.
    intros Hin. apply elem_of_cons in Hin as [Hin|Hin].
    + apply (f_equal authorize_of) in Hin. simpl in Hin. by simplify_eq.
    + rewrite Forall_forall in Htr. apply Htr in Hin. discriminate.
Qed.

Lemma denied_caller_reaches_nothing_witness :
  result_of (run Sim.sim (GroupsService.ViewGroup "tok-bob" "g1") Scenario.w0)
  = Err (ErrSentinel ErrAuthorization).
Proof.
  destruct (denied_caller_reaches_nothing Sim.World Sim.sim Scenario.w0 "tok-bob" "g1"
              groups.zero "" "" "" []) as [Hview _].
  destruct (Hview (Ok {| Authorized := false; Id := "bob" |})) as [Hres _].
  - vm_compute. trace_mem.
  - reflexivity.
  - exact Hres.
Defined.

Lemma Assign_Unassign_fail_fast_witness :
  map fst (omap policyWrite_of
    (trace_of (run Sim.sim (GroupsService.Assign "tok-alice" "g1" "group" "things"
                              ["t1"; "t2"]) Scenario.w0)))
  = [mkPolicyReq "group" "" "g1" "group" "" "thing" "t1";
     mkPolicyReq "group" "" "g1" "group" "" "thing" "t2"].
Proof.
  destruct (Assign_Unassign_fail_fast Sim.World Sim.sim Scenario.w0 "tok-alice" "g1"
              "group" "things" ["t1"; "t2"]
              [mkPolicyReq "group" "" "g1" "group" "" "thing" "t1";
               mkPolicyReq "group" "" "g1" "group" "" "thing" "t2"] eq_refl)
    as [Hassign _].
  specialize (Hassign (Ok {| Authorized := true; Id := "alice" |})).
  destruct Hassign as [Hsent _].
  - vm_compute. trace_mem.
  - reflexivity.
  - exact Hsent.
Defined.

(** ** The members of a group *)



(** ** Creation and update of a group *)



(** X5: the creation of a group without parent asks for no authorization
    at all: the caller only has to be identified. *)
Theorem CreateGroup_root_asks_no_authorization W (h : handler W) w token g :
  groups.Parent g = "" ->
  Forall (fun en => authorize_of en = None)
    (trace_of (run h (GroupsService.CreateGroup token g) w)).
Proof.
  intros Hroot.
  unfold GroupsService.CreateGroup, GroupsService.identify, call. simpl.
  assert (Hp : forall (b : {groups.Owner g = ""} + {groups.Owner g ≠ ""}) o,
            groups.Parent (if b then groups.with_Owner o g else g) = "").
  { intros. by destruct b. }
  step h. destruct r; simpl; [|by repeat constructor].
  step h. destruct r; simpl; [|by repeat constructor].
  destruct (_ && _); simpl; [by repeat constructor|].
  step h. rewrite !Hp. simpl.
  step h. destruct r0 as [saved|]; simpl; [|by repeat constructor].
  step h. destruct r0; simpl; [|by repeat constructor].
  destruct (decide (groups.Parent saved ≠ "")); simpl; [|by repeat constructor].
  step h. by destruct r0; repeat constructor.
Qed.

Lemma CreateGroup_root_asks_no_authorization_witness :
  groups.Parent rootForCarol = "" /\
  omap authorize_of
    (trace_of (run Sim.sim (GroupsService.CreateGroup "tok-bob" rootForCarol) Scenario.w0))
  = [].
Proof.
  split; [reflexivity|].
  pose proof (CreateGroup_root_asks_no_authorization Sim.World Sim.sim Scenario.w0
                "tok-bob" rootForCarol eq_refl) as Hnone.
  induction Hnone as [|en tr Hen _ IH]; [reflexivity|].
  simpl. by rewrite Hen.
Defined.



(** X7: there is no rollback in [CreateGroup]: when the writing of a tuple
    fails, the error of the policy engine is returned as it is, the failed
    call is the last call of the run, and the group record was saved
    before it and stays saved. *)
Theorem CreateGroup_keeps_record_when_tuple_fails W (h : handler W) w token g req e :
  let o := run h (GroupsService.CreateGroup token g) w in
  Log (AuthAddPolicy req) (Err e) ∈ trace_of o ->
  result_of o = Err e /\
  last (trace_of o) = Some (Log (AuthAddPolicy req) (Err e)) /\
  exists g' saved, Log (GroupsSave g') (Ok saved) ∈ trace_of o.
Proof.
  unfold GroupsService.CreateGroup, GroupsService.identify, GroupsService.authorize,
    on_err, call. simpl.
  step h. destruct r as [ownerID|]; simpl;
    [|intros Hin; entry_cases policyWrite_of Hin].
  step h. destruct r as [groupID|]; simpl;
    [|intros Hin; entry_cases policyWrite_of Hin].
  destruct (_ && _); simpl; [intros Hin; entry_cases policyWrite_of Hin|].
  step h.
  destruct (decide (groups.Parent _ ≠ "")); simpl.
  - step h. destruct r0 as [[[] ?]|]; simpl;
      [|intros Hin; entry_cases policyWrite_of Hin..].
    step h. destruct r0 as [saved'|]; simpl;
      [|intros Hin; entry_cases policyWrite_of Hin].
    step h. destruct r0; simpl.
    + destruct (decide (groups.Parent saved' ≠ "")); simpl.
      * step h. destruct r0; simpl; intros Hin; entry_cases policyWrite_of Hin.
        split; [done|]. split; [done|]. eexists _, _. trace_mem.
      * intros Hin; entry_cases policyWrite_of Hin.
    + intros Hin; entry_cases policyWrite_of Hin.
      split; [done|]. split; [done|]. eexists _, _. trace_mem.
  - step h. destruct r0 as [saved'|]; simpl;
      [|intros Hin; entry_cases policyWrite_of Hin].
    step h. destruct r0; simpl.
    + destruct (decide (groups.Parent saved' ≠ "")); simpl.
      * step h. destruct r0; simpl; intros Hin; entry_cases policyWrite_of Hin.
        split; [done|]. split; [done|]. eexists _, _. trace_mem.
      * intros Hin; entry_cases policyWrite_of Hin.
    + intros Hin; entry_cases policyWrite_of Hin.
      split; [done|]. split; [done|]. eexists _, _. trace_mem.
Qed.



Lemma CreateGroup_keeps_record_when_tuple_fails_witness :
  result_of (run failingTuples (GroupsService.CreateGroup "tok-alice" rootForCarol)
               Scenario.w0)
  = Err (ErrNew "policy engine down") /\
  is_Some (Sim.findGroup
             (world_of (run failingTuples
                          (GroupsService.CreateGroup "tok-alice" rootForCarol) Scenario.w0))
             "id1").
Proof.
  split; [|by_evaluation].
  destruct (CreateGroup_keeps_record_when_tuple_fails Sim.World failingTuples Scenario.w0
              "tok-alice" rootForCarol
              (GroupsService.ownerPolicy "alice"
                 (groupToSave "alice" "id1" 100%Z rootForCarol))
              (ErrNew "policy engine down")) as (Hres & _).
  - vm_compute. trace_mem.
  - exact Hres.
Defined.

(** ** The candidates of [ListGroups], as a list *)

Lemma filter_eq_NoDup (c : string) (l : list string) :
  NoDup l -> filter (fun id => id = c) l = if decide (c ∈ l) then [c] else [].
Proof.
  induction 1 as [|x l Hx Hnd IH].
  - by rewrite decide_False by (apply not_elem_of_nil).
  - rewrite filter_cons. destruct (decide (x = c)) as [->|Hne].
    + rewrite IH. rewrite decide_False by done. by rewrite decide_True by left.
    + rewrite IH. destruct (decide (c ∈ l)) as [Hin|Hout].
      * by rewrite decide_True by (by right).
      * rewrite decide_False; [done|]. intros Hin.
        apply elem_of_cons in Hin as [->|Hin]; done.
Qed.

(** X9: when the list of the groups that the caller may view has no
    duplicates, the candidates of [ListGroups] for a thing are the groups
    of the thing's list that the caller may view, in the order and with the
    multiplicity of the thing's list. *)
Theorem intersectIDs_filters_the_things_list (cids allowed : list string) :
  NoDup allowed ->
  GroupsService.intersectIDs cids allowed = filter (fun cid => cid ∈ allowed) cids.
Proof.
  intros Hnd. unfold GroupsService.intersectIDs.
  induction cids as [|c cids IH]; [done|].
  simpl. rewrite IH, filter_cons, filter_eq_NoDup by done.
  by destruct (decide (c ∈ allowed)).
Qed.

Lemma intersectIDs_filters_the_things_list_witness :
  GroupsService.intersectIDs ["D"; "C"; "B"; "C"] ["A"; "B"; "C"] = ["C"; "B"; "C"].
Proof.
  rewrite (intersectIDs_filters_the_things_list ["D"; "C"; "B"; "C"] ["A"; "B"; "C"]).
  - reflexivity.
  - by_evaluation.
Defined.

(** ** Things: status changes and the cache *)

(** X10: [DisableClient] of the things service removes from the cache the
    id of the client that the repository answered to the status change, once,
    and only when that change succeeded; when the removal fails, its error
    is returned together with the client, whose status is changed already.
    [EnableClient] never calls the cache. *)
Theorem DisableClient_evicts_what_it_disabled W (h : handler W) w token id :
  let o := run h (Things.DisableClient token id) w in
  omap cacheRemove_of (trace_of o)
  = map mfclients.ID (omap statusChanged_of (trace_of o)) /\
  length (omap cacheRemove_of (trace_of o)) <= 1 /\
  (forall id' e, Log (CacheRemove id') (Some e) ∈ trace_of o ->
     exists req c, Log (ClientsChangeStatus req) (Ok c) ∈ trace_of o /\
                   mfclients.ID c = id' /\ result_of o = (c, Some e)) /\
  count is_cache_call (trace_of (run h (Things.EnableClient token id) w)) = 0.
Proof.
  unfold Things.DisableClient, Things.EnableClient, Things.changeClientStatus,
    Things.identify, Things.authorize, call. simpl.
  repeat apply conj.
  - run_all h; reflexivity.
  - run_all h; simpl; lia.
  - intros id' e. run_all h; intros Hin;
      entry_cases (fun en => match en with
                             | Log (CacheRemove i) r => Some (i, r)
                             | _ => None
                             end) Hin.
    eexists _, _. split; [trace_mem|done].
  - run_all h; reflexivity.
Qed.

Lemma DisableClient_evicts_what_it_disabled_witness :
  result_of (run failingCache (Things.DisableClient "tok-alice" "t1") Scenario.w0)
  = (mfclients.mkClient "t1" "thermometer" [] "alice"
       (mfclients.mkCredentials "" "key-t1") [] 6%Z 0%Z "alice"
       mfclients.DisabledStatus mfclients.UserRole,
     Some (ErrNew "cache down")).
Proof.
  destruct (DisableClient_evicts_what_it_disabled Sim.World failingCache Scenario.w0
              "tok-alice" "t1") as (_ & _ & Hfail & _).
  destruct (Hfail "t1" (ErrNew "cache down")) as (req & c & Hc & _ & Hres).
  - vm_compute. trace_mem.
  - rewrite Hres. vm_compute in Hc.
    entry_cases statusChanged_of Hc. reflexivity.
Defined.

(** ** Things: the view of a client *)

(** X11: [ViewClient] of the things service reports a refused
    authorization as [ErrNotFound] wrapped around the authorization error,
    without reading the repository; and a client that it returns is the
    record that the repository answered, secret included. *)
Theorem Things_ViewClient_hides_denial_keeps_secret W (h : handler W) w token id :
  let o := run h (Things.ViewClient token id) w in
  (forall req r, Log (AuthAuthorize req) r ∈ trace_of o -> granted r = false ->
     result_of o = Err (ErrWrap ErrNotFound (authzError r)) /\
     count is_repo_call (trace_of o) = 0) /\
  (forall c, result_of o = Ok c -> Log (ClientsRetrieveByID id) (Ok c) ∈ trace_of o).
Proof.
  unfold Things.ViewClient, Things.identify, Things.authorize, call. simpl.
  split.
  - intros req r'. run_all h; intros Hin; authorize_cases Hin; done.
  - intros c. run_all h; intros Hres; cbv [result_of] in Hres; simpl in Hres;
      simplify_eq. trace_mem.
Qed.

Lemma Things_ViewClient_hides_denial_keeps_secret_witness :
  result_of (run Sim.sim (Things.ViewClient "tok-bob" "t1") Scenario.w0)
  = Err (ErrWrap ErrNotFound (ErrSentinel ErrAuthorization)).
Proof.
  destruct (Things_ViewClient_hides_denial_keeps_secret Sim.World Sim.sim Scenario.w0
              "tok-bob" "t1") as [Hdenied _].
  destruct (Hdenied (Things.authorizeReq "user" "bob" "view" "thing" "t1")
              (Ok {| Authorized := false; Id := "bob" |})) as [Hres _].
  - vm_compute. trace_mem.
  - reflexivity.
  - exact Hres.
Defined.

(** ** Things: identification with a cache that fails *)

(** X12: a hit of the cache is the whole run of [Identify]; and when the
    cache refuses the saving of a pair, [Identify] returns the error of the
    cache although storage has resolved the key. *)
Theorem Identify_hit_and_cache_failure W (h : handler W) w key :
  let o := run h (Things.Identify key) w in
  (forall id, Log (CacheID key) (Ok id) ∈ trace_of o ->
     trace_of o = [Log (CacheID key) (Ok id)] /\ result_of o = Ok id) /\
  (forall k id e, Log (CacheSave k id) (Some e) ∈ trace_of o ->
     result_of o = Err e /\ k = key /\
     exists client, Log (ClientsRetrieveBySecret key) (Ok client) ∈ trace_of o /\
                    mfclients.ID client = id).
Proof.
  unfold Things.Identify, call. simpl. split.
  - intros id. run_all h; intros Hin; entry_cases cacheID_of Hin. done.
  - intros k id e. run_all h; intros Hin; entry_cases cache_of Hin.
    split; [done|]. split; [done|]. eexists. split; [trace_mem|done].
Qed.

Lemma Identify_hit_and_cache_failure_witness :
  result_of (run failingCache (Things.Identify "key-t1") Scenario.w0)
  = Err (ErrNew "cache down").
Proof.
  destruct (Identify_hit_and_cache_failure Sim.World failingCache Scenario.w0 "key-t1")
    as [_ Hfail].
  destruct (Hfail "key-t1" "t1" (ErrNew "cache down")) as [Hres _].
  - vm_compute. trace_mem.
  - exact Hres.
Defined.

(** ** Things: creation in batch *)

Lemma createThingsLoop_prepares W (h : handler W) userID clis :
  forall acc w,
    let o := run h (Things.createThingsLoop userID clis acc) w in
    Forall (fun en => is_write en = false) (trace_of o) /\
    forall clients, result_of o = Ok clients ->
      Forall (fun c => Things.invalidStatus (mfclients.Status_ c) = false) clis /\
      exists new, clients = acc ++ new /\ Forall2 (prepared userID) clis new.
Proof.
  induction clis as [|cli rest IH]; intros acc w; simpl.
  - split; [constructor|].
    intros clients [= <-]. split; [constructor|]. exists []. by rewrite app_nil_r.
  - unfold call. simpl.
    run_all h;
      try (split; [repeat constructor|]; intros clients Hres; discriminate);
      (destruct (Things.invalidStatus _) eqn:Hst; simpl;
       [split; [repeat constructor|]; intros clients Hres; discriminate|]);
      step h;
      match goal with
      | |- context [run h (Things.createThingsLoop _ _ ?acc') ?w'] =>
          specialize (IH acc' w');
          destruct (run h (Things.createThingsLoop userID rest acc') w')
            as [[res tr] w''];
          cbv [trace_of result_of] in IH |- *; simpl in IH |- *;
          destruct IH as [IHtr IH]
      end;
      (split; [repeat constructor; done|]);
      intros clients ->; destruct (IH clients eq_refl) as (Hvalid & new & -> & Hnew);
      (split; [by constructor|]);
      eexists (_ :: new); (split; [by rewrite <- app_assoc|]);
      (constructor; [|done]);
      unfold prepared; eexists _, _, _; simpl;
      repeat case_decide; simpl in *; try done; try congruence.
  Unshelve. all: exact "".
Qed.



(** ** Users: tokens *)

(** X14: [IssueToken] asks the policy engine for a token only after the
    hasher has accepted the given secret against the stored secret of the
    client with the given identity; when the hasher refuses, no token is
    asked for and the result is [ErrLogin] wrapped around its error.  A
    token that is returned is of type "bearer", its access token is the value
    that the engine issued and its refresh token is the string found under
    "refresh_token" in the extra fields. *)
Theorem IssueToken_checks_secret_first W (h : handler W) w identity secret :
  let o := run h (Users.IssueToken identity secret) w in
  (forall req r, Log (AuthIssue req) r ∈ trace_of o ->
     exists dbUser,
       Log (ClientsRetrieveByIdentity identity) (Ok dbUser) ∈ trace_of o /\
       Log (HasherCompare secret (secretOf dbUser)) None ∈ trace_of o /\
       req = issueReqOf dbUser) /\
  (forall plain hashed e, Log (HasherCompare plain hashed) (Some e) ∈ trace_of o ->
     result_of o = Err (ErrWrap ErrLogin e) /\ omap issue_of (trace_of o) = []) /\
  (forall t, result_of o = Ok t ->
     jwt.AccessType t = "bearer" /\
     exists req tk,
       Log (AuthIssue req) (Ok (Some tk)) ∈ trace_of o /\
       jwt.AccessToken t = Value tk /\
       Extra tk !! "refresh_token" = Some (StringValue (jwt.RefreshToken t))).
Proof.
  unfold Users.IssueToken, on_err, call, secretOf, issueReqOf. simpl.
  repeat apply conj.
  - intros req r'. run_all h; intros Hin; entry_cases issue_of Hin;
      eexists; (split; [trace_mem|]); (split; [trace_mem|done]).
  - intros plain hashed e'. run_all h; intros Hin; entry_cases compare_of Hin. done.
  - intros t. run_all h; try discriminate.
    unfold Users.parseToken.
    destruct a0 as [tk|]; [|discriminate].
    destruct (Extra tk !! "refresh_token") as [[refresh|]|] eqn:Hextra; try discriminate.
    intros Hres. cbv [result_of] in Hres. simpl in Hres. simplify_eq. simpl.
    split; [done|]. eexists _, tk. split; [trace_mem|done].
Qed.

Lemma IssueToken_checks_secret_first_witness :
  result_of (run Sim.sim (Users.IssueToken "alice@example.com" "wrong") Scenario.w0)
  = Err (ErrWrap ErrLogin (ErrNew "wrong secret")).
Proof.
  destruct (IssueToken_checks_secret_first Sim.World Sim.sim Scenario.w0
              "alice@example.com" "wrong") as (_ & Hwrong & _).
  destruct (Hwrong "wrong" "#old-secret" (ErrNew "wrong secret")) as [Hres _].
  - vm_compute. trace_mem.
  - exact Hres.
Defined.

(** ** Users: changes of the secret *)

(** X15: [UpdateClientSecret] of the users service writes a secret only
    when the new secret matches the password pattern and the hasher has
    accepted the old secret against what is stored for the identity of the
    caller; the record written is the record of the caller with the hash of
    the new secret and the two stamps, and the answer of the repository is
    the result.  A new secret that does not match the pattern ends the call
    right after the identification. *)
Theorem UpdateClientSecret_verifies_old_secret W (h : handler W) w svc token old new :
  let o := run h (Users.UpdateClientSecret svc token old new) w in
  (forall c r, Log (ClientsUpdateSecret c) r ∈ trace_of o ->
     result_of o = r /\
     Users.passRegex svc new = true /\
     exists id dbClient dbUser hash now,
       Log (AuthIdentify token) (Ok id) ∈ trace_of o /\
       Log (ClientsRetrieveByID id) (Ok dbClient) ∈ trace_of o /\
       Log (ClientsRetrieveByIdentity (mfclients.Identity (mfclients.Credentials_ dbClient)))
           (Ok dbUser) ∈ trace_of o /\
       Log (HasherCompare old (secretOf dbUser)) None ∈ trace_of o /\
       Log (HasherHash new) (Ok hash) ∈ trace_of o /\
       c = mfclients.with_UpdatedBy id
             (mfclients.with_UpdatedAt now (mfclients.with_Secret hash dbClient))) /\
  (Users.passRegex svc new = false ->
   exists r, trace_of o = [Log (AuthIdentify token) r] /\
             forall id, r = Ok id -> result_of o = Err Users.ErrPasswordFormat).
Proof.
  unfold Users.UpdateClientSecret, Users.IssueToken, Users.Identify, on_err, call, secretOf.
  simpl. split.
  - intros c r'. step h. destruct r as [id|]; simpl;
      [|intros Hin; entry_cases secretUpdate_of Hin].
    destruct (Users.passRegex svc new) eqn:Hre; simpl;
      [|intros Hin; entry_cases secretUpdate_of Hin].
    run_all h; try destruct (Users.parseToken _); simpl; run_all h;
      intros Hin; entry_cases secretUpdate_of Hin.
    split; [done|]. split; [done|].
    eexists _, _, _, _, _. repeat (split; [trace_mem|]). done.
  - intros Hre. step h. exists r. destruct r as [id|]; simpl; rewrite ?Hre; simpl.
    + split; [done|]. done.
    + split; [done|]. intros id [=].
Qed.

Lemma UpdateClientSecret_verifies_old_secret_witness :
  secretOf <$> omap (fun en => fst <$> secretUpdate_of en)
    (trace_of (run Sim.sim (Users.UpdateClientSecret svc8 "tok-alice" "old-secret"
                              "new-secret") Scenario.w0))
  = ["#new-secret"] /\
  Users.passRegex svc8 "new-secret" = true.
Proof.
  split; [reflexivity|].
  destruct (UpdateClientSecret_verifies_old_secret Sim.World Sim.sim Scenario.w0 svc8
              "tok-alice" "old-secret" "new-secret") as [Hwrite _].
  pose (c := mfclients.mkClient "alice" "Alice" [] ""
               (mfclients.mkCredentials "alice@example.com" "#new-secret")
               [] 5%Z 100%Z "alice" mfclients.EnabledStatus mfclients.UserRole).
  destruct (Hwrite c (Ok (mfclients.mkClient "alice" "Alice" [] ""
               (mfclients.mkCredentials "alice@example.com" "#new-secret")
               [] 5%Z 0%Z "" mfclients.EnabledStatus mfclients.UserRole)))
    as (_ & Hre & _).
  - vm_compute. trace_mem.
  - exact Hre.
Defined.

(** ** Users: resetting a secret *)

(** X16: [ResetSecret] writes only when the token was identified, the
    stored client has an identity and the secret matches the password
    pattern.  What it writes is a record without id: the identity of the
    stored client, the hash of the secret and the two stamps, every other
    field at its zero value.  A secret that does not match the pattern is
    refused with [ErrPasswordFormat] before any hashing; an unidentified
    token gives [ErrAuthentication] wrapped around the error. *)
Theorem ResetSecret_writes_identity_and_hash W (h : handler W) w svc resetToken secret :
  let o := run h (Users.ResetSecret svc resetToken secret) w in
  (forall c r, Log (ClientsUpdateSecret c) r ∈ trace_of o ->
     Users.passRegex svc secret = true /\
     mfclients.ID c = "" /\
     result_of o = match r with Ok _ => None | Err e => Some e end /\
     exists id stored hash now,
       Log (AuthIdentify resetToken) (Ok id) ∈ trace_of o /\
       Log (ClientsRetrieveByID id) (Ok stored) ∈ trace_of o /\
       mfclients.Identity (mfclients.Credentials_ stored) ≠ "" /\
       Log (HasherHash secret) (Ok hash) ∈ trace_of o /\
       c = resetRecord (mfclients.Identity (mfclients.Credentials_ stored)) hash id now) /\
  (Users.passRegex svc secret = false ->
   Forall (fun en => is_hasher_call en = false /\ is_write en = false) (trace_of o) /\
   forall id stored,
     Log (ClientsRetrieveByID id) (Ok stored) ∈ trace_of o ->
     mfclients.Identity (mfclients.Credentials_ stored) ≠ "" ->
     result_of o = Some Users.ErrPasswordFormat) /\
  (forall e, Log (AuthIdentify resetToken) (Err e) ∈ trace_of o ->
     result_of o = Some (ErrWrap ErrAuthentication e)).
Proof.
  unfold Users.ResetSecret, Users.Identify, call, resetRecord. simpl.
  destruct (Users.passRegex svc secret) eqn:Hre; simpl.
  all: repeat apply conj.
  - intros c r'. run_all h; intros Hin; entry_cases secretUpdate_of Hin.
    all: split; [done|]; split; [done|]; split; [done|].
    all: eexists _, _, _, _; repeat (split; [first [trace_mem|done]|]); done.
  - done.
  - intros e'. run_all h; intros Hin; entry_cases identifyError_of Hin; done.
  - intros c r'. run_all h; intros Hin; entry_cases secretUpdate_of Hin.
  - intros _. split.
    + run_all h; by repeat constructor.
    + intros id stored. run_all h; intros Hin; entry_cases loaded_of Hin; done.
  - intros e'. run_all h; intros Hin; entry_cases identifyError_of Hin; done.
Qed.

Lemma ResetSecret_writes_identity_and_hash_witness :
  result_of (run Sim.sim (Users.ResetSecret svc8 "tok-alice" "short") Scenario.w0)
  = Some Users.ErrPasswordFormat.
Proof.
  destruct (ResetSecret_writes_identity_and_hash Sim.World Sim.sim Scenario.w0 svc8
              "tok-alice" "short") as (_ & Hweak & _).
  destruct Hweak as [_ Hres]; [reflexivity|].
  apply (Hres "alice"
           (mfclients.mkClient "alice" "Alice" [] ""
              (mfclients.mkCredentials "alice@example.com" "#old-secret")
              [] 5%Z 0%Z "" mfclients.EnabledStatus mfclients.UserRole)).
  - vm_compute. trace_mem.
  - discriminate.
Defined.

(** ** Users: what registration validates, and when *)



(** ** Users: the ownership check *)

(** X18: [ViewClient] of the users service asks the repository whether the
    caller owns the client only when the caller is not the client itself.
    A refusal of that check is returned as it is, before the record is
    read; a caller that views itself reaches the record without the
    check. *)
Theorem Users_ViewClient_checks_ownership_of_others W (h : handler W) w token id :
  let o := run h (Users.ViewClient token id) w in
  (forall clientID ownerID r, Log (ClientsIsOwner clientID ownerID) r ∈ trace_of o ->
     clientID = id /\ ownerID ≠ id /\
     Log (AuthIdentify token) (Ok ownerID) ∈ trace_of o) /\
  (forall clientID ownerID e, Log (ClientsIsOwner clientID ownerID) (Some e) ∈ trace_of o ->
     result_of o = Err e /\ omap loaded_of (trace_of o) = []) /\
  (Log (AuthIdentify token) (Ok id) ∈ trace_of o ->
   omap isOwner_of (trace_of o) = [] /\
   exists r, trace_of o = [Log (AuthIdentify token) (Ok id); Log (ClientsRetrieveByID id) r]).
Proof.
  unfold Users.ViewClient, Users.Identify, Users.isOwner, call. simpl.
  repeat apply conj.
  - intros clientID ownerID r'. run_all h; intros Hin; entry_cases isOwner_of Hin.
    all: split; [done|]; split; [done|trace_mem].
  - intros clientID ownerID e'. run_all h; intros Hin; entry_cases isOwner_of Hin.
    done.
  - run_all h; intros Hin; entry_cases identified_of Hin.
    all: split; [done|]; by eexists.
Qed.

Lemma Users_ViewClient_checks_ownership_of_others_witness :
  result_of (run Sim.sim (Users.ViewClient "tok-bob" "alice") Scenario.w0)
  = Err (ErrSentinel ErrAuthorization).
Proof.
  destruct (Users_ViewClient_checks_ownership_of_others Sim.World Sim.sim Scenario.w0
              "tok-bob" "alice") as (_ & Hrefused & _).
  destruct (Hrefused "alice" "bob" (ErrSentinel ErrAuthorization)) as [Hres _].
  - vm_compute. trace_mem.
  - exact Hres.
Defined.

(** X19: a status change of the users service goes through the same
    ownership check, and reaches [ChangeStatus] only with a record whose
    stored status differs from the requested one: the record handed over is
    the requested one stamped with the caller, and the answer of the
    repository is the result. *)
Theorem Users_changeClientStatus_guards W (h : handler W) w token client :
  let o := run h (Users.changeClientStatus token client) w in
  forall c r, Log (ClientsChangeStatus c) r ∈ trace_of o ->
    result_of o = r /\
    exists caller stored,
      c = mfclients.with_UpdatedBy caller client /\
      Log (AuthIdentify token) (Ok caller) ∈ trace_of o /\
      Log (ClientsRetrieveByID (mfclients.ID client)) (Ok stored) ∈ trace_of o /\
      mfclients.Status_ stored ≠ mfclients.Status_ client /\
      (caller = mfclients.ID client
       \/ Log (ClientsIsOwner (mfclients.ID client) caller) None ∈ trace_of o).
Proof.
  unfold Users.changeClientStatus, Users.Identify, Users.isOwner, call. simpl.
  intros c r'. run_all h; intros Hin; entry_cases changeStatus_of Hin.
  all: split; [done|]; eexists _, _; split; [done|].
  all: repeat (split; [first [trace_mem|done]|]).
  - right. trace_mem.
  - left. by apply dec_stable.
Qed.

Lemma Users_changeClientStatus_guards_witness :
  result_of (run Sim.sim
               (Users.changeClientStatus "tok-alice"
                  (Users.statusClient "alice" mfclients.DisabledStatus 100%Z)) Scenario.w0)
  = Ok aliceDisabled.
Proof.
  destruct (Users_changeClientStatus_guards Sim.World Sim.sim Scenario.w0 "tok-alice"
              (Users.statusClient "alice" mfclients.DisabledStatus 100%Z)
              (mfclients.with_UpdatedBy "alice"
                 (Users.statusClient "alice" mfclients.DisabledStatus 100%Z))
              (Ok aliceDisabled)) as [Hres _].
  - vm_compute. trace_mem.
  - exact Hres.
Defined.

(** ** Tree assembly, for every page *)

Lemma firstIdx_Some k gs p :
  firstIdx k gs = Some p ->
  exists g, gs !! p = Some g /\ groups.ID g = k /\
            forall j g', j < p -> gs !! j = Some g' -> groups.ID g' ≠ k.
Proof.
  revert p. induction gs as [|g gs IH]; intros p; simpl; [done|].
  case_decide as Hk.
  - intros [= <-]. exists g. repeat split; [done|lia].
  - destruct (firstIdx k gs) as [q|] eqn:Hq; simpl; [|done].
    intros [= <-]. destruct (IH q eq_refl) as (g0 & Hg0 & Hid & Hfirst).
    exists g0. repeat split; [done..|].
    intros [|j] g' Hlt; simpl; [by intros [= <-]|].
    apply Hfirst. lia.
Qed.

Lemma firstIdx_None k gs : firstIdx k gs = None <-> k ∉ pageIDs gs.
Proof.
  unfold pageIDs. induction gs as [|g gs IH]; simpl.
  - split; [intros _; by apply not_elem_of_nil|done].
  - rewrite not_elem_of_cons. case_decide as Hk.
    + split; [done|]. by intros [? _].
    + rewrite fmap_None, IH. split; [done|by intros [_ ?]].
Qed.

Lemma firstIdx_NoDup gs i g :
  NoDup (pageIDs gs) -> gs !! i = Some g -> firstIdx (groups.ID g) gs = Some i.
Proof.
  unfold pageIDs. revert i. induction gs as [|g0 gs IH]; intros i; simpl; [done|].
  rewrite NoDup_cons. intros [Hnotin Hnd]. destruct i as [|i]; simpl.
  - intros [= ->]. by rewrite decide_True.
  - intros Hi. rewrite decide_False.
    + by rewrite (IH i Hnd Hi).
    + intros Heq. apply Hnotin. rewrite Heq.
      apply list_elem_of_fmap. exists g. split; [done|].
      by eapply list_elem_of_lookup_2.
Qed.

Lemma indexLoop_spec gs i gm pm k :
  (indexLoop gs i gm pm).1 !! k
  = match gm !! k with
    | Some p => Some p
    | None => (fun n => i + n) <$> firstIdx k gs
    end /\
  (indexLoop gs i gm pm).2 !! k
  = match gm !! k with
    | Some _ => pm !! k
    | None => match firstIdx k gs with Some _ => Some [] | None => pm !! k end
    end.
Proof.
  revert i gm pm. induction gs as [|g gs IH]; intros i gm pm; simpl.
  - by destruct (gm !! k).
  - destruct (gm !! groups.ID g) as [q|] eqn:Hg.
    + destruct (IH (S i) gm pm) as [-> ->].
      destruct (gm !! k) eqn:Hk; [done|].
      rewrite decide_False by congruence.
      destruct (firstIdx k gs); simpl; [|done].
      split; [f_equal; lia|done].
    + destruct (IH (S i) (<[groups.ID g:=i]> gm) (<[groups.ID g:=[]]> pm)) as [-> ->].
      case_decide as Hk.
      * subst k. rewrite !lookup_insert_eq, Hg. simpl. split; [f_equal; lia|done].
      * rewrite !lookup_insert_ne by done.
        destruct (gm !! k); [done|].
        destruct (firstIdx k gs); simpl; [|done].
        split; [f_equal; lia|done].
Qed.

Lemma indexGroups_spec page k :
  (indexGroups page).1 !! k = firstIdx k (groups.Groups page) /\
  (indexGroups page).2 !! k = (fun _ => []) <$> firstIdx k (groups.Groups page).
Proof.
  unfold indexGroups.
  destruct (indexLoop_spec (groups.Groups page) 0 ∅ ∅ k) as [-> ->].
  rewrite !lookup_empty. by destruct (firstIdx k _).
Qed.

Lemma attachLoop_spec heap ord pm k :
  attachLoop heap ord pm !! k
  = (fun l => l ++ childrenOf heap ord.*2 k) <$> pm !! k.
Proof.
  unfold attachLoop, childrenOf. revert pm.
  induction ord as [|[k0 p] ord IH]; intros pm; simpl.
  - destruct (pm !! k); simpl; [|done]. by rewrite app_nil_r.
  - rewrite IH. destruct (heap !! p) as [group|] eqn:Hp; simpl.
    + destruct (pm !! groups.Parent group) as [children|] eqn:Hc.
      * destruct (decide (groups.Parent group = k)) as [<-|Hk].
        -- rewrite lookup_insert_eq, Hc. simpl.
           rewrite filter_cons_True by (by rewrite Hp).
           by rewrite <- app_assoc.
        -- rewrite lookup_insert_ne by done.
           rewrite filter_cons_False; [done|]. rewrite Hp. simpl. congruence.
      * destruct (decide (groups.Parent group = k)) as [<-|Hk].
        -- by rewrite Hc.
        -- rewrite filter_cons_False; [done|]. rewrite Hp. simpl. congruence.
    + rewrite filter_cons_False; [done|]. by rewrite Hp.
Qed.

Lemma childrenLoop_spec ord pm heap i :
  NoDup ord.*2 ->
  childrenLoop ord pm heap !! i
  = if decide (i ∈ ord.*2) then withBucket pm <$> heap !! i else heap !! i.
Proof.
  unfold childrenLoop. revert heap.
  induction ord as [|[k0 p] ord IH]; intros heap.
  - done.
  - cbn [foldl]. rewrite fmap_cons. cbn [snd].
    rewrite NoDup_cons. intros [Hp Hnd]. rewrite (IH _ Hnd).
    set (heap1 := match heap !! p with
                  | Some group =>
                      match pm !! groups.ID group with
                      | Some children => <[p:=groups.with_Children children group]> heap
                      | None => heap
                      end
                  | None => heap
                  end).
    assert (Hsame : forall j : nat, j ≠ p -> heap1 !! j = heap !! j).
    { intros j Hj. unfold heap1. destruct (heap !! p); [|done].
      destruct (pm !! _); [|done]. by rewrite list_lookup_insert_ne. }
    assert (Hat : heap1 !! p = withBucket pm <$> heap !! p).
    { unfold heap1, withBucket. destruct (heap !! p) as [group|] eqn:Hg; simpl; [|done].
      destruct (pm !! _); simpl; [|done].
      apply list_lookup_insert_eq. by eapply lookup_lt_Some. }
    destruct (decide (i = p)) as [->|Hi].
    + repeat case_decide; try done. exfalso. auto using list_elem_of_here.
    + rewrite (Hsame i Hi). repeat case_decide; try done.
      * exfalso. auto using list_elem_of_further.
      * exfalso. match goal with H : i ∈ p :: _ |- _ => apply elem_of_cons in H as [?|?] end; done.
Qed.

Lemma childrenLoop_length ord pm heap : length (childrenLoop ord pm heap) = length heap.
Proof.
  unfold childrenLoop. revert heap.
  induction ord as [|[k0 p] ord IH]; intros heap; simpl; [done|].
  rewrite IH. destruct (heap !! p); [|done]. destruct (pm !! _); [|done].
  by rewrite length_insert.
Qed.

Lemma rootsLoop_spec heap ord pm : rootsLoop heap ord pm = omap (rootView heap pm) ord.
Proof.
  unfold rootsLoop.
  enough (Hgen : forall acc,
             foldl (fun res kp =>
                      match heap !! kp.2 with
                      | Some group =>
                          let view := toViewGroupRes group in
                          match pm !! groups.Parent group with
                          | Some children =>
                              if decide (length children = 0) then res ++ [view] else res
                          | None => res ++ [view]
                          end
                      | None => res
                      end) acc ord
             = acc ++ omap (rootView heap pm) ord) by apply Hgen.
  induction ord as [|kp ord IH]; intros acc; simpl.
  - by rewrite app_nil_r.
  - rewrite IH. unfold rootView at 2.
    destruct (heap !! kp.2); simpl; [|done].
    destruct (pm !! _); simpl.
    + case_decide; [by rewrite <- app_assoc|done].
    + by rewrite <- app_assoc.
Qed.

Lemma buildGroupsResponseTree_unfold ord2 ord3 ord4 page :
  let pm := attachLoop (groups.Groups page) ord2 (indexGroups page).2 in
  let heap := childrenLoop ord3 pm (groups.Groups page) in
  (buildGroupsResponseTree ord2 ord3 ord4 page).2 = heap /\
  Groups (buildGroupsResponseTree ord2 ord3 ord4 page).1 = rootsLoop heap ord4 pm.
Proof. unfold buildGroupsResponseTree. by destruct (indexGroups page). Qed.

(** An order of visit holds the entries of [groupsMap]: the ids of the page,
    each with the address of its first group. *)
Lemma visit_elem page ord k (p : nat) :
  ord ≡ₚ map_to_list (indexGroups page).1 ->
  (k, p) ∈ ord <-> firstIdx k (groups.Groups page) = Some p.
Proof.
  intros ->. rewrite elem_of_map_to_list.
  destruct (indexGroups_spec page k) as [Hspec _].
  unfold groups.ptr in *. by rewrite Hspec.
Qed.

Lemma visit_ptr page ord (p : nat) :
  ord ≡ₚ map_to_list (indexGroups page).1 ->
  p ∈ ord.*2 <->
  exists g, groups.Groups page !! p = Some g /\
            firstIdx (groups.ID g) (groups.Groups page) = Some p.
Proof.
  intros Hord. rewrite list_elem_of_fmap. split.
  - intros ([k q] & -> & Hin). simpl.
    apply (visit_elem page ord k q Hord) in Hin.
    destruct (firstIdx_Some _ _ _ Hin) as (g & Hg & <- & _). by exists g.
  - intros (g & Hg & Hfirst). exists (groups.ID g, p). split; [done|].
    by apply (visit_elem page ord).
Qed.

Lemma visit_NoDup page ord :
  ord ≡ₚ map_to_list (indexGroups page).1 -> NoDup ord.*2.
Proof.
  intros Hord. apply NoDup_fmap_2_strong.
  - intros [k p] [k' p'] Hin Hin' Heq. simpl in Heq. subst p'.
    apply (visit_elem page ord _ _ Hord) in Hin, Hin'.
    destruct (firstIdx_Some _ _ _ Hin) as (g & Hg & <- & _).
    destruct (firstIdx_Some _ _ _ Hin') as (g' & Hg' & <- & _).
    congruence.
  - rewrite Hord. apply NoDup_map_to_list.
Qed.

(** The buckets after the second loop. *)
Lemma buckets_spec page ord2 k :
  attachLoop (groups.Groups page) ord2 (indexGroups page).2 !! k
  = (fun _ => childrenOf (groups.Groups page) ord2.*2 k) <$> firstIdx k (groups.Groups page).
Proof.
  rewrite attachLoop_spec. destruct (indexGroups_spec page k) as [_ ->].
  by destruct (firstIdx k _).
Qed.

(** The backing array after the third loop. *)
Lemma heap_spec page ord2 ord3 ord4 (i : nat) :
  ord3 ≡ₚ map_to_list (indexGroups page).1 ->
  (buildGroupsResponseTree ord2 ord3 ord4 page).2 !! i
  = (fun g => if decide (firstIdx (groups.ID g) (groups.Groups page) = Some i)
              then groups.with_Children
                     (childrenOf (groups.Groups page) ord2.*2 (groups.ID g)) g
              else g) <$> groups.Groups page !! i.
Proof.
  intros H3. destruct (buildGroupsResponseTree_unfold ord2 ord3 ord4 page) as [-> _].
  rewrite childrenLoop_spec by (by eapply visit_NoDup).
  destruct (groups.Groups page !! i) as [g|] eqn:Hg; simpl; [|by case_decide].
  case_decide as Hin.
  - apply (visit_ptr page ord3 i H3) in Hin as (g' & Hg' & Hfirst).
    assert (g' = g) as -> by congruence.
    rewrite decide_True by done. unfold withBucket.
    by rewrite buckets_spec, Hfirst.
  - rewrite decide_False; [done|]. intros Hfirst. apply Hin.
    apply (visit_ptr page ord3 i H3). by exists g.
Qed.

Lemma omap_ext_in {A B} (f g : A -> option B) (l : list A) :
  (forall x, x ∈ l -> f x = g x) -> omap f l = omap g l.
Proof.
  induction l as [|x l IH]; intros Hfg; simpl; [done|].
  rewrite (Hfg x) by left.
  assert (Hl : omap f l = omap g l) by (apply IH; intros y Hy; apply Hfg; by right).
  change (list_omap A B f l) with (omap f l).
  change (list_omap A B g l) with (omap g l).
  by rewrite Hl.
Qed.

Lemma omap_fmap_list {A B C} (f : A -> B) (g : B -> option C) (l : list A) :
  omap g (f <$> l) = omap (fun x => g (f x)) l.
Proof.
  induction l as [|x l IH]; [done|]. simpl.
  destruct (g (f x)) as [c|]; [apply (f_equal (cons c))|]; exact IH.
Qed.

(** The top level after the fourth loop: of the groups that the map
    holds, those whose parent is no id of the page. *)
Lemma roots_spec page ord2 ord3 ord4 :
  let gs := groups.Groups page in
  let out := buildGroupsResponseTree ord2 ord3 ord4 page in
  ord2 ≡ₚ map_to_list (indexGroups page).1 ->
  ord3 ≡ₚ map_to_list (indexGroups page).1 ->
  ord4 ≡ₚ map_to_list (indexGroups page).1 ->
  Groups out.1
  = omap (fun p => match out.2 !! p with
                   | Some g => if decide (groups.Parent g ∈ pageIDs gs) then None
                               else Some (toViewGroupRes g)
                   | None => None
                   end) ord4.*2.
Proof.
  intros gs out H2 H3 H4. subst gs out.
  destruct (buildGroupsResponseTree_unfold ord2 ord3 ord4 page) as [Hheap ->].
  rewrite rootsLoop_spec, <- Hheap. clear Hheap.
  rewrite omap_fmap_list. apply omap_ext_in.
  intros [k p] Hin. unfold rootView. cbn [snd].
  unfold groups.ptr in *. rewrite (heap_spec page ord2 ord3 ord4 p H3).
  apply (visit_elem page ord4 k p H4) in Hin.
  destruct (firstIdx_Some _ _ _ Hin) as (g & Hg & <- & _).
  unfold groups.ptr in *.
  rewrite Hg. simpl. rewrite decide_True by done. simpl.
  rewrite buckets_spec.
  destruct (firstIdx (groups.Parent g) (groups.Groups page)) as [q|] eqn:Hparent; simpl.
  - rewrite decide_False.
    + rewrite decide_True; [done|].
      apply dec_stable. intros Hnot. apply firstIdx_None in Hnot. congruence.
    + assert (Hp : p ∈ childrenOf (groups.Groups page) ord2.*2 (groups.Parent g)).
      { apply list_elem_of_filter. unfold groups.ptr in *. split; [by rewrite Hg|].
        apply (visit_ptr page ord2 p H2). by exists g. }
      intros Hlen. apply length_zero_iff_nil in Hlen.
      unfold groups.ptr in *. rewrite Hlen in Hp. by apply elem_of_nil in Hp.
  - rewrite decide_False; [done|]. by apply firstIdx_None.
Qed.

Lemma omap_lookup_seq {A B} (G : A -> option B) (l : list A) :
  omap (fun p : nat => match l !! p with Some a => G a | None => None end)
       (seq 0 (length l))
  = omap G l.
Proof.
  induction l as [|a l IH]; [done|].
  cbn [length seq]. rewrite <- fmap_S_seq.
  change (omap ?f (0 :: ?t))
    with (match f 0 with Some y => y :: omap f t | None => omap f t end).
  rewrite omap_fmap_list.
  change (omap G (a :: l))
    with (match G a with Some y => y :: omap G l | None => omap G l end).
  rewrite <- IH. reflexivity.
Qed.

Lemma omap_filter_fmap {A B} (P : A -> Prop) `{forall a, Decision (P a)}
    (f : A -> B) (l : list A) :
  omap (fun a => if decide (P a) then None else Some (f a)) l
  = f <$> filter (fun a => ~ P a) l.
Proof.
  induction l as [|a l IH]; [done|]. simpl.
  destruct (decide (P a)) as [Ha|Ha].
  - rewrite filter_cons_False by tauto. exact IH.
  - rewrite filter_cons_True by done. simpl. apply (f_equal (cons (f a))). exact IH.
Qed.

(** X20: on a page without repeated ids, whatever the orders in which the
    three loops visit the map: every group of the page gets as children the
    addresses of exactly the groups that name it as parent, each once; and
    the top level of the response holds exactly the groups whose parent is
    no id of the page, as the backing array has them then. *)
Theorem tree_assembly_roots_and_children page ord2 ord3 ord4 :
  let gs := groups.Groups page in
  let out := buildGroupsResponseTree ord2 ord3 ord4 page in
  NoDup (pageIDs gs) ->
  ord2 ≡ₚ map_to_list (indexGroups page).1 ->
  ord3 ≡ₚ map_to_list (indexGroups page).1 ->
  ord4 ≡ₚ map_to_list (indexGroups page).1 ->
  (forall (i : nat) g, gs !! i = Some g ->
     exists cs, out.2 !! i = Some (groups.with_Children cs g) /\ NoDup cs /\
                forall p : nat, p ∈ cs <-> exists c, gs !! p = Some c
                                                  /\ groups.Parent c = groups.ID g) /\
  Groups out.1
  ≡ₚ toViewGroupRes <$> filter (fun g => groups.Parent g ∉ pageIDs gs) out.2.
Proof.
  intros gs out Hnd H2 H3 H4. subst gs out.
  assert (Hall : forall ord (p : nat), ord ≡ₚ map_to_list (indexGroups page).1 ->
                   p ∈ ord.*2 <-> exists c, groups.Groups page !! p = Some c).
  { intros ord p Hord. rewrite (visit_ptr page ord p Hord). split.
    - intros (c & Hc & _). by exists c.
    - intros (c & Hc). exists c. split; [done|]. by apply firstIdx_NoDup. }
  split.
  - intros i g Hg. exists (childrenOf (groups.Groups page) ord2.*2 (groups.ID g)).
    repeat split.
    + rewrite (heap_spec page ord2 ord3 ord4 i H3), Hg. simpl.
      by rewrite decide_True by (by apply firstIdx_NoDup).
    + apply NoDup_filter. by eapply visit_NoDup.
    + intros Hp. apply list_elem_of_filter in Hp as [Hparent Hp].
      apply (Hall ord2 p H2) in Hp as [c Hc]. exists c. split; [done|].
      unfold groups.ptr in *. rewrite Hc in Hparent. by injection Hparent.
    + intros (c & Hc & Hparent). apply list_elem_of_filter.
      unfold groups.ptr in *. split; [by rewrite Hc, <- Hparent|].
      apply (Hall ord2 p H2). by exists c.
  - rewrite (roots_spec page ord2 ord3 ord4 H2 H3 H4).
    assert (Hperm : ord4.*2 ≡ₚ seq 0 (length (buildGroupsResponseTree ord2 ord3 ord4 page).2)).
    { apply NoDup_Permutation; [by eapply visit_NoDup|apply NoDup_seq|].
      intros p. rewrite (Hall ord4 p H4), elem_of_seq.
      destruct (buildGroupsResponseTree_unfold ord2 ord3 ord4 page) as [-> _].
      rewrite childrenLoop_length. split.
      - intros [c Hc]. apply lookup_lt_Some in Hc. lia.
      - intros [_ Hlt]. by apply lookup_lt_is_Some_2. }
    rewrite Hperm, omap_lookup_seq.
    by rewrite (omap_filter_fmap (fun g => groups.Parent g ∈ pageIDs (groups.Groups page))).
Qed.

Lemma tree_assembly_roots_and_children_witness :
  Groups (buildGroupsResponseTree ord123 (reverse ord123) ord123 page123).1
  ≡ₚ toViewGroupRes
       <$> filter (fun g => groups.Parent g ∉ pageIDs (groups.Groups page123))
             (buildGroupsResponseTree ord123 (reverse ord123) ord123 page123).2.
Proof.
  apply (tree_assembly_roots_and_children page123 ord123 (reverse ord123) ord123).
  - by_evaluation.
  - reflexivity.
  - apply reverse_Permutation.
  - reflexivity.
Defined.

(** X21: when the parent of every group is an id of the page (a group
    that is its own parent, two groups that are each other's parent), the
    response has no group at all, whatever the orders of visit. *)
Theorem tree_assembly_without_orphans page ord2 ord3 ord4 :
  let gs := groups.Groups page in
  ord2 ≡ₚ map_to_list (indexGroups page).1 ->
  ord3 ≡ₚ map_to_list (indexGroups page).1 ->
  ord4 ≡ₚ map_to_list (indexGroups page).1 ->
  (forall g, g ∈ gs -> groups.Parent g ∈ pageIDs gs) ->
  Groups (buildGroupsResponseTree ord2 ord3 ord4 page).1 = [].
Proof.
  intros gs H2 H3 H4 Hparents. subst gs.
  rewrite (roots_spec page ord2 ord3 ord4 H2 H3 H4).
  transitivity (omap (fun _ : nat => @None viewGroupRes) ord4.*2).
  - apply omap_ext_in. intros p _. unfold groups.ptr in *.
    rewrite (heap_spec page ord2 ord3 ord4 p H3).
    destruct (groups.Groups page !! p) as [g|] eqn:Hg; simpl; [|done].
    apply list_elem_of_lookup_2 in Hg. apply Hparents in Hg.
    repeat case_decide; try done; exfalso; auto.
  - by induction (ord4.*2).
Qed.

Lemma tree_assembly_without_orphans_witness :
  Groups (buildGroupsResponseTree (map_to_list (indexGroups pageLoop).1)
            (map_to_list (indexGroups pageLoop).1)
            (map_to_list (indexGroups pageLoop).1) pageLoop).1 = [].
Proof.
  apply tree_assembly_without_orphans; try reflexivity.
  intros g Hg. apply list_elem_of_singleton in Hg as ->. by_evaluation.
Defined.

(** X22: a group whose id was already met earlier in the page is left
    out of the tree: the backing array keeps it as it came, the groups that
    the map holds never get it as a child, and every group of the top level
    is a copy of the first group of the page with its id. *)
Theorem tree_assembly_skips_repeated_ids page ord2 ord3 ord4 (i j : nat) g g' :
  let gs := groups.Groups page in
  let out := buildGroupsResponseTree ord2 ord3 ord4 page in
  ord2 ≡ₚ map_to_list (indexGroups page).1 ->
  ord3 ≡ₚ map_to_list (indexGroups page).1 ->
  ord4 ≡ₚ map_to_list (indexGroups page).1 ->
  i < j -> gs !! i = Some g -> gs !! j = Some g' -> groups.ID g = groups.ID g' ->
  out.2 !! j = Some g' /\
  (forall (p : nat) c, out.2 !! p = Some c -> firstIdx (groups.ID c) gs = Some p ->
     j ∉ groups.Children c) /\
  (forall v, v ∈ Groups out.1 ->
     exists p : nat, firstIdx (groups.ID (Group v)) gs = Some p /\ p ≠ j /\
                     out.2 !! p = Some (Group v)).
Proof.
  intros gs out H2 H3 H4 Hlt Hi Hj Hid. subst gs out.
  assert (Hrepeated : forall k, firstIdx k (groups.Groups page) ≠ Some j).
  { intros k Hk. destruct (firstIdx_Some _ _ _ Hk) as (g0 & Hg0 & <- & Hfirst).
    unfold groups.ptr in *. assert (g0 = g') as -> by congruence.
    by apply (Hfirst i g Hlt Hi). }
  repeat split.
  - rewrite (heap_spec page ord2 ord3 ord4 j H3), Hj. simpl.
    rewrite decide_False; [done|apply Hrepeated].
  - intros p c. rewrite (heap_spec page ord2 ord3 ord4 p H3).
    destruct (groups.Groups page !! p) as [g0|] eqn:Hg0; simpl; [|done].
    case_decide as Hfirst0.
    + intros [= <-] _. simpl. intros Hin.
      apply list_elem_of_filter in Hin as [_ Hin].
      apply (visit_ptr page ord2 j H2) in Hin as (c & _ & Hc).
      by apply Hrepeated in Hc.
    + intros [= <-] Hfirst. done.
  - intros v. rewrite (roots_spec page ord2 ord3 ord4 H2 H3 H4).
    rewrite list_elem_of_omap. intros (p & Hp & Hv).
    apply (visit_ptr page ord4 p H4) in Hp as (g0 & Hg0 & Hfirst).
    pose proof (heap_spec page ord2 ord3 ord4 p H3) as Hheap.
    unfold groups.ptr in *. rewrite Hg0 in Hheap. simpl in Hheap.
    rewrite decide_True in Hheap by done. rewrite Hheap in Hv.
    case_decide; [done|]. injection Hv as <-. simpl.
    exists p. repeat split; [done| |done].
    intros ->. by apply Hrepeated in Hfirst.
Qed.

Lemma tree_assembly_skips_repeated_ids_witness :
  (buildGroupsResponseTree ordTwice ordTwice ordTwice pageTwice).2 !! 2 = Some group1'.
Proof.
  apply (tree_assembly_skips_repeated_ids pageTwice ordTwice ordTwice ordTwice 0 2
           group1 group1'); try reflexivity.
  lia.
Defined.

(** ** The admin account *)

(** X23: [createAdmin] saves nothing and asks for no token when the
    repository already knows the admin's identity, and returns no error
    then, whatever service it was given; the id has been drawn and the
    password hashed by then all the same.  When it saves, the lookup has
    failed (with any error), and the record carries the hash that the
    hasher answered for the configured password, the configured identity,
    the admin role, the enabled status and the metadata [role = admin]; a
    failed save is the error returned, and no token is asked for then. *)
Theorem createAdmin_saves_once_hashed W (h : handler W) w c issueToken :
  let o := run h (UsersMain.createAdmin c issueToken) w in
  (forall found,
     head (omap byIdentity_of (trace_of o)) = Some (UsersMain.AdminEmail c, Ok found) ->
     result_of o = None /\
     exists id hash created updated,
       trace_of o = [Log IDProviderID (Ok id);
                     Log (HasherHash (UsersMain.AdminPassword c)) (Ok hash);
                     Log TimeNow created; Log TimeNow updated;
                     Log (ClientsRetrieveByIdentity (UsersMain.AdminEmail c)) (Ok found)]) /\
  (forall saved r,
     head (omap usersSave_of (trace_of o)) = Some (saved, r) ->
     exists id hash created updated e rest,
       saved = adminRecord id (UsersMain.AdminEmail c) hash created updated /\
       trace_of o = [Log IDProviderID (Ok id);
                     Log (HasherHash (UsersMain.AdminPassword c)) (Ok hash);
                     Log TimeNow created; Log TimeNow updated;
                     Log (ClientsRetrieveByIdentity (UsersMain.AdminEmail c)) (Err e);
                     Log (UsersSave saved) r] ++ rest /\
       forall e', r = Err e' -> rest = [] /\ result_of o = Some e').
Proof.
  unfold UsersMain.createAdmin, call, adminRecord. simpl.
  step h. destruct r as [id|]; simpl; [|by split].
  step h. destruct r as [hash|]; simpl; [|by split].
  step h. step h. step h. destruct r1 as [found|e]; simpl.
  { split; [|done]. intros ? [= <-]. split; [done|]. by eexists _, _, _, _. }
  step h. destruct r1 as [client|e']; simpl.
  - rewrite run_bind.
    destruct (run h (issueToken _ _) _) as [[rt tr] w']. destruct rt; simpl.
    all: split; [done|]; intros ? ? [= <- <-].
    all: eexists _, _, _, _, _, _; split; [done|]; split; [done|]; done.
  - split; [done|]. intros ? ? [= <- <-].
    eexists _, _, _, _, _, _; split; [done|]; split; [done|].
    by intros ? [= <-].
Qed.

Lemma createAdmin_saves_once_hashed_witness :
  result_of (run Sim.sim (UsersMain.createAdmin configAlice Users.IssueToken) Scenario.w0)
  = None.
Proof.
  destruct (createAdmin_saves_once_hashed Sim.World Sim.sim Scenario.w0 configAlice
              Users.IssueToken) as [Hknown _].
  destruct (Hknown (mfclients.mkClient "alice" "Alice" [] ""
                      (mfclients.mkCredentials "alice@example.com" "#old-secret")
                      [] 5%Z 0%Z "" mfclients.EnabledStatus mfclients.UserRole))
    as [Hres _]; [reflexivity|exact Hres].
Defined.

(** A new admin is saved with the hash of the password; the token that is
    then asked for is issued. *)
Example createAdmin_new_admin :
  let o := run Sim.sim (UsersMain.createAdmin configRoot Users.IssueToken) Scenario.w0 in
  result_of o = None /\
  omap usersSave_of (trace_of o)
  = [(adminRecord "id1" "root@example.com" "#12345678" 100%Z 101%Z,
      Ok (adminRecord "id1" "root@example.com" "#12345678" 100%Z 101%Z))] /\
  count is_auth_call (trace_of o) = 1.
Proof. vm_compute. done. Qed.

(** ** Listing clients *)

(** X24: [ListClients] of the things service asks for no authorization,
    and the arm of its [switch err] that confines the listing to the caller
    is never taken: the page that reaches [RetrieveAll] keeps the [Action]
    of the request, and a request that uses the key [mine] neither as owner
    nor as sharer reaches it unchanged, whoever the caller is.  A request
    for [mine] as owner alone is confined to the caller. *)
Theorem Things_ListClients_is_not_confined W (h : fhandler EvX W) w token pm :
  let o := frun h (ThingsX.ListClients token pm) w in
  omap authorizeX_of (ftrace o) = [] /\
  forall pm' r, FLog (ClientsRetrieveAll pm') r ∈ ftrace o ->
    fresult o = r /\
    clientpages.Action pm' = clientpages.Action pm /\
    (clientpages.SharedBy pm ≠ ThingsX.myKey -> clientpages.Owner pm ≠ ThingsX.myKey ->
     pm' = pm) /\
    exists userID,
      FLog (Base (AuthIdentify token)) (Ok userID) ∈ ftrace o /\
      (clientpages.SharedBy pm ≠ ThingsX.myKey -> clientpages.Owner pm = ThingsX.myKey ->
       pm' = clientpages.with_SharedBy "" (clientpages.with_Owner userID pm)).
Proof.
  unfold ThingsX.ListClients, Things.identify, fcall, call. simpl.
  step h. destruct r as [userID|e]; simpl; [|split; [done|]; intros ? ? Hin;
                                              entry_cases retrieveAll_of Hin].
  step h. split; [done|].
  intros pm' r' Hin. entry_cases retrieveAll_of Hin.
  split; [done|].
  unfold ThingsX.visibility.
  destruct (decide (clientpages.SharedBy pm = ThingsX.myKey)) as [Hs|Hs];
    destruct (decide (clientpages.Owner pm = ThingsX.myKey)) as [Ho|Ho].
  all: rewrite ?(bool_decide_true _ Hs), ?(bool_decide_false _ Hs),
         ?(bool_decide_true _ Ho), ?(bool_decide_false _ Ho); simpl.
  all: rewrite ?bool_decide_true, ?bool_decide_false by done; simpl.
  all: split; [done|]; split; [done|]; exists userID; split; [trace_mem|done].
Qed.

Lemma Things_ListClients_is_not_confined_witness :
  fresult (frun SimX.sim (ThingsX.ListClients "tok-bob" plainPage) Scenario.w0)
  = Ok (clientpages.mkClientsPage plainPage (Sim.clientsTbl Scenario.w0)).
Proof.
  destruct (Things_ListClients_is_not_confined Sim.World SimX.sim Scenario.w0
              "tok-bob" plainPage) as [_ Hpage].
  destruct (Hpage plainPage
              (Ok (clientpages.mkClientsPage plainPage (Sim.clientsTbl Scenario.w0))))
    as [Hres _]; [|exact Hres].
  vm_compute. trace_mem.
Defined.

(** X25: [ListClients] of the users service and [ListClientsByGroup] of
    the things service hand the repository the page of the request with the
    caller as owner, whatever owner the request named, and ask for no
    authorization; the answer of the repository is the result. *)
Theorem listings_are_confined_to_the_caller W (h : fhandler EvX W) w token groupID pm :
  let o := frun h (UsersX.ListClients token pm) w in
  let o' := frun h (ThingsX.ListClientsByGroup token groupID pm) w in
  (omap authorizeX_of (ftrace o) = [] /\
   forall pm' r, FLog (ClientsRetrieveAll pm') r ∈ ftrace o ->
     fresult o = r /\
     exists id, FLog (Base (AuthIdentify token)) (Ok id) ∈ ftrace o /\
                pm' = clientpages.with_Owner id pm) /\
  (omap authorizeX_of (ftrace o') = [] /\
   forall g pm' r, FLog (ClientsMembers g pm') r ∈ ftrace o' ->
     g = groupID /\ fresult o' = r /\
     exists id, FLog (Base (AuthIdentify token)) (Ok id) ∈ ftrace o' /\
                pm' = clientpages.with_Owner id pm).
Proof.
  unfold UsersX.ListClients, ThingsX.ListClientsByGroup, Users.Identify, Things.identify,
    fcall, call. simpl.
  step h. destruct r as [id|e]; simpl.
  - step h. step h. destruct r; simpl.
    all: split; split; try done.
    all: try (intros pm' r' Hin; entry_cases retrieveAll_of Hin;
              split; [done|]; exists id; split; [trace_mem|done]).
    all: intros g pm' r' Hin; entry_cases members_of Hin.
    all: split; [done|]; split; [done|]; exists id; split; [trace_mem|done].
  - split; split; try done.
    + intros pm' r' Hin. entry_cases retrieveAll_of Hin.
    + intros g pm' r' Hin. entry_cases members_of Hin.
Qed.

Lemma listings_are_confined_to_the_caller_witness :
  fresult (frun SimX.sim (UsersX.ListClients "tok-alice" plainPage) Scenario.w0)
  = Ok (clientpages.mkClientsPage (clientpages.with_Owner "alice" plainPage)
          (SimX.listed (clientpages.with_Owner "alice" plainPage) Scenario.w0)).
Proof.
  destruct (listings_are_confined_to_the_caller Sim.World SimX.sim Scenario.w0
              "tok-alice" "g1" plainPage) as [[_ Hpage] _].
  destruct (Hpage (clientpages.with_Owner "alice" plainPage)
              (Ok (clientpages.mkClientsPage (clientpages.with_Owner "alice" plainPage)
                     (SimX.listed (clientpages.with_Owner "alice" plainPage) Scenario.w0))))
    as [Hres _]; [|exact Hres].
  vm_compute. trace_mem.
Defined.

(** X26: [ListMembers] of the users service checks, on the group, the
    permission that the page of the request names; it reaches the
    repository only when that was granted, with the ids of the page
    replaced by the subjects that the policy engine listed for the same
    permission; the members of the result are the clients that the
    repository answered. *)
Theorem Users_ListMembers_checks_the_named_permission W (h : fhandler EvX W) w
    token groupID pm :
  let o := frun h (UsersX.ListMembers token groupID pm) w in
  let req := mainflux.mkPolicyReq "user" "token" token "" (clientpages.Permission pm)
               "group" groupID in
  let list := mainflux.mkPolicyReq "user" "" "" "" (clientpages.Permission pm)
                "group" groupID in
  (exists r, head (ftrace o) = Some (FLog (Base (AuthAuthorize req)) r)) /\
  (forall r, FLog (Base (AuthAuthorize req)) r ∈ ftrace o -> granted r = false ->
     fresult o = Err (authzError r) /\ length (ftrace o) = 1) /\
  (forall pm' r, FLog (ClientsRetrieveAll pm') r ∈ ftrace o ->
     exists res uids,
       ftrace o = [FLog (Base (AuthAuthorize req)) (Ok res);
                   FLog (Base (AuthListAllSubjects list)) (Ok uids);
                   FLog (ClientsRetrieveAll pm') r] /\
       mainflux.Authorized res = true /\
       pm' = clientpages.with_IDs uids pm /\
       fresult o = match r with
                   | Ok cp => Ok (clientpages.mkMembersPage (clientpages.CPage cp)
                                    (clientpages.Clients cp))
                   | Err e => Err e
                   end).
Proof.
  unfold UsersX.ListMembers, UsersX.authorize, fcall. simpl.
  step h. repeat apply conj.
  - destruct r as [[[] ?]|]; simpl; [step h; destruct r; simpl; [step h; destruct r|]|..];
      by eexists.
  - intros r' Hin Hdenied.
    destruct r as [[[] ?]|]; simpl in *;
      [step h; destruct r; simpl in *; [step h; destruct r; simpl in *|]|..];
      entry_cases authorizeX_of Hin; done.
  - intros pm' r' Hin.
    destruct r as [[[] ?]|]; simpl in *;
      [step h; destruct r; simpl in *; [step h; destruct r; simpl in *|]|..];
      entry_cases retrieveAll_of Hin.
    all: by eexists _, _.
Qed.

Lemma Users_ListMembers_checks_the_named_permission_witness :
  fresult (frun SimX.sim (UsersX.ListMembers "tok-bob" "g1" plainPage) Scenario.w0)
  = Err (ErrSentinel ErrAuthorization).
Proof.
  destruct (Users_ListMembers_checks_the_named_permission Sim.World SimX.sim Scenario.w0
              "tok-bob" "g1" plainPage) as (_ & Hdenied & _).
  destruct (Hdenied (Ok (mainflux.mkAuthorizeRes false "bob"))) as [Hres _];
    [|reflexivity|exact Hres].
  vm_compute. trace_mem.
Defined.

(** ** Updating clients *)

(** X27: the update methods of the things service ([UpdateClient],
    [UpdateClientTags], [UpdateClientOwner]) reach the repository only
    after edit-permission on the thing was granted to the caller; what they
    hand over is the id, the fields of their kind and the two stamps, every
    other field of the submitted client left out; the answer of the
    repository is the result, and a denial is the error. *)
Theorem Things_updates_need_edit_on_the_thing W (h : fhandler EvX W) w token cli k p :
  (k, p) ∈ thingsUpdates token cli ->
  let o := frun h p w in
  (forall k' c r, Some (k', c, r) ∈ map update_of (ftrace o) ->
     k' = k /\ fresult o = r /\
     exists userID res now,
       ftrace o
       = [FLog (Base (AuthIdentify token)) (Ok userID);
          FLog (Base (AuthAuthorize
                        (Things.authorizeReq "user" userID "edit" "thing"
                           (mfclients.ID cli)))) (Ok res);
          FLog (Base TimeNow) now;
          FLog (match k with
                | OfRecord => ClientsUpdate c
                | OfTags => ClientsUpdateTags c
                | _ => ClientsUpdateOwner c
                end) r] /\
       mainflux.Authorized res = true /\
       c = updateRecord k cli userID now) /\
  (forall req r, FLog (Base (AuthAuthorize req)) r ∈ ftrace o -> granted r = false ->
     fresult o = Err (authzError r)).
Proof.
  unfold thingsUpdates. intros Hin.
  repeat (apply elem_of_cons in Hin as [[= -> ->]|Hin]); [..|by apply elem_of_nil in Hin].
  all: unfold ThingsX.UpdateClient, ThingsX.UpdateClientTags, ThingsX.UpdateClientOwner,
         Things.identify, Things.authorize, fcall, call, updateRecord; simpl.
  all: step h; destruct r as [userID|e]; simpl;
       [step h; destruct r as [[[] ?]|e]; simpl; [step h; step h|..]|].
  all: split;
       [intros k' c r' Hin; simpl in Hin;
        repeat (apply elem_of_cons in Hin as [Hin|Hin]; [simplify_eq|]);
        try (by apply elem_of_nil in Hin)
       |intros req r' Hin Hdenied; entry_cases authorizeX_of Hin; try done].
  all: split; [done|]; split; [done|]; by eexists _, _, _.
Qed.

Lemma Things_updates_need_edit_on_the_thing_witness :
  fresult (frun SimX.sim (ThingsX.UpdateClient "tok-bob" renamed) w1)
  = Err (ErrSentinel ErrAuthorization).
Proof.
  destruct (Things_updates_need_edit_on_the_thing Sim.World SimX.sim w1 "tok-bob" renamed
              OfRecord (ThingsX.UpdateClient "tok-bob" renamed)) as [_ Hdenied].
  - left.
  - apply (Hdenied (Things.authorizeReq "user" "bob" "edit" "thing" "t1")
             (Ok (mainflux.mkAuthorizeRes false "bob"))); [|reflexivity].
    vm_compute. trace_mem.
Defined.

(** With the permission, the name and the metadata of the thing change,
    and nothing else does. *)
Example Things_UpdateClient_renames :
  fresult (frun SimX.sim (ThingsX.UpdateClient "tok-alice" renamed) w1)
  = Ok (mfclients.mkClient "t1" "barometer" [] "alice"
          (mfclients.mkCredentials "" "key-t1") [("unit", "hPa")] 6%Z 100%Z "alice"
          mfclients.EnabledStatus mfclients.UserRole).
Proof. reflexivity. Qed.

(** X28: the update methods of the users service ([UpdateClient],
    [UpdateClientTags], [UpdateClientIdentity], [UpdateClientOwner]) ask the
    policy engine for nothing: they reach the repository when the caller
    is the client itself, without any check, or when the repository
    answered that the caller owns the client; what they hand over is the
    id, the fields of their kind and the two stamps. *)
Theorem Users_updates_need_self_or_owner W (h : fhandler EvX W) w token cli k p :
  (k, p) ∈ usersUpdates token cli ->
  let o := frun h p w in
  omap authorizeX_of (ftrace o) = [] /\
  (forall k' c r, Some (k', c, r) ∈ map update_of (ftrace o) ->
     k' = k /\ fresult o = r /\
     exists caller now,
       FLog (Base (AuthIdentify token)) (Ok caller) ∈ ftrace o /\
       c = updateRecord k cli caller now /\
       (caller = mfclients.ID cli /\ omap isOwnerX_of (ftrace o) = []
        \/ caller ≠ mfclients.ID cli /\
           omap isOwnerX_of (ftrace o) = [(mfclients.ID cli, caller, None)])) /\
  (forall clientID ownerID e,
     FLog (Base (ClientsIsOwner clientID ownerID)) (Some e) ∈ ftrace o ->
     fresult o = Err e /\ omap update_of (ftrace o) = []).
Proof.
  unfold usersUpdates. intros Hin.
  repeat (apply elem_of_cons in Hin as [[= -> ->]|Hin]); [..|by apply elem_of_nil in Hin].
  all: unfold UsersX.UpdateClient, UsersX.UpdateClientTags, UsersX.UpdateClientIdentity,
         UsersX.UpdateClientOwner, UsersX.ownerCheck, Users.Identify, Users.isOwner,
         fcall, call, updateRecord; simpl.
  all: step h; destruct r as [caller|e]; simpl;
       [destruct (decide (caller ≠ mfclients.ID cli)) as [Hother|Hself]; simpl;
        [step h; destruct r as [e|]; simpl; [|step h; step h]|step h; step h]|].
  all: split; [done|]; split;
       [intros k' c r' Hin; simpl in Hin;
        repeat (apply elem_of_cons in Hin as [Hin|Hin]; [simplify_eq|]);
        try (by apply elem_of_nil in Hin)
       |intros clientID ownerID e' Hin; entry_cases isOwnerX_of Hin; try done].
  all: split; [done|]; split; [done|]; eexists _, _.
  all: split; [trace_mem|]; split; [done|].
  all: first [by right | left; split; [by apply dec_stable|done]].
Qed.

Lemma Users_updates_need_self_or_owner_witness :
  fresult (frun SimX.sim (UsersX.UpdateClientOwner "tok-bob" renamed) Scenario.w0)
  = Err (ErrSentinel ErrAuthorization).
Proof.
  destruct (Users_updates_need_self_or_owner Sim.World SimX.sim Scenario.w0 "tok-bob"
              renamed OfOwner (UsersX.UpdateClientOwner "tok-bob" renamed))
    as (_ & _ & Hrefused).
  - repeat first [left | right].
  - destruct (Hrefused "t1" "bob" (ErrSentinel ErrAuthorization)) as [Hres _];
      [|exact Hres].
    vm_compute. trace_mem.
Defined.

(** ** Refreshing a token *)

(** [RefreshToken] makes one call; a failed refresh is the error, no token
    at all is "invalid token", and a token without a string under
    "refresh_token" is an authentication error. *)
Lemma RefreshToken_parses_the_answer W (h : fhandler EvX W) w refreshToken :
  let o := frun h (UsersX.RefreshToken refreshToken) w in
  exists r,
    ftrace o = [FLog (AuthRefresh refreshToken) r] /\
    fresult o = match r with
                | Err e => Err e
                | Ok None => Err (ErrNew "invalid token")
                | Ok (Some tkn) =>
                    match mainflux.Extra tkn !! "refresh_token" with
                    | Some (mainflux.StringValue refresh) =>
                        Ok (jwt.mkToken (mainflux.Value tkn) refresh "bearer")
                    | _ => Err (ErrSentinel ErrAuthentication)
                    end
                end.
Proof.
  unfold UsersX.RefreshToken, Users.parseToken, fcall. simpl.
  step h. exists r. destruct r as [[tkn|]|e]; simpl; [|done..].
  split; [done|]. by destruct (mainflux.Extra tkn !! "refresh_token") as [[]|].
Qed.

(** ** The event store of a role manager *)

(** Runs a method of the store to its leaves. *)
Ltac run_method h :=
  unfold RoleEvents.AddRole, RoleEvents.RemoveRole, RoleEvents.UpdateRoleName,
    RoleEvents.RetrieveRole, RoleEvents.RetrieveAllRoles, RoleEvents.ListAvailableActions,
    RoleEvents.RoleAddActions, RoleEvents.RoleListActions,
    RoleEvents.RoleCheckActionsExists, RoleEvents.RoleRemoveActions,
    RoleEvents.RoleRemoveAllActions, RoleEvents.RoleAddMembers,
    RoleEvents.RoleListMembers, RoleEvents.RoleCheckMembersExists,
    RoleEvents.RoleRemoveMembers, RoleEvents.RoleRemoveAllMembers,
    RoleEvents.RemoveMemberFromAllRoles, fcall; simpl;
  step h;
  match goal with
  | r : (_ * option error)%type |- _ => destruct r as [? [?|]]
  | r : option error |- _ => destruct r as [?|]
  end; simpl;
  try (step h;
       match goal with
       | |- context [match ?r with _ => _ end] => is_var r; destruct r; simpl
       end).

(** X29: every method of the event store makes the call of the role
    manager that it stands for, once and first.  When that call fails the
    store publishes nothing and returns the answer as it is; when it
    succeeds the store publishes one event, carrying the operation prefix
    of the store, and returns the value of the answer with the error of the
    publisher: a publisher that fails turns a call that took effect into an
    error. *)
Theorem event_store_publishes_after_success (Session Role RolePage MembersPage W : Type)
    (h : fhandler (RoleEvents.Op Session Role RolePage MembersPage) W) w rmes
    (A : Type) (op : RoleEvents.Op Session Role RolePage MembersPage A) :
  RoleEvents.isManagerCall op = true ->
  let o := frun h (RoleEvents.method rmes op) w in
  let x := (h A op w).1 in
  match RoleEvents.errorOf op x with
  | Some _ => ftrace o = [FLog op x] /\ fresult o = x
  | None =>
      exists ev err,
        ftrace o = [FLog op x; FLog (RoleEvents.Publish ev) err] /\
        fresult o = RoleEvents.withError op x err /\
        RoleEvents.prefixOf ev = RoleEvents.operationPrefix rmes
  end.
Proof.
  intros Hcall. destruct op; try discriminate Hcall; clear Hcall; simpl.
  all: run_method h; try done.
  all: by eexists _, _.
Qed.

Lemma event_store_publishes_after_success_witness :
  fresult (frun (rolesDemo (Some busDown))
             (RoleEvents.method (RoleEvents.mkRoleManagerEventStore "groups." "groups")
                (RoleEvents.RemoveRole_ "session" "g1" "admin")) tt)
  = Some busDown.
Proof.
  pose proof (event_store_publishes_after_success string string (list string) (list string)
                unit (rolesDemo (Some busDown)) tt
                (RoleEvents.mkRoleManagerEventStore "groups." "groups")
                _ (RoleEvents.RemoveRole_ "session" "g1" "admin") eq_refl)
    as (ev & err & Htrace & Hres & _).
  apply (f_equal RoleEvents.published) in Htrace. vm_compute in Htrace.
  injection Htrace as _ <-. exact Hres.
Defined.

(** X30: a store built by [NewRoleManagerEventStore] publishes every
    event of the role manager's methods with the empty operation prefix,
    whatever prefix it was built with. *)
Theorem new_event_store_drops_the_prefix (Session Role RolePage MembersPage W : Type)
    (h : fhandler (RoleEvents.Op Session Role RolePage MembersPage) W) w
    svcName operationPrefix
    (A : Type) (op : RoleEvents.Op Session Role RolePage MembersPage A) :
  RoleEvents.isManagerCall op = true ->
  let o := frun h (RoleEvents.method
                     (RoleEvents.NewRoleManagerEventStore svcName operationPrefix) op) w in
  forall ev err, (ev, err) ∈ RoleEvents.published (ftrace o) -> RoleEvents.prefixOf ev = "".
Proof.
  intros Hcall. destruct op; try discriminate Hcall; clear Hcall; simpl.
  all: intros ev err'; run_method h; intros Hin.
  all: repeat (apply elem_of_cons in Hin as [Hin|Hin]; [by simplify_eq|]).
  all: by apply elem_of_nil in Hin.
Qed.

Lemma new_event_store_drops_the_prefix_witness :
  RoleEvents.published
    (ftrace (frun (rolesDemo None)
               (RoleEvents.method (RoleEvents.NewRoleManagerEventStore "groups" "groups.")
                  (RoleEvents.RoleAddActions_ "session" "g1" "admin" ["read"])) tt))
  = [(RoleEvents.roleAddActionsEvent "" "g1" "admin" ["read"], None)] /\
  RoleEvents.prefixOf (Role := string) (RoleEvents.roleAddActionsEvent "" "g1" "admin" ["read"])
  = "".
Proof.
  split; [reflexivity|].
  apply (new_event_store_drops_the_prefix string string (list string) (list string) unit
           (rolesDemo None) tt "groups" "groups." _
           (RoleEvents.RoleAddActions_ "session" "g1" "admin" ["read"]) eq_refl
           _ None).
  vm_compute. left.
Defined.
